(** * react-gantt-nl: coordinate engine, hierarchy flattener, position
      compiler and drag controller

    A shallow embedding of [utils/date.ts], [utils/position.ts],
    [hooks/useDrag.ts] and the drag entry point of [components/Gantt.tsx].

    Conventions of the embedding.
    - A JavaScript [Date] is its time value: an integer number of
      milliseconds since the epoch ([Z]).  The code copies a date before
      every mutation ([new Date(date)]), so dates are values here.
    - A JavaScript [number] is modelled twice.  The general theorems are
      about the code on exact rationals ([Q]): arithmetic is the ideal
      one, without the rounding of binary64, and without [NaN], the
      infinities and invalid dates; a theorem whose functions divide
      assumes the divisor is not zero.  The functions of the coordinate
      engine are given once more on the numbers of the runtime, IEEE 754
      binary64 ([float], names ending in [64]); they are evaluated at
      concrete inputs to show where the rounding, a division by zero or
      an invalid date makes the code differ from the ideal arithmetic.
    - The host's local time zone is a constant offset [tz] from UTC, in
      milliseconds (a zone without daylight-saving transitions): every
      local day has 24 hours.  Statements that count days in
      milliseconds hold for such a zone only.
    - [Set<string>] is [gset string], [Map<string, GanttTask>] is
      [gmap string GanttTask]. *)

From Stdlib Require Import ZArith QArith Qround Qminmax Qabs Lia Lqa Floats.
From stdpp Require Import gmap strings list.

Local Open Scope Z_scope.

(** ** The part of the JavaScript runtime the code relies on *)

Definition Date : Type := Z.

(** [ToIntegerOrInfinity] on a finite number: truncation toward zero. *)
Definition ToIntegerOrInfinity (v : Q) : Z := Z.quot (Qnum v) (Z.pos (Qden v)).

(** [new Date(value)] for a finite number: the time value is the number,
    truncated.  The limit of [TimeClip] and the invalid date of a number
    that is not finite are in [newDate64]. *)
Definition newDate (v : Q) : Date := ToIntegerOrInfinity v.

(** [Math.ceil] and [Math.max]. *)
Definition Math_ceil (v : Q) : Z := Qceiling v.
Definition Math_max (a b : Q) : Q := Qmax a b.

Definition msPerDay : Z := 86400000.

Definition Day (t : Z) : Z := t / msPerDay.
Definition TimeWithinDay (t : Z) : Z := t mod msPerDay.
Definition MakeTime (h m s ms : Z) : Z := h * 3600000 + m * 60000 + s * 1000 + ms.
Definition MakeDate (day time : Z) : Z := day * msPerDay + time.

(** Day of the month of the day number [z] (days since 1970-01-01) in the
    proleptic Gregorian calendar: ECMAScript's [DateFromTime]. *)
Definition DateFromDay (z : Z) : Z :=
  let z := z + 719468 in
  let era := z / 146097 in
  let doe := z - era * 146097 in
  let yoe := (doe - doe / 1460 + doe / 36524 - doe / 146096) / 365 in
  let doy := doe - (365 * yoe + yoe / 4 - yoe / 100) in
  let mp := (5 * doy + 2) / 153 in
  doy - (153 * mp + 2) / 5 + 1.

Section Host.

(** Offset of local time from UTC, in milliseconds. *)
Variable tz : Z.

Definition LocalTime (t : Z) : Z := t + tz.
Definition UTC (t : Z) : Z := t - tz.

(** [date.getDate()] *)
Definition getDate (date : Date) : Z := DateFromDay (Day (LocalTime date)).

(** [date.setHours(h, m, s, ms)], as the new time value. *)
Definition setHours (date : Date) (h m s ms : Z) : Date :=
  UTC (MakeDate (Day (LocalTime date)) (MakeTime h m s ms)).

(** [date.setDate(dt)], as the new time value: the day is counted from the
    first day of the month of [date], and [dt] is truncated to an integer
    ([MakeDay]). *)
Definition setDate (date : Date) (dt : Q) : Date :=
  let t := LocalTime date in
  let firstOfMonth := Day t - (DateFromDay (Day t) - 1) in
  UTC (MakeDate (firstOfMonth + (ToIntegerOrInfinity dt - 1)) (TimeWithinDay t)).

(** ** utils/date.ts *)

Definition MS_PER_DAY : Z := 24 * 60 * 60 * 1000.

Definition startOfDay (date : Date) : Date := setHours date 0 0 0 0.

Definition endOfDay (date : Date) : Date := setHours date 23 59 59 999.

Definition addDays (date : Date) (days : Q) : Date :=
  setDate date (inject_Z (getDate date) + days)%Q.

Definition diffInDays (start end_ : Date) : Q :=
  (inject_Z (end_ - start) / inject_Z MS_PER_DAY)%Q.

Inductive ViewMode : Type := day | week | month.

Record DateRange : Type := mkDateRange {
  range_start : Date;
  range_end : Date;
  totalDays : Q
}.

(** ** utils/position.ts: the coordinate engine

    On exact numbers.  A division by zero is 0 in [Q], where the code
    gets an infinity or [NaN]: what is proved of these functions assumes
    that the range does not end when it starts and that the chart width
    is not zero.  [dateToX64] and [xToDate64] are the same functions on
    the numbers of the runtime. *)

Definition dateToX (date : Date) (dateRange : DateRange) (chartWidth : Q) : Q :=
  let totalMs := range_end dateRange - range_start dateRange in
  let dateMs := date - range_start dateRange in
  ((inject_Z dateMs / inject_Z totalMs) * chartWidth)%Q.

Definition xToDate (x : Q) (dateRange : DateRange) (chartWidth : Q) : Date :=
  let totalMs := range_end dateRange - range_start dateRange in
  let dateMs := ((x / chartWidth) * inject_Z totalMs)%Q in
  newDate (inject_Z (range_start dateRange) + dateMs)%Q.

Definition calculateBarWidth (start end_ : Date) (dateRange : DateRange)
    (chartWidth : Q) (minWidth : Q) : Q :=
  let startX := dateToX start dateRange chartWidth in
  let endX := dateToX end_ dateRange chartWidth in
  Math_max (endX - startX)%Q minWidth.

Definition snapToGrid (x : Q) (dateRange : DateRange) (chartWidth : Q)
    (viewMode : ViewMode) : Q :=
  let date := xToDate x dateRange chartWidth in
  let snappedDate :=
    match viewMode with
    | day => startOfDay date
    | week => startOfDay date
    | month => startOfDay date
    end in
  dateToX snappedDate dateRange chartWidth.

(** ** types: tasks and computed tasks *)

(** ['task' | 'milestone' | 'group'] *)
Inductive TaskType : Type := plain | milestone | group.

(** The fields of [GanttTask] the engine reads.  An optional field is an
    [option]; the optional flag [isDisabled] is its truth value. *)
Record GanttTask : Type := mkGanttTask {
  id : string;
  name : string;
  type : TaskType;
  start : Date;
  end_ : Date;
  baselineStart : option Date;
  baselineEnd : option Date;
  parentId : option string;
  isDisabled : bool
}.

(** [ComputedTask]: the task's own fields ([...task]) and the geometry. *)
Record ComputedTask : Type := mkComputedTask {
  task : GanttTask;
  x : Q;
  width : Q;
  rowIndex : Z;
  baselineX : option Q;
  baselineWidth : option Q;
  level : nat;
  isCollapsed : bool;
  isVisible : bool
}.

(** Truth value of an optional string: [undefined] and the empty string
    are falsy. *)
Definition truthy (s : option string) : bool :=
  match s with
  | Some v => negb (String.eqb v "")
  | None => false
  end.

(** [collapsedIds.has(k)] *)
Definition Set_has (s : gset string) (k : string) : bool := bool_decide (k ∈ s).

(** [new Map(tasks.map((t) => [t.id, t]))]: a later entry replaces an
    earlier one with the same key. *)
Definition Map_of_tasks (tasks : list GanttTask) : gmap string GanttTask :=
  foldl (fun m t => <[id t := t]> m) ∅ tasks.

(** [taskMap.has(k)] *)
Definition Map_has (m : gmap string GanttTask) (k : string) : bool :=
  bool_decide (is_Some (m !! k)).

(** [list.forEach] with a body that updates a state and may not return. *)
Fixpoint forEach {A S : Type} (l : list A) (body : S -> A -> option S) (s : S)
    : option S :=
  match l with
  | [] => Some s
  | a :: l' =>
      match body s a with
      | Some s' => forEach l' body s'
      | None => None
      end
  end.

(** ** utils/position.ts: the hierarchy flattener *)

Record FlatEntry : Type := mkFlatEntry {
  flat_task : GanttTask;
  flat_level : nat;
  flat_isVisible : bool
}.

Definition isRootTask (tasks : list GanttTask) (t : GanttTask) : bool :=
  let taskMap := Map_of_tasks tasks in
  negb (truthy (parentId t))
  || negb (match parentId t with Some p => Map_has taskMap p | None => false end).

Definition isChildOf (parent t : GanttTask) : bool :=
  bool_decide (parentId t = Some (id parent)).

(** The inner function [addTask].  [result] is the array the calls push
    to; [fuel] bounds the depth of the recursion, and [None] stands for a
    recursion that does not end. *)
Fixpoint addTask (tasks : list GanttTask) (collapsedIds : gset string)
    (fuel : nat) (result : list FlatEntry)
    (t : GanttTask) (lvl : nat) (parentVisible : bool)
    : option (list FlatEntry) :=
  match fuel with
  | O => None
  | S fuel' =>
      let isCollapsed := Set_has collapsedIds (id t) in
      let isVisible := parentVisible in
      let result := result ++ [mkFlatEntry t lvl isVisible] in
      let children := List.filter (isChildOf t) tasks in
      forEach children
        (fun result child =>
           addTask tasks collapsedIds fuel' result child (lvl + 1)%nat
             (isVisible && negb isCollapsed))
        result
  end.

Definition flattenTasks (fuel : nat) (tasks : list GanttTask)
    (collapsedIds : gset string) : option (list FlatEntry) :=
  let rootTasks := List.filter (isRootTask tasks) tasks in
  forEach rootTasks
    (fun result t => addTask tasks collapsedIds fuel result t 0%nat true)
    [].

(** ** utils/position.ts: the position compiler *)

(** The callback of [flatTasks.map], with the counter [visibleRowIndex] it
    closes over passed along. *)
Fixpoint computeRows (dateRange : DateRange) (chartWidth : Q)
    (collapsedIds : gset string) (flatTasks : list FlatEntry)
    (visibleRowIndex : Z) : list ComputedTask :=
  match flatTasks with
  | [] => []
  | e :: rest =>
      let t := flat_task e in
      let isVisible := flat_isVisible e in
      let x := dateToX (start t) dateRange chartWidth in
      let width := calculateBarWidth (start t) (end_ t) dateRange chartWidth 4 in
      let baselineX :=
        match baselineStart t, baselineEnd t with
        | Some bs, Some _ => Some (dateToX bs dateRange chartWidth)
        | _, _ => None
        end in
      let baselineWidth :=
        match baselineStart t, baselineEnd t with
        | Some bs, Some be => Some (calculateBarWidth bs be dateRange chartWidth 4)
        | _, _ => None
        end in
      let rowIndex := if isVisible then visibleRowIndex else -1 in
      let visibleRowIndex :=
        if isVisible then visibleRowIndex + 1 else visibleRowIndex in
      mkComputedTask t x width rowIndex baselineX baselineWidth (flat_level e)
        (Set_has collapsedIds (id t)) isVisible
      :: computeRows dateRange chartWidth collapsedIds rest visibleRowIndex
  end.

Definition computeTaskPositions (fuel : nat) (tasks : list GanttTask)
    (dateRange : DateRange) (chartWidth : Q) (collapsedIds : gset string)
    : option (list ComputedTask) :=
  match flattenTasks fuel tasks collapsedIds with
  | Some flatTasks => Some (computeRows dateRange chartWidth collapsedIds flatTasks 0)
  | None => None
  end.

(** ** utils/date.ts: the date range of a task list *)

(** Body of the [forEach] of [calculateDateRange], on the pair
    [(minDate, maxDate)]. *)
Definition rangeStep (acc : Date * Date) (t : GanttTask) : Date * Date :=
  let '(minDate, maxDate) := acc in
  let minDate := if start t <? minDate then start t else minDate in
  let maxDate := if end_ t >? maxDate then end_ t else maxDate in
  let minDate :=
    match baselineStart t with
    | Some b => if b <? minDate then b else minDate
    | None => minDate
    end in
  let maxDate :=
    match baselineEnd t with
    | Some b => if b >? maxDate then b else maxDate
    | None => maxDate
    end in
  (minDate, maxDate).

(** [now] is the value of [new Date()]. *)
Definition calculateDateRange (now : Date) (tasks : list GanttTask)
    (padding : Q) (customRange : option (Date * Date)) : DateRange :=
  match customRange with
  | Some (cs, ce) =>
      let start := startOfDay cs in
      let end_ := endOfDay ce in
      mkDateRange start end_ (inject_Z (Math_ceil (diffInDays start end_)))
  | None =>
      match tasks with
      | [] =>
          let start := startOfDay (addDays now (- padding)%Q) in
          let end_ := endOfDay (addDays now padding) in
          mkDateRange start end_ (padding * 2)%Q
      | t0 :: _ =>
          let '(minDate, maxDate) := foldl rangeStep (start t0, end_ t0) tasks in
          let start := startOfDay (addDays minDate (- padding)%Q) in
          let end_ := endOfDay (addDays maxDate padding) in
          mkDateRange start end_ (inject_Z (Math_ceil (diffInDays start end_)))
      end
  end.

(** ** hooks/useDrag.ts: the drag controller *)

(** ['move' | 'resize-left' | 'resize-right']; [null] is [None]. *)
Inductive DragMode : Type := move | resize_left | resize_right.

Record DragState : Type := mkDragState {
  drag_task : ComputedTask;
  mode : option DragMode;
  startX : Q;
  startTaskX : Q;
  startTaskWidth : Q;
  originalStart : Date;
  originalEnd : Date
}.

(** The options of the hook that the handlers read (through the refs that
    every render keeps in sync). *)
Record UseDragOptions : Type := mkUseDragOptions {
  dateRange : DateRange;
  chartWidth : Q;
  viewMode : ViewMode;
  allowDrag : bool;
  allowResize : bool
}.

(** The state of one [useDrag] instance: the React state and the refs. *)
Record Hook : Type := mkHook {
  isDragging : bool;
  previewStart : option Date;
  previewEnd : option Date;
  dragState : option DragState;
  previewStartRef : option Date;
  previewEndRef : option Date
}.

(** What a handler does besides updating the hook: the calls on the event
    and the callbacks of the host. *)
Inductive Effect : Type :=
  | preventDefault
  | stopPropagation
  | onDragStart (t : ComputedTask)
  | onDragMove (t : ComputedTask) (newStart newEnd : Date)
  | onDragEnd (t : ComputedTask) (newStart newEnd : Date)
      (cancelled isResize : bool).

Definition idle : Hook := mkHook false None None None None None.

Definition isResizeMode (m : option DragMode) : bool :=
  match m with
  | Some resize_left | Some resize_right => true
  | _ => false
  end.

Definition handleMouseDown (opts : UseDragOptions) (h : Hook)
    (t : ComputedTask) (clientX : Q) (m : option DragMode)
    : Hook * list Effect :=
  if isDisabled (task t) then (h, []) else
  match m with
  | None => (h, [])
  | Some m' =>
      if match m' with move => negb (allowDrag opts) | _ => false end
      then (h, [])
      else if match m' with
              | resize_left | resize_right => negb (allowResize opts)
              | move => false
              end
      then (h, [])
      else
        (mkHook true (Some (start (task t))) (Some (end_ (task t)))
           (Some (mkDragState t m clientX (x t) (width t)
                    (start (task t)) (end_ (task t))))
           (Some (start (task t))) (Some (end_ (task t))),
         [preventDefault; stopPropagation; onDragStart t])
  end.

(** The candidate dates of a pointer move, before the normalization to the
    start of the day; [None] is the [default: return] of the switch. *)
Definition candidateDates (opts : UseDragOptions) (state : DragState)
    (clientX : Q) : option (Date * Date) :=
  let currentDateRange := dateRange opts in
  let currentChartWidth := chartWidth opts in
  let currentViewMode := viewMode opts in
  let deltaX := (clientX - startX state)%Q in
  match mode state with
  | Some move =>
      let newX := (startTaskX state + deltaX)%Q in
      let snappedX := snapToGrid newX currentDateRange currentChartWidth currentViewMode in
      let newStart := xToDate snappedX currentDateRange currentChartWidth in
      let duration := diffInDays (originalStart state) (originalEnd state) in
      let newEnd := addDays newStart duration in
      Some (newStart, newEnd)
  | Some resize_left =>
      let newX := (startTaskX state + deltaX)%Q in
      let snappedX := snapToGrid newX currentDateRange currentChartWidth currentViewMode in
      let newStart := xToDate snappedX currentDateRange currentChartWidth in
      let newEnd := originalEnd state in
      let newStart := if newStart >=? newEnd then addDays newEnd (-1) else newStart in
      Some (newStart, newEnd)
  | Some resize_right =>
      let newWidth := (startTaskWidth state + deltaX)%Q in
      let newEndX := (startTaskX state + newWidth)%Q in
      let snappedEndX := snapToGrid newEndX currentDateRange currentChartWidth currentViewMode in
      let newStart := originalStart state in
      let newEnd := xToDate snappedEndX currentDateRange currentChartWidth in
      let newEnd := if newEnd <=? newStart then addDays newStart 1 else newEnd in
      Some (newStart, newEnd)
  | None => None
  end.

Definition handleMouseMove (opts : UseDragOptions) (h : Hook) (clientX : Q)
    : Hook * list Effect :=
  match dragState h with
  | None => (h, [])
  | Some state =>
      match candidateDates opts state clientX with
      | None => (h, [])
      | Some (newStart, newEnd) =>
          let newStart := startOfDay newStart in
          let newEnd := startOfDay newEnd in
          (mkHook (isDragging h) (Some newStart) (Some newEnd) (dragState h)
             (Some newStart) (Some newEnd),
           [onDragMove (drag_task state) newStart newEnd])
      end
  end.

Definition handleMouseUp (h : Hook) : Hook * list Effect :=
  match dragState h with
  | None => (h, [])
  | Some state =>
      let currentPreviewStart := previewStartRef h in
      let currentPreviewEnd := previewEndRef h in
      let moved :=
        match currentPreviewStart, currentPreviewEnd with
        | Some ps, Some pe =>
            negb (ps =? originalStart state) || negb (pe =? originalEnd state)
        | _, _ => false
        end in
      let isResize := isResizeMode (mode state) in
      (mkHook false None None None None None,
       [onDragEnd (drag_task state)
          (default (originalStart state) currentPreviewStart)
          (default (originalEnd state) currentPreviewEnd)
          (negb moved) isResize])
  end.

Definition handleKeyDown (h : Hook) (key : string) : Hook * list Effect :=
  if String.eqb key "Escape" then
    match dragState h with
    | None => (h, [])
    | Some state =>
        let isResize := isResizeMode (mode state) in
        (mkHook false None None None None None,
         [onDragEnd (drag_task state) (originalStart state) (originalEnd state)
            true isResize])
    end
  else (h, []).

(** The events of the listeners the effect of the hook puts on the
    document while [isDragging] holds. *)
Inductive DocumentEvent : Type :=
  | mousemove (clientX : Q)
  | mouseup
  | keydown (key : string).

Definition documentEvent (opts : UseDragOptions) (h : Hook) (ev : DocumentEvent)
    : Hook * list Effect :=
  if isDragging h then
    match ev with
    | mousemove clientX => handleMouseMove opts h clientX
    | mouseup => handleMouseUp h
    | keydown key => handleKeyDown h key
    end
  else (h, []).

(** A sequence of document events; the effects are collected in order. *)
Fixpoint documentEvents (opts : UseDragOptions) (h : Hook)
    (evs : list DocumentEvent) : Hook * list Effect :=
  match evs with
  | [] => (h, [])
  | ev :: evs' =>
      let '(h1, out1) := documentEvent opts h ev in
      let '(h2, out2) := documentEvents opts h1 evs' in
      (h2, out1 ++ out2)
  end.

(** ** components/GanttTaskBar.tsx and components/Gantt.tsx: the path of a
    pointer-down on a bar to the controller *)

(** [handleTaskDragStart] of [Gantt]. *)
Definition handleTaskDragStart (opts : UseDragOptions) (h : Hook)
    (t : ComputedTask) (clientX : Q) (m : DragMode) : Hook * list Effect :=
  if isDisabled (task t) || match type (task t) with group => true | _ => false end
  then (h, [])
  else handleMouseDown opts h t clientX (Some m).

(** [handleDragStart] of [GanttTaskBar], whose [onDragStart] is
    [handleTaskDragStart]. *)
Definition handleDragStart (opts : UseDragOptions) (h : Hook)
    (t : ComputedTask) (clientX : Q) (m : DragMode) : Hook * list Effect :=
  if isDisabled (task t) then (h, [])
  else handleTaskDragStart opts h t clientX m.

(** ** Vocabulary of the statements *)

(** A date is day-aligned when it is the local midnight of its day. *)
Definition dayAligned (d : Date) : Prop := startOfDay d = d.

(** [p] is the parent of [t] in the list: the task [t] names by
    [parentId]. *)
Definition parentOf (tasks : list GanttTask) (p t : GanttTask) : Prop :=
  p ∈ tasks /\ t ∈ tasks /\ parentId t = Some (id p).

(** [a] is an ancestor of [t]: the parent, or an ancestor of the parent. *)
Inductive ancestor (tasks : list GanttTask) : GanttTask -> GanttTask -> Prop :=
  | ancestor_parent a t : parentOf tasks a t -> ancestor tasks a t
  | ancestor_step a p t :
      ancestor tasks a p -> parentOf tasks p t -> ancestor tasks a t.

Definition acyclic (tasks : list GanttTask) : Prop :=
  forall t, ~ ancestor tasks t t.

(** The calls [addTask(t, lvl, parentVisible)] the traversal makes: one
    per root, and one per child of a task it was called on. *)
Inductive visited (tasks : list GanttTask) (collapsedIds : gset string)
    : GanttTask -> nat -> bool -> Prop :=
  | visited_root t :
      t ∈ tasks -> isRootTask tasks t = true -> visited tasks collapsedIds t 0%nat true
  | visited_child p lvl pv t :
      visited tasks collapsedIds p lvl pv ->
      t ∈ tasks -> isChildOf p t = true ->
      visited tasks collapsedIds t (lvl + 1)%nat
        (pv && negb (Set_has collapsedIds (id p))).

(** What the compiler computes for one flattened entry, but for the row
    index. *)
Definition compiledFrom (range : DateRange) (w : Q) (collapsedIds : gset string)
    (e : FlatEntry) (ct : ComputedTask) : Prop :=
  task ct = flat_task e /\ level ct = flat_level e
  /\ isVisible ct = flat_isVisible e
  /\ isCollapsed ct = Set_has collapsedIds (id (flat_task e))
  /\ x ct = dateToX (start (task ct)) range w
  /\ width ct = calculateBarWidth (start (task ct)) (end_ (task ct)) range w 4
  /\ baselineX ct
     = match baselineStart (task ct), baselineEnd (task ct) with
       | Some bs, Some _ => Some (dateToX bs range w)
       | _, _ => None
       end
  /\ baselineWidth ct
     = match baselineStart (task ct), baselineEnd (task ct) with
       | Some bs, Some be => Some (calculateBarWidth bs be range w 4)
       | _, _ => None
       end.

(** The instants the range has to span, in the words of the
    specification: every start and every baseline start that is present,
    and every end and every baseline end that is present. *)
Definition spanStarts (tasks : list GanttTask) : list Date :=
  flat_map (fun t => start t :: option_list (baselineStart t)) tasks.

Definition spanEnds (tasks : list GanttTask) : list Date :=
  flat_map (fun t => end_ t :: option_list (baselineEnd t)) tasks.

Definition isMinimumOf (m : Date) (l : list Date) : Prop :=
  m ∈ l /\ forall y, y ∈ l -> m <= y.

Definition isMaximumOf (m : Date) (l : list Date) : Prop :=
  m ∈ l /\ forall y, y ∈ l -> y <= m.

(** The local midnight the pixel position [px] snaps to. *)
Definition snappedDate (opts : UseDragOptions) (px : Q) : Date :=
  startOfDay (xToDate px (dateRange opts) (chartWidth opts)).

(** The events that end a gesture: the pointer-up and the Escape key. *)
Definition endsGesture (ev : DocumentEvent) : bool :=
  match ev with
  | mouseup => true
  | keydown key => String.eqb key "Escape"
  | mousemove _ => false
  end.

Definition isPreviewOf (t : ComputedTask) (e : Effect) : Prop :=
  exists newStart newEnd, e = onDragMove t newStart newEnd.

(** ** Example data *)

(** The zone of the examples: UTC. *)
Definition utc : Z := 0.

(** Midnight (UTC) of the [d]-th of January 2024. *)
Definition jan2024 (d : Z) : Date := 1704067200000 + (d - 1) * 86400000.

Definition noon : Z := 43200000.

(** The range from January 1 to January 31, and a chart of 10 pixels per
    day. *)
Definition january : DateRange := mkDateRange (jan2024 1) (jan2024 31) 30.

(** A range of one second. *)
Definition oneSecond : DateRange := mkDateRange 0 1000 0.

Definition dragOptions : UseDragOptions :=
  mkUseDragOptions january 300 day true true.

(** A task as the compiler positions it in [january] at width 300, in row 0. *)
Definition positioned (t : GanttTask) : ComputedTask :=
  mkComputedTask t (dateToX (start t) january 300)
    (calculateBarWidth (start t) (end_ t) january 300 4) 0 None None 0 false true.

(** Scenario B of the specification: a baseline before the current dates. *)
Definition rescheduled : GanttTask :=
  mkGanttTask "R" "Rescheduled" plain (jan2024 10) (jan2024 20)
    (Some (jan2024 1)) (Some (jan2024 5)) None false.

(** Scenario C of the specification: A, its child B, and B's child C. *)
Definition taskA : GanttTask :=
  mkGanttTask "A" "Phase A" group (jan2024 2) (jan2024 20) None None None false.
Definition taskB : GanttTask :=
  mkGanttTask "B" "Step B" group (jan2024 2) (jan2024 12)
    (Some (jan2024 1)) (Some (jan2024 9)) (Some "A") false.
Definition taskC : GanttTask :=
  mkGanttTask "C" "Item C" plain (jan2024 4) (jan2024 8) None None (Some "B") false.
Definition scenarioC : list GanttTask := [taskA; taskB; taskC].

(** What the flattener and the compiler return for Scenario C when A is
    collapsed. *)
Definition scenarioC_flat : list FlatEntry :=
  [mkFlatEntry taskA 0 true; mkFlatEntry taskB 1 false; mkFlatEntry taskC 2 false].
Definition scenarioC_computed : list ComputedTask :=
  computeRows january 300 {["A"]} scenarioC_flat 0.

(** A group whose identity is the empty string, and a task that names it
    as its parent. *)
Definition unnamed : GanttTask :=
  mkGanttTask "" "Unnamed" group (jan2024 2) (jan2024 20) None None None false.
Definition childOfUnnamed : GanttTask :=
  mkGanttTask "b" "Child" plain (jan2024 2) (jan2024 4) None None (Some "") false.

(** A task of a day and a half, and a task that ends at noon. *)
Definition dayAndAHalf : GanttTask :=
  mkGanttTask "H" "Review" plain (jan2024 10) (jan2024 11 + noon) None None None false.
Definition endsAtNoon : GanttTask :=
  mkGanttTask "N" "Delivery" plain (jan2024 10) (jan2024 12 + noon) None None None false.

(** The hook after a pointer-down at [clientX] on the bar of [t], positioned
    in [january]. *)
Definition grabbed (t : GanttTask) (clientX : Q) (m : DragMode) : Hook :=
  fst (handleMouseDown dragOptions idle (positioned t) clientX (Some m)).

(** * More of the code *)

(** ** More of the runtime: weekdays, months and years *)

(** [WeekDay]: 0 is Sunday; the first of January 1970 was a Thursday. *)
Definition WeekDay (dayNumber : Z) : Z := (dayNumber + 4) mod 7.

(** Month (0..11) and year of the day number [z], in the proleptic
    Gregorian calendar: ECMAScript's [MonthFromTime] and [YearFromTime]. *)
Definition MonthFromDay (z : Z) : Z :=
  let z := z + 719468 in
  let era := z / 146097 in
  let doe := z - era * 146097 in
  let yoe := (doe - doe / 1460 + doe / 36524 - doe / 146096) / 365 in
  let doy := doe - (365 * yoe + yoe / 4 - yoe / 100) in
  let mp := (5 * doy + 2) / 153 in
  (if mp <? 10 then mp + 3 else mp - 9) - 1.

Definition YearFromDay (z : Z) : Z :=
  let z := z + 719468 in
  let era := z / 146097 in
  let doe := z - era * 146097 in
  let yoe := (doe - doe / 1460 + doe / 36524 - doe / 146096) / 365 in
  let doy := doe - (365 * yoe + yoe / 4 - yoe / 100) in
  let mp := (5 * doy + 2) / 153 in
  yoe + era * 400 + (if mp <? 10 then 0 else 1).

(** [MakeDay(year, month, date)]: the day number of the [date]-th day
    counted from the first of the month; [month] may be outside 0..11. *)
Definition MakeDay (year month date : Z) : Z :=
  let ym := year + month / 12 in
  let mn := month mod 12 in
  let y := if mn <? 2 then ym - 1 else ym in
  let era := y / 400 in
  let yoe := y - era * 400 in
  let mp := if mn <? 2 then mn + 10 else mn - 2 in
  let doy := (153 * mp + 2) / 5 in
  let doe := yoe * 365 + yoe / 4 - yoe / 100 + doy in
  era * 146097 + doe - 719468 + (date - 1).

(** [date.getDay()], [date.getMonth()], [date.getFullYear()] *)
Definition getDay (date : Date) : Z := WeekDay (Day (LocalTime date)).
Definition getMonth (date : Date) : Z := MonthFromDay (Day (LocalTime date)).
Definition getFullYear (date : Date) : Z := YearFromDay (Day (LocalTime date)).

(** [date.setMonth(m)], as the new time value: the day of the month is
    kept, and overflows into the next month when the month is shorter. *)
Definition setMonth (date : Date) (m : Q) : Date :=
  let t := LocalTime date in
  UTC (MakeDate (MakeDay (YearFromDay (Day t)) (ToIntegerOrInfinity m)
                   (DateFromDay (Day t)))
         (TimeWithinDay t)).

(** [Math.min], [Math.abs], and the comparison [a < b] of two numbers. *)
Definition Math_min (a b : Q) : Q := Qmin a b.
Definition Math_abs (a : Q) : Q := Qabs a.
Definition Qltb (a b : Q) : bool := negb (Qle_bool b a).

(** ** utils/date.ts: weeks, months and the grid *)

Definition startOfWeek (date : Date) (firstDayOfWeek : Z) : Date :=
  let day := getDay date in
  let diff := (if day <? firstDayOfWeek then 7 else 0) + day - firstDayOfWeek in
  let result := setDate date (inject_Z (getDate date - diff)) in
  setHours result 0 0 0 0.

Definition startOfMonth (date : Date) : Date :=
  setHours (setDate date 1) 0 0 0 0.

Definition endOfMonth (date : Date) : Date :=
  let result := setMonth date (inject_Z (getMonth date + 1)) in
  let result := setDate result 0 in
  setHours result 23 59 59 999.

Definition addWeeks (date : Date) (weeks : Q) : Date :=
  addDays date (weeks * 7)%Q.

Definition addMonths (date : Date) (months : Q) : Date :=
  setMonth date (inject_Z (getMonth date) + months)%Q.

Definition isWeekend (date : Date) : bool :=
  let day := getDay date in
  (day =? 0) || (day =? 6).

Definition isSameDay (date1 date2 : Date) : bool :=
  (getFullYear date1 =? getFullYear date2)
  && (getMonth date1 =? getMonth date2)
  && (getDate date1 =? getDate date2).

(** The [while (current <= dateRange.end)] loops of [generateDateGrid]:
    [next] is the step, [fuel] bounds the number of rounds, and [None]
    stands for a loop that does not end. *)
Fixpoint gridLoop (fuel : nat) (next : Date -> Date) (end_ : Date)
    (current : Date) (dates : list Date) : option (list Date) :=
  match fuel with
  | O => None
  | S fuel' =>
      if current <=? end_
      then gridLoop fuel' next end_ (next current) (dates ++ [current])
      else Some dates
  end.

Definition generateDateGrid (fuel : nat) (dateRange : DateRange)
    (viewMode : ViewMode) (firstDayOfWeek : Z) : option (list Date) :=
  let current := range_start dateRange in
  match viewMode with
  | day =>
      gridLoop fuel (fun c => addDays c 1) (range_end dateRange) current []
  | week =>
      let current := startOfWeek current firstDayOfWeek in
      gridLoop fuel (fun c => addWeeks c 1) (range_end dateRange) current []
  | month =>
      let current := startOfMonth current in
      gridLoop fuel (fun c => addMonths c 1) (range_end dateRange) current []
  end.

Definition getColumnWidth (viewMode : ViewMode) : Q :=
  match viewMode with
  | day => 40
  | week => 120
  | month => 180
  end.

Definition getViewModeUnit (viewMode : ViewMode) : Q :=
  match viewMode with
  | day => 1
  | week => 7
  | month => 30
  end.

(** ** utils/position.ts: chart width, bar geometry and hit tests *)

Definition calculateChartWidth (dateRange : DateRange) (viewMode : ViewMode) : Q :=
  let columnWidth := getColumnWidth viewMode in
  match viewMode with
  | day => (totalDays dateRange * columnWidth)%Q
  | week => (inject_Z (Math_ceil (totalDays dateRange / 7)) * columnWidth)%Q
  | month => (inject_Z (Math_ceil (totalDays dateRange / 30)) * columnWidth)%Q
  end.

Definition getRowY (rowIndex : Q) (rowHeight : Q) : Q := (rowIndex * rowHeight)%Q.

Definition getTaskBarY (rowIndex rowHeight barHeight : Q) : Q :=
  let centerY := (rowIndex * rowHeight + (rowHeight - barHeight) / 2)%Q in
  (centerY - 4)%Q.

Definition getBaselineBarY (rowIndex rowHeight taskBarHeight _baselineBarHeight : Q)
    (gap : Q) : Q :=
  let taskBarY := getTaskBarY rowIndex rowHeight taskBarHeight in
  (taskBarY + taskBarHeight + gap)%Q.

Record Bar : Type := mkBar {
  bar_height : Q;
  bar_y : Q;
  cornerRadius : Q
}.

(** [BarDimensions]; the progress bar has no corner radius of its own. *)
Record BarDimensions : Type := mkBarDimensions {
  taskBar : Bar;
  baselineBar : Bar;
  progressBar : Q * Q
}.

Definition getBarDimensions (rowIndex rowHeight : Q) : BarDimensions :=
  let taskBarHeight := Math_min (rowHeight * (45 # 100)) 20 in
  let baselineBarHeight := Math_min (rowHeight * (2 # 10)) 8 in
  mkBarDimensions
    (mkBar taskBarHeight (getTaskBarY rowIndex rowHeight taskBarHeight) 3)
    (mkBar baselineBarHeight
       (getBaselineBarY rowIndex rowHeight taskBarHeight baselineBarHeight 2) 2)
    (taskBarHeight, getTaskBarY rowIndex rowHeight taskBarHeight).

Definition isPointInTaskBar (px py : Q) (t : ComputedTask) (rowHeight : Q) : bool :=
  let dims := getBarDimensions (inject_Z (rowIndex t)) rowHeight in
  Qle_bool (x t) px
  && Qle_bool px (x t + width t)
  && Qle_bool (bar_y (taskBar dims)) py
  && Qle_bool py (bar_y (taskBar dims) + bar_height (taskBar dims)).

Definition isOnLeftEdge (px : Q) (t : ComputedTask) (threshold : Q) : bool :=
  Qle_bool (x t) px && Qle_bool px (x t + threshold).

Definition isOnRightEdge (px : Q) (t : ComputedTask) (threshold : Q) : bool :=
  let rightEdge := (x t + width t)%Q in
  Qle_bool (rightEdge - threshold) px && Qle_bool px rightEdge.

(** ['ew-resize' | 'move' | 'pointer'] *)
Inductive CursorStyle : Type := ew_resize | cursor_move | pointer.

Definition getCursorStyle (px : Q) (t : ComputedTask) (allowResize : bool)
    : CursorStyle :=
  if negb allowResize then pointer
  else if isOnLeftEdge px t 8 || isOnRightEdge px t 8 then ew_resize
  else cursor_move.

(** ** hooks/useDrag.ts: the geometry of the preview *)


Definition getDragPreviewWidth (opts : UseDragOptions) (h : Hook) : option Q :=
  match previewStart h, previewEnd h with
  | Some ps, Some pe =>
      let startX := dateToX ps (dateRange opts) (chartWidth opts) in
      let endX := dateToX pe (dateRange opts) (chartWidth opts) in
      Some (endX - startX)%Q
  | _, _ => None
  end.

(** ** components/Gantt.tsx: what reaches the host *)

(** The callbacks of the host the chart calls. *)
Inductive HostEvent : Type :=
  | onTaskDateChange (t : ComputedTask) (newStart newEnd : Date) (isResize : bool)
  | onGroupToggle (taskId : string) (isExpanded : bool).

(** The [onDragEnd] the chart passes to [useDrag]; it passes no
    [onDragStart] and no [onDragMove].  The host is taken to have given an
    [onTaskDateChange]; without one nothing is called. *)
Definition Gantt_onDragEnd (e : Effect) : list HostEvent :=
  match e with
  | onDragEnd t newStart newEnd cancelled isResize =>
      if negb cancelled then [onTaskDateChange t newStart newEnd isResize] else []
  | _ => []
  end.

Definition Gantt_hostEvents (effects : list Effect) : list HostEvent :=
  flat_map Gantt_onDragEnd effects.

(** [handleGroupToggle]: the new set of collapsed identities and the call
    of [onGroupToggle].  The state the updater gets ([prev]) is the state
    of the render the callback closes over ([collapsedIds]): one toggle
    per render. *)
Definition handleGroupToggle (collapsedIds : gset string) (taskId : string)
    : gset string * list HostEvent :=
  let next :=
    if Set_has collapsedIds taskId
    then collapsedIds ∖ {[taskId]}
    else collapsedIds ∪ {[taskId]} in
  (next, [onGroupToggle taskId (negb (Set_has collapsedIds taskId))]).

(** [visibleTasks] *)
Definition visibleTasks (computedTasks : list ComputedTask) : list ComputedTask :=
  List.filter isVisible computedTasks.

(** ** components/GanttDependencies.tsx: the arrows *)

Inductive DependencyType : Type :=
  | finish_to_start
  | start_to_start
  | finish_to_finish
  | start_to_finish.

Record GanttDependency : Type := mkGanttDependency {
  fromId : string;
  toId : string;
  dep_type : DependencyType
}.

(** An SVG path [M x y L x y ...] as the list of its points. *)
Definition Path : Type := list (Q * Q).

Definition generateArrowPath (fromX fromY toX toY : Q) (ty : DependencyType)
    (rowHeight : Q) : Path :=
  let horizontalGap : Q := 12%Q in
  let verticalOffset := (rowHeight / 2 + 4)%Q in
  if Qltb (Math_abs (fromY - toY)) 5 && Qltb (fromX + horizontalGap) toX
  then [(fromX, fromY); (toX, toY)]
  else
    match ty with
    | finish_to_start | start_to_start =>
        if Qltb (fromX + horizontalGap) toX then
          let midX := (fromX + (toX - fromX) / 2)%Q in
          [(fromX, fromY); (midX, fromY); (midX, toY); (toX, toY)]
        else
          let goBelow := Qle_bool fromY toY in
          let routeY :=
            if goBelow then (Math_max fromY toY + verticalOffset)%Q
            else (Math_min fromY toY - verticalOffset)%Q in
          [(fromX, fromY); ((fromX + horizontalGap)%Q, fromY);
           ((fromX + horizontalGap)%Q, routeY); ((toX - horizontalGap)%Q, routeY);
           ((toX - horizontalGap)%Q, toY); (toX, toY)]
    | finish_to_finish =>
        let maxX := (Math_max fromX toX + horizontalGap)%Q in
        [(fromX, fromY); (maxX, fromY); (maxX, toY); (toX, toY)]
    | start_to_finish =>
        if Qltb fromX (toX - horizontalGap) then
          let midX := (fromX + (toX - fromX) / 2)%Q in
          [(fromX, fromY); (midX, fromY); (midX, toY); (toX, toY)]
        else
          let goBelow := Qle_bool fromY toY in
          let routeY :=
            if goBelow then (Math_max fromY toY + verticalOffset)%Q
            else (Math_min fromY toY - verticalOffset)%Q in
          [(fromX, fromY); ((fromX - horizontalGap)%Q, fromY);
           ((fromX - horizontalGap)%Q, routeY); ((toX + horizontalGap)%Q, routeY);
           ((toX + horizontalGap)%Q, toY); (toX, toY)]
    end.

(** The two ends of an arrow, by the type of the dependency. *)
Definition connectionPoints (fromTask toTask : ComputedTask)
    (ty : DependencyType) (rowHeight : Q) : (Q * Q) * (Q * Q) :=
  let fromDims := getBarDimensions (inject_Z (rowIndex fromTask)) rowHeight in
  let toDims := getBarDimensions (inject_Z (rowIndex toTask)) rowHeight in
  let fromMidY := (bar_y (taskBar fromDims) + bar_height (taskBar fromDims) / 2)%Q in
  let toMidY := (bar_y (taskBar toDims) + bar_height (taskBar toDims) / 2)%Q in
  match ty with
  | finish_to_start =>
      (((x fromTask + width fromTask)%Q, fromMidY), ((x toTask - 4)%Q, toMidY))
  | start_to_start =>
      ((x fromTask, fromMidY), ((x toTask - 4)%Q, toMidY))
  | finish_to_finish =>
      (((x fromTask + width fromTask)%Q, fromMidY),
       ((x toTask + width toTask + 4)%Q, toMidY))
  | start_to_finish =>
      ((x fromTask, fromMidY), ((x toTask + width toTask + 4)%Q, toMidY))
  end.

Definition calculateDependencyPath (fromTask toTask : ComputedTask)
    (ty : DependencyType) (rowHeight : Q) : Path :=
  let '((fromX, fromY), (toX, toY)) :=
    connectionPoints fromTask toTask ty rowHeight in
  generateArrowPath fromX fromY toX toY ty rowHeight.

Record Arrow : Type := mkArrow {
  arrow_id : string;
  arrow_path : Path;
  arrow_type : DependencyType
}.

(** [new Map(tasks.map((t) => [t.id, t]))] on computed tasks. *)
Definition Map_of_computed (tasks : list ComputedTask) : gmap string ComputedTask :=
  foldl (fun m t => <[id (task t) := t]> m) ∅ tasks.

(** The body of [dependencies.map]: [None] is the [null] the filter drops. *)
Definition arrowOf (taskMap : gmap string ComputedTask) (rowHeight : Q)
    (dep : GanttDependency) : option Arrow :=
  match taskMap !! fromId dep, taskMap !! toId dep with
  | Some fromTask, Some toTask =>
      if negb (isVisible fromTask) || negb (isVisible toTask) then None
      else Some (mkArrow (fromId dep ++ "-" ++ toId dep)
                   (calculateDependencyPath fromTask toTask (dep_type dep) rowHeight)
                   (dep_type dep))
  | _, _ => None
  end.

Definition arrows (tasks : list ComputedTask) (dependencies : list GanttDependency)
    (rowHeight : Q) : list Arrow :=
  let taskMap := Map_of_computed tasks in
  omap (arrowOf taskMap rowHeight) dependencies.

(** ** components/GanttTooltip.tsx: where the tooltip is put *)

(** The position the effect computes from the pointer, the size of the
    tooltip and the size of the container. *)
Definition tooltipPosition (mouseX mouseY tooltipWidth tooltipHeight
    containerWidth containerHeight : Q) : Q * Q :=
  let x := (mouseX + 12)%Q in
  let y := (mouseY + 12)%Q in
  let x := if Qltb containerWidth (x + tooltipWidth)
           then (mouseX - tooltipWidth - 12)%Q else x in
  let y := if Qltb containerHeight (y + tooltipHeight)
           then (mouseY - tooltipHeight - 12)%Q else y in
  let x := Math_max 8 (Math_min x (containerWidth - tooltipWidth - 8)) in
  let y := Math_max 8 (Math_min y (containerHeight - tooltipHeight - 8)) in
  (x, y).

(** * The coordinate engine on the numbers of the runtime

    The numbers of the runtime are IEEE 754 binary64 values.  These are
    the functions of the coordinate engine once more, operation by
    operation, on such numbers; a [Date] that is invalid (its time value
    is [NaN]) is [None]. *)

(** The number of an integer: the nearest binary64 value, ties to even.
    It is exact below [2^53], so for every time value. *)
Definition Number_of_Z (z : Z) : float :=
  let a := Z.abs z in
  let e := Z.max 0 (Z.log2 a - 52) in
  let q := a / 2 ^ e in
  let r := a mod 2 ^ e in
  let m := if 2 * r <? 2 ^ e then q
           else if 2 ^ e <? 2 * r then q + 1
           else if Z.even q then q else q + 1 in
  let f := Z.ldexp (PrimFloat.of_uint63 (Uint63.of_Z m)) e in
  if z <? 0 then (- f)%float else f.

(** [ToIntegerOrInfinity] of a finite number: truncation toward zero;
    [None] for [NaN] and the infinities. *)
Definition ToInteger64 (v : float) : option Z :=
  match Prim2SF v with
  | S754_zero _ => Some 0
  | S754_finite s m e =>
      let magnitude := if 0 <=? e then Z.pos m * 2 ^ e else Z.pos m / 2 ^ (- e) in
      Some (if s then - magnitude else magnitude)
  | S754_infinity _ | S754_nan => None
  end.

(** [new Date(value)]: [TimeClip] makes the date invalid when the value is
    not finite or beyond 8.64e15 milliseconds, and truncates it
    otherwise. *)
Definition newDate64 (v : float) : option Date :=
  match ToInteger64 v with
  | Some t =>
      if PrimFloat.leb (PrimFloat.abs v) 8640000000000000 then Some t else None
  | None => None
  end.

(** [date.getTime()] *)
Definition getTime64 (date : option Date) : float :=
  match date with
  | Some t => Number_of_Z t
  | None => nan
  end.

(** [Math.max] of two numbers: [NaN] when one of them is, and [+0] for
    the two zeros. *)
Definition Math_max64 (a b : float) : float :=
  if PrimFloat.is_nan a || PrimFloat.is_nan b then nan
  else if PrimFloat.ltb a b then b
  else if PrimFloat.ltb b a then a
  else if PrimFloat.eqb a 0 then (a + b)%float
  else a.

Definition dateToX64 (date : option Date) (dateRange : DateRange)
    (chartWidth : float) : float :=
  let totalMs := (getTime64 (Some (range_end dateRange))
                  - getTime64 (Some (range_start dateRange)))%float in
  let dateMs := (getTime64 date - getTime64 (Some (range_start dateRange)))%float in
  ((dateMs / totalMs) * chartWidth)%float.

Definition xToDate64 (x : float) (dateRange : DateRange) (chartWidth : float)
    : option Date :=
  let totalMs := (getTime64 (Some (range_end dateRange))
                  - getTime64 (Some (range_start dateRange)))%float in
  let dateMs := ((x / chartWidth) * totalMs)%float in
  newDate64 (getTime64 (Some (range_start dateRange)) + dateMs)%float.

Definition calculateBarWidth64 (start end_ : option Date) (dateRange : DateRange)
    (chartWidth : float) (minWidth : float) : float :=
  let startX := dateToX64 start dateRange chartWidth in
  let endX := dateToX64 end_ dateRange chartWidth in
  Math_max64 (endX - startX)%float minWidth.

(** [startOfDay] leaves an invalid date invalid. *)
Definition snapToGrid64 (x : float) (dateRange : DateRange) (chartWidth : float)
    (viewMode : ViewMode) : float :=
  let date := xToDate64 x dateRange chartWidth in
  let snappedDate :=
    match viewMode with
    | day => startOfDay <$> date
    | week => startOfDay <$> date
    | month => startOfDay <$> date
    end in
  dateToX64 snappedDate dateRange chartWidth.

(** ** Vocabulary of the further statements *)

(** Two entries for the same task at the same level, whose visibilities
    are related by [Rv]. *)
Definition sameEntry (Rv : bool -> bool -> Prop) (e e' : FlatEntry) : Prop :=
  flat_task e = flat_task e' /\ flat_level e = flat_level e'
  /\ Rv (flat_isVisible e) (flat_isVisible e').

(** [u] is [a] or below [a] in the hierarchy. *)
Definition under (tasks : list GanttTask) (a u : GanttTask) : Prop :=
  u = a \/ ancestor tasks a u.

(** The dates of the last preview among the effects, or [d] when there is
    none. *)
Definition lastPreview (d : Date * Date) (effects : list Effect) : Date * Date :=
  foldl (fun acc e =>
           match e with
           | onDragMove _ newStart newEnd => (newStart, newEnd)
           | _ => acc
           end) d effects.

(** A preview for [t] whose two dates are local midnights. *)
Definition alignedPreviewOf (t : ComputedTask) (e : Effect) : Prop :=
  exists newStart newEnd,
    e = onDragMove t newStart newEnd /\ dayAligned newStart /\ dayAligned newEnd.

(** A segment along one of the two axes. *)
Definition axisParallel (p q : Q * Q) : Prop :=
  (fst p == fst q)%Q \/ (snd p == snd q)%Q.

(** A path all of whose segments are along an axis. *)
Fixpoint rectilinear (path : Path) : Prop :=
  match path with
  | p :: (q :: _) as rest => axisParallel p q /\ rectilinear rest
  | _ => True
  end.

(** ** Further example data *)

(** A task as the compiler positions it in [january] at width 300, in the
    given row. *)
Definition inRow (t : GanttTask) (row : Z) : ComputedTask :=
  mkComputedTask t (dateToX (start t) january 300)
    (calculateBarWidth (start t) (end_ t) january 300 4) row None None 0 false true.

(** What the compiler returns for Scenario C when nothing is collapsed. *)
Definition scenarioC_expanded : list ComputedTask :=
  computeRows january 300 ∅
    [mkFlatEntry taskA 0 true; mkFlatEntry taskB 1 true; mkFlatEntry taskC 2 true] 0.

(** C after B, and a dependency on a task that is not in the chart. *)
Definition cAfterB : GanttDependency := mkGanttDependency "B" "C" finish_to_start.
Definition danglingDependency : GanttDependency :=
  mkGanttDependency "B" "Z" finish_to_start.

(** Midnight (UTC) of the [d]-th of January 1970, and the range from
    January 1 to January 31 of that year: it starts at the epoch. *)
Definition jan1970 (d : Z) : Date := (d - 1) * 86400000.
Definition january1970 : DateRange := mkDateRange (jan1970 1) (jan1970 31) 30.

(** A range that ends when it starts. *)
Definition emptyRange : DateRange := mkDateRange (jan2024 1) (jan2024 1) 0.

(** A task from 18:00 to 18:00 two days later. *)
Definition eveningTask : GanttTask :=
  mkGanttTask "E" "Evening" plain (jan2024 10 + 64800000) (jan2024 12 + 64800000)
    None None None false.

(** A task whose baseline ended before the task starts, and a task that
    ends before it starts. *)
Definition earlyBaselineEnd : GanttTask :=
  mkGanttTask "L" "Late start" plain (jan2024 10) (jan2024 20)
    None (Some (jan2024 1)) None false.
Definition inverted : GanttTask :=
  mkGanttTask "I" "Inverted" plain (jan2024 20) (jan2024 10) None None None false.

(** * Theorems *)

(** ** Facts about the runtime model *)

Lemma ToIntegerOrInfinity_inject_Z (z : Z) : ToIntegerOrInfinity (inject_Z z) = z.
Proof. unfold ToIntegerOrInfinity; simpl. apply Z.quot_1_r. Qed.

Lemma ToIntegerOrInfinity_Qeq (p q : Q) :
  (p == q)%Q -> ToIntegerOrInfinity p = ToIntegerOrInfinity q.
Proof.
  unfold Qeq, ToIntegerOrInfinity. destruct p as [a b], q as [c d]; simpl.
  intros E.
  rewrite <- (Z.quot_mul_cancel_r a (Z.pos b) (Z.pos d)) by lia.
  rewrite <- (Z.quot_mul_cancel_r c (Z.pos d) (Z.pos b)) by lia.
  rewrite E. f_equal. lia.
Qed.

Lemma newDate_exact (q : Q) (z : Z) : (q == inject_Z z)%Q -> newDate q = z.
Proof.
  intros E. unfold newDate.
  rewrite (ToIntegerOrInfinity_Qeq _ _ E). apply ToIntegerOrInfinity_inject_Z.
Qed.

Lemma xToDate_dateToX_any (d : Date) (r : DateRange) (w : Q) :
  range_start r <> range_end r -> ~ (w == 0)%Q ->
  xToDate (dateToX d r w) r w = d.
Proof.
  intros Hr Hw. unfold xToDate, dateToX. apply newDate_exact.
  assert (Ht : ~ (inject_Z (range_end r - range_start r) == 0)%Q).
  { change 0%Q with (inject_Z 0). rewrite inject_Z_injective. lia. }
  unfold Z.sub in *. rewrite !inject_Z_plus, !inject_Z_opp in *.
  field. split; assumption.
Qed.

(** The other direction holds on the pixels of whole milliseconds: a
    [Date] has no fraction of a millisecond, so xToDate truncates. *)
Lemma dateToX_xToDate_on_pixels (x : Q) (d : Date) (r : DateRange) (w : Q) :
  range_start r <> range_end r -> ~ (w == 0)%Q ->
  (x == dateToX d r w)%Q ->
  (dateToX (xToDate x r w) r w == x)%Q.
Proof.
  intros Hr Hw Hx.
  assert (E : xToDate x r w = d).
  { unfold xToDate. apply newDate_exact. rewrite Hx. unfold dateToX.
    assert (Ht : ~ (inject_Z (range_end r - range_start r) == 0)%Q).
    { change 0%Q with (inject_Z 0). rewrite inject_Z_injective. lia. }
    unfold Z.sub in *. rewrite !inject_Z_plus, !inject_Z_opp in *.
    field. split; assumption. }
  rewrite E. symmetry. exact Hx.
Qed.

Lemma MS_PER_DAY_msPerDay : MS_PER_DAY = msPerDay.
Proof. reflexivity. Qed.

Lemma DateFromDay_pos (z : Z) : 1 <= DateFromDay z.
Proof.
  unfold DateFromDay. cbv zeta.
  set (doy := _ - (365 * _ + _ - _)). clearbody doy.
  pose proof (Z.div_mod (5 * doy + 2) 153 ltac:(lia)).
  pose proof (Z.mod_pos_bound (5 * doy + 2) 153 ltac:(lia)).
  pose proof (Z.div_mod (153 * ((5 * doy + 2) / 153) + 2) 5 ltac:(lia)).
  pose proof (Z.mod_pos_bound (153 * ((5 * doy + 2) / 153) + 2) 5 ltac:(lia)).
  lia.
Qed.

Lemma startOfDay_eq (d : Date) :
  startOfDay d = (d + tz) / msPerDay * msPerDay - tz.
Proof.
  unfold startOfDay, setHours, UTC, MakeDate, MakeTime, Day, LocalTime. lia.
Qed.

Lemma endOfDay_eq (d : Date) : endOfDay d = startOfDay d + (msPerDay - 1).
Proof.
  unfold endOfDay, startOfDay, setHours, UTC, MakeDate, MakeTime, msPerDay. lia.
Qed.

Lemma startOfDay_le (d : Date) : startOfDay d <= d < startOfDay d + msPerDay.
Proof.
  rewrite startOfDay_eq. unfold msPerDay.
  pose proof (Z.div_mod (d + tz) 86400000 ltac:(lia)).
  pose proof (Z.mod_pos_bound (d + tz) 86400000 ltac:(lia)). lia.
Qed.

Lemma startOfDay_shift (d : Date) (k : Z) :
  startOfDay (d + k * msPerDay) = startOfDay d + k * msPerDay.
Proof.
  rewrite !startOfDay_eq.
  replace (d + k * msPerDay + tz) with (d + tz + k * msPerDay) by lia.
  rewrite Z.div_add by (unfold msPerDay; lia). lia.
Qed.

Lemma startOfDay_idempotent (d : Date) : startOfDay (startOfDay d) = startOfDay d.
Proof.
  rewrite (startOfDay_eq (startOfDay d)), (startOfDay_eq d).
  replace ((d + tz) / msPerDay * msPerDay - tz + tz)
    with ((d + tz) / msPerDay * msPerDay) by lia.
  rewrite Z.div_mul by (unfold msPerDay; lia). reflexivity.
Qed.

Lemma startOfDay_aligned (d : Date) : dayAligned (startOfDay d).
Proof. apply startOfDay_idempotent. Qed.

Lemma setDate_eq (d : Date) (dt : Q) :
  setDate d dt = d + (ToIntegerOrInfinity dt - getDate d) * msPerDay.
Proof.
  unfold setDate, getDate, UTC, MakeDate, TimeWithinDay, Day, LocalTime.
  pose proof (Z.div_mod (d + tz) msPerDay ltac:(unfold msPerDay; lia)). lia.
Qed.

Lemma ToIntegerOrInfinity_nonneg (q : Q) :
  (0 <= q)%Q -> ToIntegerOrInfinity q = Qfloor q.
Proof.
  destruct q as [n p]. unfold Qle, ToIntegerOrInfinity, Qfloor; simpl.
  intros Hn. apply Z.quot_div_nonneg; lia.
Qed.

Lemma Qfloor_add_Z (k : Z) (q : Q) : Qfloor (inject_Z k + q) = k + Qfloor q.
Proof.
  destruct q as [n p]. unfold Qfloor, Qplus, inject_Z; simpl.
  rewrite Pos.mul_1_l.
  replace (k * Z.pos p + n * 1) with (n + k * Z.pos p) by lia.
  rewrite Z.div_add by lia. lia.
Qed.

Lemma addDays_eq (d : Date) (days : Q) :
  addDays d days
  = d + (ToIntegerOrInfinity (inject_Z (getDate d) + days) - getDate d) * msPerDay.
Proof. unfold addDays. apply setDate_eq. Qed.

(** A whole number of days moves the date by that many days. *)
Lemma addDays_integral (d : Date) (days : Q) (k : Z) :
  (days == inject_Z k)%Q -> addDays d days = d + k * msPerDay.
Proof.
  intros E. rewrite addDays_eq.
  assert (E' : (inject_Z (getDate d) + days == inject_Z (getDate d + k))%Q).
  { rewrite E, inject_Z_plus. reflexivity. }
  rewrite (ToIntegerOrInfinity_Qeq _ _ E'), ToIntegerOrInfinity_inject_Z.
  f_equal. lia.
Qed.

(** A non-negative number of days is rounded down to whole days, because
    [setDate] truncates its argument. *)
Lemma addDays_nonneg (d : Date) (days : Q) :
  (0 <= days)%Q -> addDays d days = d + Qfloor days * msPerDay.
Proof.
  intros Hd. rewrite addDays_eq.
  pose proof (DateFromDay_pos (Day (LocalTime d))) as Hg. fold (getDate d) in Hg.
  rewrite ToIntegerOrInfinity_nonneg, Qfloor_add_Z.
  - f_equal. lia.
  - apply Qle_trans with (inject_Z (getDate d) + 0)%Q.
    + rewrite Qplus_0_r. change 0%Q with (inject_Z 0). rewrite <- Zle_Qle. lia.
    + apply Qplus_le_r. exact Hd.
Qed.

Lemma diffInDays_floor (a b : Date) :
  Qfloor (diffInDays a b) = (b - a) / MS_PER_DAY.
Proof. unfold diffInDays, MS_PER_DAY, Qdiv, Qfloor, Qmult, inject_Z; simpl. 
  rewrite Z.mul_1_r. reflexivity.
Qed.

Lemma diffInDays_nonneg (a b : Date) : a <= b -> (0 <= diffInDays a b)%Q.
Proof.
  intros H. unfold diffInDays, MS_PER_DAY, Qdiv, Qle, Qmult, inject_Z; simpl. lia.
Qed.

Lemma diffInDays_integral (a b : Date) (k : Z) :
  b - a = k * MS_PER_DAY -> (diffInDays a b == inject_Z k)%Q.
Proof.
  intros H. unfold diffInDays. rewrite H, inject_Z_mult. field.
  unfold MS_PER_DAY. discriminate.
Qed.

(** The date a pixel position snaps to. *)
Lemma xToDate_snapToGrid (x : Q) (r : DateRange) (w : Q) (m : ViewMode) :
  range_start r <> range_end r -> ~ (w == 0)%Q ->
  xToDate (snapToGrid x r w m) r w = startOfDay (xToDate x r w).
Proof.
  intros Hr Hw. unfold snapToGrid.
  destruct m; apply xToDate_dateToX_any; assumption.
Qed.

Lemma Qpos_nonzero (w : Q) : (0 < w)%Q -> ~ (w == 0)%Q.
Proof. intros Hw E. rewrite E in Hw. discriminate. Qed.

(** C1, on exact numbers.  For a range with [start < end] and a width
    [w > 0], converting a date to a pixel position and back yields the
    date again; this holds for every date, in particular for the dates of
    the range.  The other way round, a pixel position comes back exactly
    when it is the position of a date, that is of a whole millisecond:
    [new Date] truncates.  On the numbers of the runtime the way back can
    be one millisecond short of the date. *)
Theorem xToDate_dateToX_roundtrip (d : Date) (r : DateRange) (w : Q) :
  range_start r < range_end r -> (0 < w)%Q ->
  range_start r <= d <= range_end r ->
  xToDate (dateToX d r w) r w = d
  /\ forall x : Q,
       (dateToX (xToDate x r w) r w == x)%Q <-> exists d', (x == dateToX d' r w)%Q.
Proof.
  intros Hr Hw _.
  assert (Hw' : ~ (w == 0)%Q) by (intros E; rewrite E in Hw; discriminate).
  split; [apply xToDate_dateToX_any; [lia | exact Hw'] |].
  intros x. split.
  - intros E. exists (xToDate x r w). symmetry. exact E.
  - intros [d' E]. apply (dateToX_xToDate_on_pixels x d' r w); [lia | exact Hw' | exact E].
Qed.


(** *** The pointer-move of each gesture *)

Section PointerMove.

Variable opts : UseDragOptions.
Hypothesis range_ok : range_start (dateRange opts) < range_end (dateRange opts).
Hypothesis width_ok : (0 < chartWidth opts)%Q.

Lemma snapped_xToDate (px : Q) :
  xToDate (snapToGrid px (dateRange opts) (chartWidth opts) (viewMode opts))
    (dateRange opts) (chartWidth opts) = snappedDate opts px.
Proof. apply xToDate_snapToGrid; [lia | apply Qpos_nonzero, width_ok]. Qed.


Lemma candidateDates_resize_left (st : DragState) (clientX : Q) :
  mode st = Some resize_left ->
  candidateDates opts st clientX
  = Some (let c := snappedDate opts (startTaskX st + (clientX - startX st)) in
          if c >=? originalEnd st then originalEnd st - msPerDay else c,
          originalEnd st).
Proof.
  intros Hm. unfold candidateDates. rewrite Hm. cbv zeta.
  rewrite snapped_xToDate.
  rewrite (addDays_integral _ (-1) (-1)) by reflexivity.
  repeat f_equal; lia.
Qed.


End PointerMove.

Lemma handleMouseMove_reports (opts : UseDragOptions) (h : Hook)
    (st : DragState) (clientX : Q) (newStart newEnd : Date) :
  dragState h = Some st ->
  candidateDates opts st clientX = Some (newStart, newEnd) ->
  handleMouseMove opts h clientX
  = (mkHook (isDragging h) (Some (startOfDay newStart)) (Some (startOfDay newEnd))
       (Some st) (Some (startOfDay newStart)) (Some (startOfDay newEnd)),
     [onDragMove (drag_task st) (startOfDay newStart) (startOfDay newEnd)]).
Proof. intros Hs Hc. unfold handleMouseMove. rewrite Hs, Hc. reflexivity. Qed.


(** *** Resizing (C6): what the clamps guarantee *)

(** A resize-left reports [startOfDay end] as the end; when the snapped
    candidate is not before the original end, the reported start is one
    day before the reported end. *)
Lemma resize_left_clamped (opts : UseDragOptions) (h : Hook)
    (st : DragState) (clientX : Q) :
  range_start (dateRange opts) < range_end (dateRange opts) ->
  (0 < chartWidth opts)%Q ->
  dragState h = Some st -> mode st = Some resize_left ->
  originalEnd st <= snappedDate opts (startTaskX st + (clientX - startX st)) ->
  snd (handleMouseMove opts h clientX)
  = [onDragMove (drag_task st) (startOfDay (originalEnd st) - msPerDay)
       (startOfDay (originalEnd st))].
Proof.
  intros Hr Hw Hs Hm Hc.
  rewrite (handleMouseMove_reports opts h st clientX _ _ Hs
             (candidateDates_resize_left opts Hr Hw st clientX Hm)).
  cbv zeta. simpl.
  destruct (Z.geb_spec (snappedDate opts (startTaskX st + (clientX - startX st)))
              (originalEnd st)) as [_ | Hlt]; [| lia].
  replace (originalEnd st - msPerDay) with (originalEnd st + (-1) * msPerDay) by lia.
  rewrite startOfDay_shift. repeat f_equal; lia.
Qed.



(** *** Cancelling and rejecting a gesture (C8, C9) *)

(** Events that do not end the gesture leave the session record alone and
    only report previews. *)
Lemma documentEvents_keep_session (opts : UseDragOptions) (st : DragState)
    (evs : list DocumentEvent) :
  forallb (fun ev => negb (endsGesture ev)) evs = true ->
  forall h, isDragging h = true -> dragState h = Some st ->
  exists h' previews,
    documentEvents opts h evs = (h', previews)
    /\ isDragging h' = true /\ dragState h' = Some st
    /\ Forall (isPreviewOf (drag_task st)) previews.
Proof.
  induction evs as [| ev evs IH]; intros Hev h Hd Hs.
  - exists h, []. repeat split; auto.
  - simpl in Hev. apply andb_prop in Hev as [Hev1 Hev2].
    assert (Hstep : exists h1 out1,
               documentEvent opts h ev = (h1, out1)
               /\ isDragging h1 = true /\ dragState h1 = Some st
               /\ Forall (isPreviewOf (drag_task st)) out1).
    { unfold documentEvent. rewrite Hd. destruct ev as [cx | | key]; simpl in Hev1.
      - unfold handleMouseMove. rewrite Hs.
        destruct (candidateDates opts st cx) as [[s e] |].
        + eexists _, _. split; [reflexivity |]. simpl. repeat split; auto.
          constructor; [| constructor]. eexists _, _. reflexivity.
        + exists h, []. repeat split; auto.
      - discriminate.
      - unfold handleKeyDown. destruct (String.eqb key "Escape"); [discriminate |].
        exists h, []. repeat split; auto. }
    destruct Hstep as (h1 & out1 & E1 & Hd1 & Hs1 & Hp1).
    destruct (IH Hev2 h1 Hd1 Hs1) as (h2 & out2 & E2 & Hd2 & Hs2 & Hp2).
    exists h2, (out1 ++ out2). simpl. rewrite E1, E2.
    repeat split; auto. apply Forall_app; auto.
Qed.

Lemma documentEvents_app (opts : UseDragOptions) (evs1 evs2 : list DocumentEvent)
    (h : Hook) :
  documentEvents opts h (evs1 ++ evs2)
  = let '(h1, out1) := documentEvents opts h evs1 in
    let '(h2, out2) := documentEvents opts h1 evs2 in
    (h2, out1 ++ out2).
Proof.
  revert h. induction evs1 as [| ev evs1 IH]; intros h; simpl.
  - destruct (documentEvents opts h evs2). reflexivity.
  - destruct (documentEvent opts h ev) as [h1 out1]. rewrite IH.
    destruct (documentEvents opts h1 evs1) as [h2 out2].
    destruct (documentEvents opts h2 evs2) as [h3 out3].
    rewrite app_assoc. reflexivity.
Qed.

(** Escape in any state with an active session. *)
Lemma escape_in_session (opts : UseDragOptions) (h : Hook) (st : DragState)
    (evs : list DocumentEvent) :
  isDragging h = true -> dragState h = Some st ->
  forallb (fun ev => negb (endsGesture ev)) evs = true ->
  exists previews,
    documentEvents opts h (evs ++ [keydown "Escape"])
    = (idle,
       previews ++ [onDragEnd (drag_task st) (originalStart st) (originalEnd st)
                      true (isResizeMode (mode st))])
    /\ Forall (isPreviewOf (drag_task st)) previews.
Proof.
  intros Hd Hs Hev.
  destruct (documentEvents_keep_session opts st evs Hev h Hd Hs)
    as (h1 & previews & E & Hd1 & Hs1 & Hp).
  exists previews. split; [| exact Hp].
  rewrite documentEvents_app, E. simpl.
  unfold documentEvent, handleKeyDown. rewrite Hd1, Hs1. simpl.
  reflexivity.
Qed.

(** C8. After a pointer-down that started a session, and whatever
    pointer-moves and other keys came in between, the Escape key ends the
    gesture: the controller reports [cancelled = true] with the start and
    end the task had at the pointer-down, and the hook is back to idle. *)
Theorem escape_reports_original_dates (opts : UseDragOptions) (h h1 : Hook)
    (t : ComputedTask) (clientX : Q) (m : DragMode)
    (evs : list DocumentEvent) :
  handleMouseDown opts h t clientX (Some m)
  = (h1, [preventDefault; stopPropagation; onDragStart t]) ->
  forallb (fun ev => negb (endsGesture ev)) evs = true ->
  exists previews,
    documentEvents opts h1 (evs ++ [keydown "Escape"])
    = (idle,
       previews ++ [onDragEnd t (start (task t)) (end_ (task t)) true
                      (isResizeMode (Some m))])
    /\ Forall (isPreviewOf t) previews.
Proof.
  intros Hdown Hev. unfold handleMouseDown in Hdown.
  destruct (isDisabled (task t)); [discriminate |].
  destruct (match m with move => negb (allowDrag opts) | _ => false end);
    [discriminate |].
  destruct (match m with
            | resize_left | resize_right => negb (allowResize opts)
            | move => false
            end); [discriminate |].
  injection Hdown as <-.
  apply (escape_in_session opts _
           (mkDragState t (Some m) clientX (x t) (width t)
              (start (task t)) (end_ (task t))) evs);
    [reflexivity | reflexivity | exact Hev].
Qed.

Lemma handleMouseDown_rejected (opts : UseDragOptions) (h : Hook)
    (t : ComputedTask) (clientX : Q) (m : DragMode) :
  (m = move /\ allowDrag opts = false)
  \/ ((m = resize_left \/ m = resize_right) /\ allowResize opts = false)
  \/ isDisabled (task t) = true ->
  handleMouseDown opts h t clientX (Some m) = (h, []).
Proof.
  unfold handleMouseDown.
  intros [[-> Ha] | [[[-> | ->] Ha] | Hd]]; try rewrite Ha; try rewrite Hd;
    destruct (isDisabled (task t)); try reflexivity.
Qed.

(** C9. A pointer-down on a bar changes nothing and fires nothing when the
    capability of the requested mode is switched off, when the task is
    disabled, or when the task is a group: on the path from the bar
    ([handleDragStart]) through the chart ([handleTaskDragStart]) to the
    hook. *)
Theorem pointer_down_rejected (opts : UseDragOptions) (h : Hook)
    (t : ComputedTask) (clientX : Q) (m : DragMode) :
  (m = move /\ allowDrag opts = false)
  \/ ((m = resize_left \/ m = resize_right) /\ allowResize opts = false)
  \/ isDisabled (task t) = true
  \/ type (task t) = group ->
  handleDragStart opts h t clientX m = (h, [])
  /\ handleTaskDragStart opts h t clientX m = (h, []).
Proof.
  intros Hc.
  assert (Ht : handleTaskDragStart opts h t clientX m = (h, [])).
  { unfold handleTaskDragStart.
    destruct (isDisabled (task t)) eqn:Hd; [reflexivity |].
    destruct Hc as [Hc | [Hc | [Hc | Hc]]].
    - destruct (type (task t)); simpl; try reflexivity;
        apply handleMouseDown_rejected; auto.
    - destruct (type (task t)); simpl; try reflexivity;
        apply handleMouseDown_rejected; auto.
    - discriminate.
    - rewrite Hc. reflexivity. }
  split; [| exact Ht].
  unfold handleDragStart. rewrite Ht. destruct (isDisabled (task t)); reflexivity.
Qed.

(** *** The derived date range (C5) *)

Lemma foldl_min_minimum (l : list Date) (a : Date) :
  isMinimumOf (foldl Z.min a l) (a :: l).
Proof.
  revert a. induction l as [| b l IH]; intros a; simpl.
  - split; [left |]. intros y Hy. apply list_elem_of_singleton in Hy. lia.
  - destruct (IH (Z.min a b)) as [Hin Hle]. split.
    + apply elem_of_cons in Hin as [E | Hin].
      * rewrite E. destruct (Z.min_spec a b) as [[_ ->] | [_ ->]].
        -- left.
        -- right; left.
      * right; right; exact Hin.
    + intros y Hy.
      assert (Hm : foldl Z.min (Z.min a b) l <= Z.min a b) by (apply Hle; left).
      apply elem_of_cons in Hy as [-> | Hy]; [lia |].
      apply elem_of_cons in Hy as [-> | Hy]; [lia |].
      apply Hle. right; exact Hy.
Qed.

Lemma foldl_max_maximum (l : list Date) (a : Date) :
  isMaximumOf (foldl Z.max a l) (a :: l).
Proof.
  revert a. induction l as [| b l IH]; intros a; simpl.
  - split; [left |]. intros y Hy. apply list_elem_of_singleton in Hy. lia.
  - destruct (IH (Z.max a b)) as [Hin Hle]. split.
    + apply elem_of_cons in Hin as [E | Hin].
      * rewrite E. destruct (Z.max_spec a b) as [[_ ->] | [_ ->]].
        -- right; left.
        -- left.
      * right; right; exact Hin.
    + intros y Hy.
      assert (Hm : Z.max a b <= foldl Z.max (Z.max a b) l) by (apply Hle; left).
      apply elem_of_cons in Hy as [-> | Hy]; [lia |].
      apply elem_of_cons in Hy as [-> | Hy]; [lia |].
      apply Hle. right; exact Hy.
Qed.

Lemma rangeStep_eq (lo hi : Date) (t : GanttTask) :
  rangeStep (lo, hi) t
  = (foldl Z.min lo (start t :: option_list (baselineStart t)),
     foldl Z.max hi (end_ t :: option_list (baselineEnd t))).
Proof.
  unfold rangeStep.
  destruct (baselineStart t) as [bs |], (baselineEnd t) as [be |];
    cbn -[Z.min Z.max Z.ltb Z.gtb];
    destruct (Z.ltb_spec (start t) lo), (Z.gtb_spec (end_ t) hi);
    repeat match goal with
      | |- context [?a <? ?b] => destruct (Z.ltb_spec a b)
      | |- context [?a >? ?b] => destruct (Z.gtb_spec a b)
      end; f_equal; lia.
Qed.

Lemma foldl_rangeStep (tasks : list GanttTask) (lo hi : Date) :
  foldl rangeStep (lo, hi) tasks
  = (foldl Z.min lo (spanStarts tasks), foldl Z.max hi (spanEnds tasks)).
Proof.
  revert lo hi. induction tasks as [| t tasks IH]; intros lo hi; [reflexivity |].
  cbn [foldl]. rewrite rangeStep_eq, IH.
  unfold spanStarts, spanEnds. cbn [flat_map]. rewrite !foldl_app. reflexivity.
Qed.

Lemma isMinimumOf_drop_head (m a : Date) (l : list Date) :
  a ∈ l -> isMinimumOf m (a :: l) -> isMinimumOf m l.
Proof.
  intros Ha [Hin Hle]. split.
  - apply elem_of_cons in Hin as [-> | Hin]; assumption.
  - intros y Hy. apply Hle. right; exact Hy.
Qed.

Lemma isMaximumOf_drop_head (m a : Date) (l : list Date) :
  a ∈ l -> isMaximumOf m (a :: l) -> isMaximumOf m l.
Proof.
  intros Ha [Hin Hle]. split.
  - apply elem_of_cons in Hin as [-> | Hin]; assumption.
  - intros y Hy. apply Hle. right; exact Hy.
Qed.

(** C5, for the paddings the code handles as the claim says.  For a
    non-empty task list and no custom range, let [lo] be the least of all
    starts and present baseline starts and [hi] the greatest of all ends
    and present baseline ends.  For a padding of [k] whole days the range
    starts at the local midnight of [lo] minus [k] days and ends at
    23:59:59.999 of the day of [hi] plus [k] days.  A padding with a
    fraction moves by whole days only, since [setDate] truncates: forward
    by the padding rounded down, and backward by the padding rounded up
    as long as the padding is at most the day of the month of [lo].  For
    every padding, the days moved are the difference between the day of
    the month and the truncated sum of the day of the month and the
    padding. *)
Theorem calculateDateRange_spans_baselines (now : Date)
    (tasks : list GanttTask) (padding : Q) :
  tasks <> [] ->
  exists lo hi,
    isMinimumOf lo (spanStarts tasks) /\ isMaximumOf hi (spanEnds tasks)
    /\ (forall k : Z, (padding == inject_Z k)%Q ->
          range_start (calculateDateRange now tasks padding None)
          = startOfDay lo - k * MS_PER_DAY
          /\ range_end (calculateDateRange now tasks padding None)
             = endOfDay hi + k * MS_PER_DAY)
    /\ ((0 <= padding)%Q ->
        range_end (calculateDateRange now tasks padding None)
        = endOfDay hi + Qfloor padding * MS_PER_DAY
        /\ ((padding <= inject_Z (getDate lo))%Q ->
            range_start (calculateDateRange now tasks padding None)
            = startOfDay lo - Qceiling padding * MS_PER_DAY))
    /\ range_start (calculateDateRange now tasks padding None)
       = startOfDay lo
         - (getDate lo - ToIntegerOrInfinity (inject_Z (getDate lo) - padding))
           * MS_PER_DAY
    /\ range_end (calculateDateRange now tasks padding None)
       = endOfDay hi
         + (ToIntegerOrInfinity (inject_Z (getDate hi) + padding) - getDate hi)
           * MS_PER_DAY.
Proof.
  intros Hne. destruct tasks as [| t0 rest]; [congruence |].
  unfold calculateDateRange. rewrite foldl_rangeStep.
  set (tasks := t0 :: rest).
  exists (foldl Z.min (start t0) (spanStarts tasks)),
         (foldl Z.max (end_ t0) (spanEnds tasks)).
  set (lo := foldl Z.min (start t0) (spanStarts tasks)).
  set (hi := foldl Z.max (end_ t0) (spanEnds tasks)).
  split; [| split; [| split; [| split; [| split]]]].
  - apply (isMinimumOf_drop_head _ (start t0)); [left | apply foldl_min_minimum].
  - apply (isMaximumOf_drop_head _ (end_ t0)); [left | apply foldl_max_maximum].
  - intros k Hk. cbn [range_start range_end].
    rewrite (addDays_integral _ (- padding) (- k)) by (rewrite Hk, inject_Z_opp; reflexivity).
    rewrite (addDays_integral _ padding k) by exact Hk.
    rewrite !endOfDay_eq, !startOfDay_shift. unfold MS_PER_DAY, msPerDay. lia.
  - intros Hp. cbn [range_start range_end]. split.
    + rewrite (addDays_nonneg _ _ Hp), !endOfDay_eq, startOfDay_shift.
      unfold MS_PER_DAY, msPerDay. lia.
    + intros Hg. rewrite addDays_eq.
      assert (Hnn : (0 <= inject_Z (getDate lo) + - padding)%Q) by lra.
      rewrite (ToIntegerOrInfinity_nonneg _ Hnn), Qfloor_add_Z.
      replace (getDate lo + Qfloor (- padding) - getDate lo)
        with (Qfloor (- padding)) by lia.
      rewrite startOfDay_shift. unfold Qceiling, MS_PER_DAY, msPerDay. lia.
  - cbn [range_start]. rewrite addDays_eq, startOfDay_shift.
    unfold Qminus, MS_PER_DAY, msPerDay. lia.
  - cbn [range_end]. rewrite addDays_eq, !endOfDay_eq, startOfDay_shift.
    unfold MS_PER_DAY, msPerDay. lia.
Qed.

(** *** The hierarchy flattener (C3) *)

Lemma ancestor_in_tasks (tasks : list GanttTask) (a t : GanttTask) :
  ancestor tasks a t -> a ∈ tasks.
Proof. induction 1 as [a t (Ha & _ & _) | a p t _ IH _]; assumption. Qed.

Lemma elem_of_filter_bool {A : Type} (f : A -> bool) (l : list A) (a : A) :
  a ∈ List.filter f l <-> a ∈ l /\ f a = true.
Proof. rewrite !list_elem_of_In. apply filter_In. Qed.

Lemma isChildOf_true (p t : GanttTask) :
  isChildOf p t = true <-> parentId t = Some (id p).
Proof. unfold isChildOf. apply bool_decide_eq_true. Qed.

Lemma Map_has_tasks (tasks : list GanttTask) (k : string) :
  Map_has (Map_of_tasks tasks) k = true <-> exists t, t ∈ tasks /\ id t = k.
Proof.
  unfold Map_has, Map_of_tasks. rewrite bool_decide_eq_true.
  assert (G : forall m0 : gmap string GanttTask,
             is_Some (foldl (fun m t => <[id t := t]> m) m0 tasks !! k)
             <-> is_Some (m0 !! k) \/ exists t, t ∈ tasks /\ id t = k).
  { induction tasks as [| t tasks IH]; intros m0; simpl.
    - split; [auto |]. intros [H | (t & Ht & _)]; [exact H |].
      inversion Ht.
    - rewrite IH, lookup_insert_is_Some. split.
      + intros [[E | [_ H]] | (u & Hu & E)].
        * right. exists t. split; [left | exact E].
        * left; exact H.
        * right. exists u. split; [right; exact Hu | exact E].
      + intros [H | (u & Hu & E)].
        * destruct (decide (id t = k)); [left; left; assumption |].
          left; right; split; assumption.
        * apply elem_of_cons in Hu as [-> | Hu].
          -- left; left; exact E.
          -- right. exists u. split; assumption. }
  rewrite G, lookup_empty. split.
  - intros [H | H]; [destruct H; discriminate | exact H].
  - intros H; right; exact H.
Qed.

(** **** [forEach] on a body that appends to the array it is given *)

Section ForEachAppend.

Context {A B : Type} (body : list B -> A -> option (list B)).
Hypothesis body_appends :
  forall a acc, body acc a = (acc ++.) <$> body [] a.

Lemma forEach_appends (l : list A) (acc : list B) :
  forEach l body acc = (acc ++.) <$> forEach l body [].
Proof.
  revert acc. induction l as [| a l IH]; intros acc; simpl.
  - rewrite app_nil_r. reflexivity.
  - rewrite (body_appends a acc). destruct (body [] a) as [r |]; simpl; [| reflexivity].
    rewrite (IH (acc ++ r)), (IH r).
    destruct (forEach l body []) as [k |]; simpl; [| reflexivity].
    rewrite app_assoc. reflexivity.
Qed.

Lemma forEach_mapM (l : list A) :
  forEach l body [] = (fun rs => concat rs) <$> mapM (body []) l.
Proof.
  induction l as [| a l IH]; simpl; [reflexivity |].
  destruct (body [] a) as [r |]; simpl; [| reflexivity].
  rewrite (forEach_appends l r), IH.
  destruct (mapM (body []) l); reflexivity.
Qed.

End ForEachAppend.

Section Flattener.

Variable tasks : list GanttTask.
Variable collapsedIds : gset string.

Lemma addTask_appends (fuel : nat) :
  forall t lvl pv acc,
    addTask tasks collapsedIds fuel acc t lvl pv
    = (acc ++.) <$> addTask tasks collapsedIds fuel [] t lvl pv.
Proof.
  induction fuel as [| fuel IH]; intros t lvl pv acc; [reflexivity |].
  cbn [addTask]. cbv zeta.
  set (body := fun result child =>
                 addTask tasks collapsedIds fuel result child (lvl + 1)%nat
                   (pv && negb (Set_has collapsedIds (id t)))).
  assert (Hb : forall a acc', body acc' a = (acc' ++.) <$> body [] a)
    by (intros; apply IH).
  rewrite (forEach_appends body Hb _ (acc ++ _)), (forEach_appends body Hb _ ([] ++ _)).
  destruct (forEach _ body []) as [k |]; simpl; [| reflexivity].
  rewrite <- app_assoc. reflexivity.
Qed.

(** The entries of one call: the task itself, then the entries of its
    children, in list order. *)
Lemma addTask_unfold (fuel : nat) (t : GanttTask) (lvl : nat) (pv : bool) :
  addTask tasks collapsedIds (S fuel) [] t lvl pv
  = (fun rs => mkFlatEntry t lvl pv :: concat rs)
    <$> mapM (fun child =>
                addTask tasks collapsedIds fuel [] child (lvl + 1)%nat
                  (pv && negb (Set_has collapsedIds (id t))))
          (List.filter (isChildOf t) tasks).
Proof.
  cbn [addTask]. cbv zeta.
  set (body := fun result child =>
                 addTask tasks collapsedIds fuel result child (lvl + 1)%nat
                   (pv && negb (Set_has collapsedIds (id t)))).
  assert (Hb : forall a acc', body acc' a = (acc' ++.) <$> body [] a)
    by (intros; apply addTask_appends).
  rewrite (forEach_appends body Hb), (forEach_mapM body Hb).
  subst body. cbv beta.
  destruct (mapM _ _); reflexivity.
Qed.

Lemma flattenTasks_unfold (fuel : nat) :
  flattenTasks fuel tasks collapsedIds
  = (fun rs => concat rs)
    <$> mapM (fun t => addTask tasks collapsedIds fuel [] t 0%nat true)
                 (List.filter (isRootTask tasks) tasks).
Proof.
  unfold flattenTasks.
  apply (forEach_mapM (fun result t => addTask tasks collapsedIds fuel result t 0%nat true)).
  intros; apply addTask_appends.
Qed.

Lemma mapM_concat_elem {A B : Type} (f : A -> option (list B))
    (l : list A) (rs : list (list B)) (e : B) :
  mapM f l = Some rs ->
  e ∈ concat rs <-> exists a r, a ∈ l /\ f a = Some r /\ e ∈ r.
Proof.
  rewrite mapM_Some. induction 1 as [| a r l rs Hf _ IH]; simpl.
  - split; [intros H; inversion H |]. intros (a & r & Ha & _). inversion Ha.
  - rewrite elem_of_app, IH. split.
    + intros [He | (a' & r' & Ha' & Hf' & He)].
      * exists a, r. repeat split; [left | |]; assumption.
      * exists a', r'. repeat split; [right | |]; assumption.
    + intros (a' & r' & Ha' & Hf' & He).
      apply elem_of_cons in Ha' as [-> | Ha'].
      * left. congruence.
      * right. exists a', r'. repeat split; assumption.
Qed.

Lemma mapM_elem_is_Some {A B : Type} (f : A -> option B) (l : list A)
    (rs : list B) (a : A) :
  mapM f l = Some rs -> a ∈ l -> is_Some (f a).
Proof.
  intros Hm Ha.
  assert (Hs : is_Some (mapM f l)) by (rewrite Hm; eexists; reflexivity).
  apply mapM_is_Some_1 in Hs. rewrite Forall_forall in Hs. exact (Hs a Ha).
Qed.

Lemma addTask_head (fuel : nat) (t : GanttTask) (lvl : nat) (pv : bool)
    (out : list FlatEntry) :
  addTask tasks collapsedIds fuel [] t lvl pv = Some out ->
  exists rest, out = mkFlatEntry t lvl pv :: rest.
Proof.
  destruct fuel as [| fuel]; [discriminate |]. rewrite addTask_unfold.
  destruct (mapM _ _) as [rs |]; simpl; [| discriminate].
  intros [= <-]. eexists; reflexivity.
Qed.

Lemma addTask_inv (fuel : nat) (t : GanttTask) (lvl : nat) (pv : bool)
    (out : list FlatEntry) :
  addTask tasks collapsedIds fuel [] t lvl pv = Some out ->
  exists fuel' rs,
    fuel = S fuel'
    /\ mapM (fun child =>
               addTask tasks collapsedIds fuel' [] child (lvl + 1)%nat
                 (pv && negb (Set_has collapsedIds (id t))))
         (List.filter (isChildOf t) tasks) = Some rs
    /\ out = mkFlatEntry t lvl pv :: concat rs.
Proof.
  destruct fuel as [| fuel]; [discriminate |]. rewrite addTask_unfold.
  destruct (mapM _ _) as [rs |] eqn:E; simpl; [| discriminate].
  intros [= <-]. exists fuel, rs. auto.
Qed.

(** Every entry of a call on a visited task is a visited task. *)
Lemma addTask_visited (fuel : nat) :
  forall t lvl pv out,
    visited tasks collapsedIds t lvl pv ->
    addTask tasks collapsedIds fuel [] t lvl pv = Some out ->
    forall e, e ∈ out ->
      visited tasks collapsedIds (flat_task e) (flat_level e) (flat_isVisible e).
Proof.
  induction fuel as [| fuel IH]; intros t lvl pv out Hv Hout e He;
    [discriminate |].
  apply addTask_inv in Hout as (fuel' & rs & [= <-] & Hm & ->).
  apply elem_of_cons in He as [-> | He]; [exact Hv |].
  apply (mapM_concat_elem _ _ _ _ Hm) in He as (ch & r & Hch & Hr & He).
  apply elem_of_filter_bool in Hch as [Hch Hc].
  exact (IH ch _ _ r (visited_child _ _ _ _ _ _ Hv Hch Hc) Hr e He).
Qed.

(** The entries of a call are closed under children: with an entry, the
    entry of each child of its task is there too. *)
Lemma addTask_closed (fuel : nat) :
  forall t lvl pv out,
    addTask tasks collapsedIds fuel [] t lvl pv = Some out ->
    forall e ch, e ∈ out -> ch ∈ tasks -> isChildOf (flat_task e) ch = true ->
      mkFlatEntry ch (flat_level e + 1)%nat
        (flat_isVisible e && negb (Set_has collapsedIds (id (flat_task e)))) ∈ out.
Proof.
  induction fuel as [| fuel IH]; intros t lvl pv out Hout e ch He Hch Hc;
    [discriminate |].
  apply addTask_inv in Hout as (fuel' & rs & [= <-] & Hm & ->).
  right. apply (mapM_concat_elem _ _ _ _ Hm).
  apply elem_of_cons in He as [-> | He].
  - simpl in *.
    assert (Hin : ch ∈ List.filter (isChildOf t) tasks)
      by (apply elem_of_filter_bool; auto).
    destruct (mapM_elem_is_Some _ _ _ _ Hm Hin) as [r Hr].
    exists ch, r. repeat split; [assumption .. |].
    destruct (addTask_head _ _ _ _ _ Hr) as [rest ->]. left.
  - apply (mapM_concat_elem _ _ _ _ Hm) in He as (c & r & Hcin & Hr & He).
    exists c, r. repeat split; [assumption .. |].
    exact (IH _ _ _ _ Hr e ch He Hch Hc).
Qed.

(** The output of the flattener is exactly the set of visited tasks, each
    with its level and visibility. *)
Lemma flattenTasks_visited (fuel : nat) (out : list FlatEntry) :
  flattenTasks fuel tasks collapsedIds = Some out ->
  forall t lvl pv,
    mkFlatEntry t lvl pv ∈ out <-> visited tasks collapsedIds t lvl pv.
Proof.
  rewrite flattenTasks_unfold.
  destruct (mapM _ _) as [rs |] eqn:Hm; simpl; [| discriminate].
  intros [= <-] t lvl pv. split.
  - intros He. apply (mapM_concat_elem _ _ _ _ Hm) in He as (r0 & r & Hr0 & Hr & He).
    apply elem_of_filter_bool in Hr0 as [Hin Hroot].
    exact (addTask_visited fuel _ _ _ _ (visited_root _ _ _ Hin Hroot) Hr _ He).
  - induction 1 as [t Hin Hroot | p lvl pv t Hv IH Hin Hc].
    + assert (Hf : t ∈ List.filter (isRootTask tasks) tasks)
        by (apply elem_of_filter_bool; auto).
      destruct (mapM_elem_is_Some _ _ _ _ Hm Hf) as [r Hr].
      apply (mapM_concat_elem _ _ _ _ Hm). exists t, r. repeat split; [assumption .. |].
      destruct (addTask_head _ _ _ _ _ Hr) as [rest ->]. left.
    + apply (mapM_concat_elem _ _ _ _ Hm) in IH as (r0 & r & Hr0 & Hr & He).
      apply (mapM_concat_elem _ _ _ _ Hm). exists r0, r. repeat split; [assumption .. |].
      exact (addTask_closed fuel _ _ _ _ Hr _ t He Hin Hc).
Qed.

Lemma visited_in_tasks (t : GanttTask) (lvl : nat) (pv : bool) :
  visited tasks collapsedIds t lvl pv -> t ∈ tasks.
Proof. destruct 1; assumption. Qed.

Lemma NoDup_length_le (l : list GanttTask) :
  NoDup l -> (forall a, a ∈ l -> a ∈ tasks) -> (length l <= length tasks)%nat.
Proof. intros Hn Hs. apply submseteq_length, NoDup_submseteq; assumption. Qed.

(** With acyclic parent references the recursion ends: [anc] is the chain
    of calls above [t], which never repeats a task. *)
Lemma addTask_terminates (fuel : nat) :
  acyclic tasks ->
  forall t lvl pv anc,
    t ∈ tasks -> NoDup (t :: anc) ->
    (forall a, a ∈ anc -> ancestor tasks a t) ->
    (length tasks < fuel + length (t :: anc))%nat ->
    is_Some (addTask tasks collapsedIds fuel [] t lvl pv).
Proof.
  intros Hacyc. induction fuel as [| fuel IH]; intros t lvl pv anc Ht Hnd Hanc Hlen.
  - exfalso.
    assert (length (t :: anc) <= length tasks)%nat; [| lia].
    apply NoDup_length_le; [exact Hnd |].
    intros a Ha. apply elem_of_cons in Ha as [-> | Ha]; [exact Ht |].
    exact (ancestor_in_tasks _ _ _ (Hanc a Ha)).
  - rewrite addTask_unfold. apply fmap_is_Some, mapM_is_Some_2, Forall_forall.
    intros ch Hch. apply elem_of_filter_bool in Hch as [Hch Hc].
    apply isChildOf_true in Hc.
    assert (Hp : parentOf tasks t ch) by (repeat split; assumption).
    assert (Hall : forall a, a ∈ t :: anc -> ancestor tasks a ch).
    { intros a Ha. apply elem_of_cons in Ha as [-> | Ha].
      - apply ancestor_parent, Hp.
      - eapply ancestor_step; [apply Hanc, Ha | exact Hp]. }
    apply (IH ch _ _ (t :: anc)); [exact Hch | | exact Hall | simpl in *; lia].
    apply NoDup_cons. split; [| exact Hnd].
    intros Hin. exact (Hacyc ch (Hall ch Hin)).
Qed.

Lemma flattenTasks_terminates :
  acyclic tasks -> is_Some (flattenTasks (length tasks) tasks collapsedIds).
Proof.
  intros Hacyc. rewrite flattenTasks_unfold.
  apply fmap_is_Some, mapM_is_Some_2, Forall_forall.
  intros t Ht. apply elem_of_filter_bool in Ht as [Ht _].
  apply (addTask_terminates _ Hacyc t _ _ []); [exact Ht | | | simpl; lia].
  - apply NoDup_singleton.
  - intros a Ha. inversion Ha.
Qed.

(** More fuel does not change a result. *)
Lemma addTask_fuel_mono (fuel : nat) :
  forall t lvl pv out,
    addTask tasks collapsedIds fuel [] t lvl pv = Some out ->
    addTask tasks collapsedIds (S fuel) [] t lvl pv = Some out.
Proof.
  induction fuel as [| fuel IH]; intros t lvl pv out Hout; [discriminate |].
  apply addTask_inv in Hout as (fuel' & rs & [= <-] & Hm & ->).
  rewrite addTask_unfold.
  assert (Hm' : mapM (fun child =>
                        addTask tasks collapsedIds (S fuel) [] child (lvl + 1)%nat
                          (pv && negb (Set_has collapsedIds (id t))))
                  (List.filter (isChildOf t) tasks) = Some rs).
  { apply mapM_Some. apply mapM_Some in Hm.
    eapply Forall2_impl; [exact Hm |]. intros ch r Hr. apply IH, Hr. }
  rewrite Hm'. reflexivity.
Qed.

Lemma flattenTasks_fuel_mono (fuel : nat) (out : list FlatEntry) :
  flattenTasks fuel tasks collapsedIds = Some out ->
  flattenTasks (S fuel) tasks collapsedIds = Some out.
Proof.
  intros Hout. rewrite flattenTasks_unfold in Hout.
  destruct (mapM _ _) as [rs |] eqn:Hm; simpl in Hout; [| discriminate].
  injection Hout as <-. rewrite flattenTasks_unfold.
  assert (Hm' : mapM (fun t => addTask tasks collapsedIds (S fuel) [] t 0%nat true)
                  (List.filter (isRootTask tasks) tasks) = Some rs).
  { apply mapM_Some. apply mapM_Some in Hm.
    eapply Forall2_impl; [exact Hm |]. intros ch r Hr. apply addTask_fuel_mono, Hr. }
  rewrite Hm'. reflexivity.
Qed.

Lemma flattenTasks_fuel_le (fuel fuel' : nat) (out : list FlatEntry) :
  (fuel <= fuel')%nat ->
  flattenTasks fuel tasks collapsedIds = Some out ->
  flattenTasks fuel' tasks collapsedIds = Some out.
Proof.
  induction 1 as [| fuel' _ IH]; intros Hout; [exact Hout |].
  apply flattenTasks_fuel_mono, IH, Hout.
Qed.

(** The result does not depend on the fuel that was enough for it. *)
Lemma flattenTasks_fuel_irrelevant (fuel fuel' : nat) (out out' : list FlatEntry) :
  flattenTasks fuel tasks collapsedIds = Some out ->
  flattenTasks fuel' tasks collapsedIds = Some out' ->
  out = out'.
Proof.
  intros H H'. destruct (Nat.le_ge_cases fuel fuel') as [Hle | Hle].
  - apply (flattenTasks_fuel_le _ _ _ Hle) in H. congruence.
  - apply (flattenTasks_fuel_le _ _ _ Hle) in H'. congruence.
Qed.

Lemma not_root_has_parent (t : GanttTask) :
  t ∈ tasks -> isRootTask tasks t = false -> exists p, parentOf tasks p t.
Proof.
  intros Ht. unfold isRootTask. destruct (parentId t) as [pid |] eqn:E; simpl;
    [| discriminate].
  intros H. apply orb_false_elim in H as [_ H]. apply negb_false_iff in H.
  apply Map_has_tasks in H as (p & Hp & <-).
  exists p. repeat split; assumption.
Qed.

Lemma root_has_no_parent (t : GanttTask) :
  (forall u, u ∈ tasks -> id u <> "") ->
  isRootTask tasks t = true -> forall p, ~ parentOf tasks p t.
Proof.
  intros Hid Hroot p (Hp & _ & E). unfold isRootTask in Hroot. rewrite E in Hroot.
  assert (Hm : Map_has (Map_of_tasks tasks) (id p) = true)
    by (apply Map_has_tasks; exists p; auto).
  rewrite Hm in Hroot. simpl in Hroot. rewrite orb_false_r in Hroot.
  apply negb_true_iff, negb_false_iff, String.eqb_eq in Hroot.
  exact (Hid p Hp Hroot).
Qed.

(** Every task of an acyclic list is visited: going up from a task that is
    not, the parents would never repeat and never end. *)
Lemma task_visited_or_chain (n : nat) :
  acyclic tasks ->
  forall t, t ∈ tasks ->
    (exists lvl pv, visited tasks collapsedIds t lvl pv)
    \/ exists anc, length anc = n /\ NoDup anc
                   /\ forall a, a ∈ anc -> ancestor tasks a t.
Proof.
  intros Hacyc. induction n as [| n IH]; intros t Ht.
  - right. exists []. repeat split; [constructor |]. intros a Ha; inversion Ha.
  - destruct (isRootTask tasks t) eqn:Hroot.
    + left. eexists _, _. apply visited_root; assumption.
    + destruct (not_root_has_parent t Ht Hroot) as [p Hp].
      destruct (IH p (proj1 Hp)) as [(lvl & pv & Hv) | (anc & Hlen & Hnd & Hanc)].
      * left. eexists _, _. eapply visited_child; [exact Hv | exact Ht |].
        apply isChildOf_true, Hp.
      * right. exists (p :: anc). repeat split.
        -- simpl. lia.
        -- apply NoDup_cons. split; [| exact Hnd].
           intros Hin. exact (Hacyc p (Hanc p Hin)).
        -- intros a Ha. apply elem_of_cons in Ha as [-> | Ha].
           ++ apply ancestor_parent, Hp.
           ++ eapply ancestor_step; [apply Hanc, Ha | exact Hp].
Qed.

Lemma every_task_visited :
  acyclic tasks ->
  forall t, t ∈ tasks -> exists lvl pv, visited tasks collapsedIds t lvl pv.
Proof.
  intros Hacyc t Ht.
  destruct (task_visited_or_chain (S (length tasks)) Hacyc t Ht)
    as [Hv | (anc & Hlen & Hnd & Hanc)]; [exact Hv |].
  exfalso.
  assert (length anc <= length tasks)%nat; [| lia].
  apply NoDup_length_le; [exact Hnd |].
  intros a Ha. exact (ancestor_in_tasks _ _ _ (Hanc a Ha)).
Qed.

Lemma task_of_id (p q : GanttTask) :
  NoDup (id <$> tasks) -> p ∈ tasks -> q ∈ tasks -> id p = id q -> p = q.
Proof.
  induction tasks as [| t l IH]; intros Hnd Hp Hq E; [inversion Hp |].
  rewrite fmap_cons in Hnd. apply NoDup_cons in Hnd as [Hnotin Hnd].
  apply elem_of_cons in Hp as [-> | Hp]; apply elem_of_cons in Hq as [-> | Hq].
  - reflexivity.
  - exfalso. apply Hnotin. rewrite E. apply list_elem_of_fmap. exists q; auto.
  - exfalso. apply Hnotin. rewrite <- E. apply list_elem_of_fmap. exists p; auto.
  - apply IH; assumption.
Qed.

(** The ancestors of a child are its parent and the parent's ancestors,
    when identities are unique. *)
Lemma ancestor_of_child (p t a : GanttTask) :
  NoDup (id <$> tasks) -> parentOf tasks p t ->
  ancestor tasks a t <-> a = p \/ ancestor tasks a p.
Proof.
  intros Hnd Hp.
  assert (Huniq : forall q, parentOf tasks q t -> q = p).
  { intros q Hq. apply task_of_id; [exact Hnd | apply Hq | apply Hp |].
    destruct Hp as (_ & _ & Ep), Hq as (_ & _ & Eq). congruence. }
  split.
  - inversion 1 as [a' t' Hq | a' q t' Ha Hq]; subst.
    + left. apply Huniq, Hq.
    + right. rewrite <- (Huniq q Hq). exact Ha.
  - intros [-> | Ha].
    + apply ancestor_parent, Hp.
    + eapply ancestor_step; [exact Ha | exact Hp].
Qed.

(** A visited task is marked visible exactly when none of its ancestors is
    collapsed. *)
Lemma visited_visible (t : GanttTask) (lvl : nat) (pv : bool) :
  NoDup (id <$> tasks) -> (forall u, u ∈ tasks -> id u <> "") ->
  visited tasks collapsedIds t lvl pv ->
  pv = true <-> forall a, ancestor tasks a t -> id a ∉ collapsedIds.
Proof.
  intros Hnd Hid. induction 1 as [t Hin Hroot | p lvl pv t Hv IH Hin Hc].
  - split; [| reflexivity]. intros _ a Ha. exfalso.
    inversion Ha as [a' t' Hp | a' q t' _ Hp]; subst;
      exact (root_has_no_parent t Hid Hroot _ Hp).
  - assert (Hp : parentOf tasks p t).
    { repeat split; [exact (visited_in_tasks _ _ _ Hv) | exact Hin |].
      apply isChildOf_true, Hc. }
    unfold Set_has. rewrite andb_true_iff, negb_true_iff, bool_decide_eq_false, IH.
    split.
    + intros [Hanc Hcol] a Ha.
      apply (ancestor_of_child p t a Hnd Hp) in Ha as [-> | Ha]; auto.
    + intros Hall. split.
      * intros a Ha. apply Hall. eapply ancestor_step; [exact Ha | exact Hp].
      * apply Hall, ancestor_parent, Hp.
Qed.

End Flattener.

(** Where the flattener keeps the visibility rule.  For a task list with
    unique, non-empty identities and acyclic parent references, and any
    set of collapsed identities, the flattener returns; every task has an
    entry; an entry is marked visible exactly when no ancestor of its
    task is collapsed; and the entry of a child is visible exactly when
    the entry of its parent is visible and the parent is not collapsed. *)
Theorem flattenTasks_visibility (tasks : list GanttTask)
    (collapsedIds : gset string) :
  NoDup (id <$> tasks) -> (forall u, u ∈ tasks -> id u <> "") ->
  acyclic tasks ->
  exists out,
    flattenTasks (length tasks) tasks collapsedIds = Some out
    /\ (forall t, t ∈ tasks -> exists e, e ∈ out /\ flat_task e = t)
    /\ (forall e, e ∈ out ->
          flat_task e ∈ tasks
          /\ (flat_isVisible e = true
              <-> forall a, ancestor tasks a (flat_task e) -> id a ∉ collapsedIds))
    /\ (forall e p, e ∈ out -> parentOf tasks p (flat_task e) ->
          exists ep, ep ∈ out /\ flat_task ep = p
                     /\ flat_isVisible e
                        = flat_isVisible ep && negb (Set_has collapsedIds (id p))).
Proof.
  intros Hnd Hid Hacyc.
  destruct (flattenTasks_terminates tasks collapsedIds Hacyc) as [out Hout].
  pose proof (flattenTasks_visited tasks collapsedIds _ out Hout) as Hvis.
  exists out. split; [exact Hout |]. split; [| split].
  - intros t Ht.
    destruct (every_task_visited tasks collapsedIds Hacyc t Ht) as (lvl & pv & Hv).
    exists (mkFlatEntry t lvl pv). split; [apply Hvis, Hv | reflexivity].
  - intros [t lvl pv] He. apply Hvis in He. simpl. split.
    + exact (visited_in_tasks _ _ _ _ _ He).
    + exact (visited_visible tasks collapsedIds t lvl pv Hnd Hid He).
  - intros [t lvl pv] p He Hp. apply Hvis in He. simpl in *.
    inversion He as [t' Hin Hroot | q lvl' pv' t' Hq Hin Hc]; subst.
    + exfalso. exact (root_has_no_parent tasks t Hid Hroot p Hp).
    + assert (q = p) as ->.
      { apply (task_of_id tasks); [exact Hnd | | apply Hp |].
        - exact (visited_in_tasks _ _ _ _ _ Hq).
        - apply isChildOf_true in Hc. destruct Hp as (_ & _ & Ep). congruence. }
      exists (mkFlatEntry p lvl' pv'). split; [apply Hvis, Hq | split; reflexivity].
Qed.

(** *** The position compiler (C2, C4) *)

Section Compiler.

Variable range : DateRange.
Variable w : Q.
Variable collapsedIds : gset string.

Lemma computeRows_entries (flat : list FlatEntry) :
  forall k,
    Forall2 (compiledFrom range w collapsedIds) flat
      (computeRows range w collapsedIds flat k).
Proof.
  induction flat as [| e flat IH]; intros k; simpl; constructor.
  - repeat split.
  - apply IH.
Qed.

Lemma computeRows_flat (flat : list FlatEntry) (k : Z) :
  (fun ct => mkFlatEntry (task ct) (level ct) (isVisible ct))
  <$> computeRows range w collapsedIds flat k = flat.
Proof.
  revert k. induction flat as [| [t l v] flat IH]; intros k; simpl; [reflexivity |].
  rewrite IH. reflexivity.
Qed.

(** The row index of the entry at position [i]: the counter's start plus
    the number of visible entries before it, or -1. *)
Lemma computeRows_rowIndex (flat : list FlatEntry) :
  forall k i ct,
    computeRows range w collapsedIds flat k !! i = Some ct ->
    rowIndex ct
    = if isVisible ct
      then k + Z.of_nat (length (List.filter isVisible
                                   (take i (computeRows range w collapsedIds flat k))))
      else -1.
Proof.
  induction flat as [| e flat IH]; intros k i ct Hi; [discriminate |].
  destruct i as [| i].
  - simpl in Hi. injection Hi as <-. simpl.
    destruct (flat_isVisible e); simpl; lia.
  - cbn [computeRows] in *. cbv zeta in *. rewrite lookup_cons in Hi.
    rewrite (IH _ i ct Hi). cbn [take List.filter isVisible].
    destruct (isVisible ct); [| reflexivity].
    destruct (flat_isVisible e); cbn [length]; lia.
Qed.

(** The row indices of the visible entries, in order: consecutive numbers
    from the counter's start. *)
Lemma computeRows_visible_rows (flat : list FlatEntry) :
  forall k,
    rowIndex <$> List.filter isVisible (computeRows range w collapsedIds flat k)
    = (fun n => k + Z.of_nat n)
      <$> seq 0 (length (List.filter isVisible
                           (computeRows range w collapsedIds flat k))).
Proof.
  induction flat as [| e flat IH]; intros k; [reflexivity |].
  cbn [computeRows]. cbv zeta. cbn [List.filter isVisible].
  destruct (flat_isVisible e).
  - cbn [length seq fmap list_fmap rowIndex]. f_equal; [lia |].
    rewrite IH, <- fmap_S_seq, <- list_fmap_compose.
    apply list_fmap_ext. intros _ n _. simpl. lia.
  - apply IH.
Qed.

End Compiler.

Lemma computeTaskPositions_inv (fuel : nat) (tasks : list GanttTask)
    (range : DateRange) (w : Q) (collapsedIds : gset string)
    (out : list ComputedTask) :
  computeTaskPositions fuel tasks range w collapsedIds = Some out ->
  exists flat,
    flattenTasks fuel tasks collapsedIds = Some flat
    /\ out = computeRows range w collapsedIds flat 0.
Proof.
  unfold computeTaskPositions.
  destruct (flattenTasks fuel tasks collapsedIds) as [flat |]; [| discriminate].
  intros [= <-]. exists flat. auto.
Qed.

Lemma computeTaskPositions_terminates (tasks : list GanttTask)
    (range : DateRange) (w : Q) (collapsedIds : gset string) :
  acyclic tasks ->
  is_Some (computeTaskPositions (length tasks) tasks range w collapsedIds).
Proof.
  intros Hacyc. unfold computeTaskPositions.
  destruct (flattenTasks_terminates tasks collapsedIds Hacyc) as [flat ->].
  eexists; reflexivity.
Qed.

(** C2. The compiler returns on acyclic parent references, with an entry
    for every task.  In whatever it returns, every entry is a task of the
    input; its baseline x and width are defined exactly when both baseline
    dates are present, and are then [dateToX] of the baseline start and
    [calculateBarWidth] of the baseline dates, with the range and width
    that position the current bar. *)
Theorem baseline_uses_same_transform (tasks : list GanttTask)
    (range : DateRange) (w : Q) (collapsedIds : gset string) :
  (acyclic tasks ->
   exists out,
     computeTaskPositions (length tasks) tasks range w collapsedIds = Some out
     /\ forall t, t ∈ tasks -> exists ct, ct ∈ out /\ task ct = t)
  /\ forall fuel out,
       computeTaskPositions fuel tasks range w collapsedIds = Some out ->
       forall ct, ct ∈ out ->
         task ct ∈ tasks
         /\ x ct = dateToX (start (task ct)) range w
         /\ width ct = calculateBarWidth (start (task ct)) (end_ (task ct)) range w 4
         /\ (is_Some (baselineX ct)
             <-> is_Some (baselineStart (task ct)) /\ is_Some (baselineEnd (task ct)))
         /\ (is_Some (baselineWidth ct)
             <-> is_Some (baselineStart (task ct)) /\ is_Some (baselineEnd (task ct)))
         /\ forall bs be,
              baselineStart (task ct) = Some bs -> baselineEnd (task ct) = Some be ->
              baselineX ct = Some (dateToX bs range w)
              /\ baselineWidth ct = Some (calculateBarWidth bs be range w 4).
Proof.
  split.
  - intros Hacyc.
    destruct (flattenTasks_terminates tasks collapsedIds Hacyc) as [flat Hflat].
    exists (computeRows range w collapsedIds flat 0). split.
    + unfold computeTaskPositions. rewrite Hflat. reflexivity.
    + intros t Ht.
      destruct (every_task_visited tasks collapsedIds Hacyc t Ht) as (lvl & pv & Hv).
      apply (flattenTasks_visited tasks collapsedIds _ flat Hflat) in Hv.
      apply list_elem_of_lookup in Hv as [i Hi].
      destruct (Forall2_lookup_l _ _ _ _ _
                  (computeRows_entries range w collapsedIds flat 0) Hi)
        as (ct & Hct & Hc).
      exists ct. split; [apply list_elem_of_lookup; eauto | apply Hc].
  - intros fuel out Hout ct Hct.
    apply computeTaskPositions_inv in Hout as (flat & Hflat & ->).
    apply list_elem_of_lookup in Hct as [i Hi].
    destruct (Forall2_lookup_r _ _ _ _ _
                (computeRows_entries range w collapsedIds flat 0) Hi)
      as ([t lvl pv] & He & Ht & _ & _ & _ & Hx & Hw & Hbx & Hbw).
    simpl in Ht.
    assert (Hin : mkFlatEntry t lvl pv ∈ flat) by (apply list_elem_of_lookup; eauto).
    apply (flattenTasks_visited tasks collapsedIds _ flat Hflat) in Hin.
    apply visited_in_tasks in Hin.
    split; [rewrite Ht; exact Hin |]. split; [exact Hx |]. split; [exact Hw |].
    rewrite Hbx, Hbw.
    destruct (baselineStart (task ct)) as [bs |], (baselineEnd (task ct)) as [be |];
      rewrite !is_Some_alt; (split; [tauto |]); (split; [tauto |]);
      intros bs' be' [=] [=]; subst; auto.
Qed.

(** C4. The compiler returns on acyclic parent references.  In whatever it
    returns, the entries are those of the flattener in the same order; a
    hidden entry has row index -1, and a visible entry has the number of
    visible entries before it: the row indices of the visible entries are
    0, 1, 2, ... in order of appearance. *)
Theorem rowIndex_counts_visible (tasks : list GanttTask)
    (range : DateRange) (w : Q) (collapsedIds : gset string) :
  (acyclic tasks ->
   is_Some (computeTaskPositions (length tasks) tasks range w collapsedIds))
  /\ forall fuel out,
       computeTaskPositions fuel tasks range w collapsedIds = Some out ->
       flattenTasks fuel tasks collapsedIds
       = Some ((fun ct => mkFlatEntry (task ct) (level ct) (isVisible ct)) <$> out)
       /\ (forall i ct, out !! i = Some ct ->
             (isVisible ct = false -> rowIndex ct = -1)
             /\ (isVisible ct = true ->
                 rowIndex ct
                 = Z.of_nat (length (List.filter isVisible (take i out)))))
       /\ rowIndex <$> List.filter isVisible out
          = Z.of_nat <$> seq 0 (length (List.filter isVisible out)).
Proof.
  split; [apply computeTaskPositions_terminates |].
  intros fuel out Hout.
  apply computeTaskPositions_inv in Hout as (flat & Hflat & ->).
  split; [rewrite computeRows_flat; exact Hflat |]. split.
  - intros i ct Hi.
    rewrite (computeRows_rowIndex range w collapsedIds flat 0 i ct Hi).
    split; intros ->; [reflexivity | lia].
  - rewrite computeRows_visible_rows. apply list_fmap_ext. intros _ n _. lia.
Qed.

(** A list is acyclic when a rank grows from every parent to its child. *)
Lemma acyclic_by_rank (tasks : list GanttTask) (rank : GanttTask -> nat) :
  (forall p t, parentOf tasks p t -> (rank p < rank t)%nat) -> acyclic tasks.
Proof.
  intros Hrank.
  assert (H : forall a t, ancestor tasks a t -> (rank a < rank t)%nat).
  { induction 1 as [a t Hp | a p t _ IH Hp].
    - exact (Hrank a t Hp).
    - pose proof (Hrank p t Hp). lia. }
  intros t Ht. pose proof (H t t Ht). lia.
Qed.

(** * More theorems *)

(** ** utils/date.ts *)

(** X1. A date lies between the start and the end of its day, which are
    one millisecond less than a day apart; both are the same for every
    date of that day. *)
Theorem startOfDay_endOfDay_bracket (d : Date) :
  startOfDay d <= d <= endOfDay d
  /\ endOfDay d = startOfDay d + (MS_PER_DAY - 1)
  /\ forall d', startOfDay d <= d' <= endOfDay d ->
       startOfDay d' = startOfDay d /\ endOfDay d' = endOfDay d.
Proof.
  pose proof (startOfDay_le d) as Hd. rewrite endOfDay_eq.
  split; [unfold msPerDay in *; lia |]. split; [reflexivity |].
  intros d' Hd'.
  assert (E : startOfDay d' = startOfDay d).
  { rewrite (startOfDay_eq d'). rewrite (startOfDay_eq d) in *.
    assert ((d' + tz) / msPerDay = (d + tz) / msPerDay); [| congruence].
    unfold msPerDay in *.
    pose proof (Z.div_mod (d + tz) 86400000 ltac:(lia)).
    pose proof (Z.mod_pos_bound (d + tz) 86400000 ltac:(lia)).
    pose proof (Z.div_mod (d' + tz) 86400000 ltac:(lia)).
    pose proof (Z.mod_pos_bound (d' + tz) 86400000 ltac:(lia)).
    nia. }
  split; [exact E |]. rewrite (endOfDay_eq d'), E. reflexivity.
Qed.

Lemma ToIntegerOrInfinity_nonpos (q : Q) : (q <= 0)%Q -> ToIntegerOrInfinity q <= 0.
Proof.
  destruct q as [n p]. unfold Qle, ToIntegerOrInfinity; simpl. intros Hn.
  assert (0 <= (- n) ÷ Z.pos p) by (apply Z.quot_pos; lia).
  rewrite Z.quot_opp_l in H by lia. lia.
Qed.

(** X2. [addDays] keeps the time of day and moves by the number of days
    rounded down, as long as the day of the month plus the number of days
    is not negative (so for every number of days from -1 on): [setDate]
    truncates its argument. *)
Theorem addDays_rounds_down (d : Date) (days : Q) :
  (0 <= inject_Z (getDate d) + days)%Q ->
  addDays d days = d + Qfloor days * MS_PER_DAY.
Proof.
  intros H. rewrite addDays_eq, ToIntegerOrInfinity_nonneg, Qfloor_add_Z by exact H.
  unfold MS_PER_DAY, msPerDay. lia.
Qed.

(** Whole days add up: adding [a] days and then [b] days is adding
    [a + b] days, adding no day changes nothing, and adding whole days
    commutes with taking the start of the day. *)
Theorem addDays_whole_days_compose (d : Date) (a b : Z) :
  addDays (addDays d (inject_Z a)) (inject_Z b) = addDays d (inject_Z (a + b))
  /\ addDays d 0 = d
  /\ startOfDay (addDays d (inject_Z a)) = addDays (startOfDay d) (inject_Z a).
Proof.
  rewrite !(addDays_integral _ (inject_Z _) _) by reflexivity.
  rewrite (addDays_integral d 0 0) by reflexivity.
  rewrite startOfDay_shift. repeat split; lia.
Qed.

(** X3. In a zone with a constant offset, where every day has
    [MS_PER_DAY] milliseconds, and on exact numbers: adding to [a] the
    difference in days between [a] and a later [b] gives the last instant
    at the time of day of [a] that is not after [b]; it gives [b] exactly
    when the two are whole days apart. *)
Theorem addDays_diffInDays (a b : Date) :
  a <= b ->
  addDays a (diffInDays a b) <= b < addDays a (diffInDays a b) + MS_PER_DAY
  /\ (addDays a (diffInDays a b) = b <-> (b - a) mod MS_PER_DAY = 0).
Proof.
  intros Hle. rewrite addDays_nonneg by (apply diffInDays_nonneg, Hle).
  rewrite diffInDays_floor. unfold MS_PER_DAY, msPerDay.
  pose proof (Z.div_mod (b - a) 86400000 ltac:(lia)).
  pose proof (Z.mod_pos_bound (b - a) 86400000 ltac:(lia)).
  change (24 * 60 * 60 * 1000) with 86400000 in *. lia.
Qed.

Lemma getDay_bounds (d : Date) : 0 <= getDay d < 7.
Proof. unfold getDay, WeekDay. apply Z.mod_pos_bound. lia. Qed.

Lemma getDay_shift (d : Date) (k : Z) :
  getDay (d + k * msPerDay) = (getDay d + k) mod 7.
Proof.
  unfold getDay, WeekDay, Day, LocalTime.
  replace (d + k * msPerDay + tz) with (d + tz + k * msPerDay) by lia.
  rewrite Z.div_add by (unfold msPerDay; lia).
  rewrite Zplus_mod_idemp_l. f_equal. lia.
Qed.

Lemma getDay_startOfDay (d : Date) : getDay (startOfDay d) = getDay d.
Proof.
  unfold getDay, Day, LocalTime. rewrite startOfDay_eq.
  replace ((d + tz) / msPerDay * msPerDay - tz + tz)
    with ((d + tz) / msPerDay * msPerDay) by lia.
  rewrite Z.div_mul by (unfold msPerDay; lia). reflexivity.
Qed.

Lemma startOfWeek_eq (d : Date) (f : Z) :
  startOfWeek d f
  = startOfDay d
    - ((if getDay d <? f then 7 else 0) + getDay d - f) * msPerDay.
Proof.
  unfold startOfWeek. cbv zeta. fold (startOfDay (setDate d
    (inject_Z (getDate d - ((if getDay d <? f then 7 else 0) + getDay d - f))))).
  rewrite setDate_eq, ToIntegerOrInfinity_inject_Z.
  replace (getDate d - ((if getDay d <? f then 7 else 0) + getDay d - f) - getDate d)
    with (- ((if getDay d <? f then 7 else 0) + getDay d - f)) by lia.
  rewrite startOfDay_shift. lia.
Qed.

Lemma startOfWeek_facts (d : Date) (f : Z) :
  f = 0 \/ f = 1 ->
  dayAligned (startOfWeek d f)
  /\ startOfWeek d f <= d < startOfWeek d f + 7 * MS_PER_DAY
  /\ getDay (startOfWeek d f) = f
  /\ startOfWeek (startOfWeek d f) f = startOfWeek d f.
Proof.
  intros Hf.
  pose proof (getDay_bounds d) as Hb. pose proof (startOfDay_le d) as Hd.
  set (diff := (if getDay d <? f then 7 else 0) + getDay d - f).
  assert (Hdiff : 0 <= diff < 7 /\ (getDay d - diff) mod 7 = f).
  { subst diff. destruct (Z.ltb_spec (getDay d) f).
    - replace (getDay d - (7 + getDay d - f)) with (f + (-1) * 7) by lia.
      rewrite Z.mod_add by lia. destruct Hf; subst f; split; try lia; reflexivity.
    - replace (getDay d - (0 + getDay d - f)) with f by lia.
      destruct Hf; subst f; split; try lia; reflexivity. }
  destruct Hdiff as [Hdiff Hmod].
  assert (E : startOfWeek d f = startOfDay d + (- diff) * msPerDay)
    by (rewrite startOfWeek_eq; fold diff; lia).
  assert (Hday : getDay (startOfWeek d f) = f).
  { rewrite E, getDay_shift, getDay_startOfDay.
    replace (getDay d + - diff) with (getDay d - diff) by lia. exact Hmod. }
  assert (Hal : dayAligned (startOfWeek d f)).
  { unfold dayAligned. rewrite E, startOfDay_shift, startOfDay_idempotent.
    reflexivity. }
  split; [exact Hal |]. split; [| split; [exact Hday |]].
  - rewrite E. unfold MS_PER_DAY, msPerDay in *. lia.
  - rewrite (startOfWeek_eq (startOfWeek d f)), Hday, Hal.
    destruct Hf; subst f; simpl; lia.
Qed.

(** X4. For a first day of the week of 0 (Sunday) or 1 (Monday),
    [startOfWeek] is the local midnight of the last such weekday at or
    before the date: it is day-aligned, at most the date and less than
    seven days before it, falls on that weekday, and is its own start of
    the week. *)
Theorem startOfWeek_spec (d : Date) (f : Z) :
  f = 0 \/ f = 1 ->
  dayAligned (startOfWeek d f)
  /\ startOfWeek d f <= d < startOfWeek d f + 7 * MS_PER_DAY
  /\ getDay (startOfWeek d f) = f
  /\ startOfWeek (startOfWeek d f) f = startOfWeek d f.
Proof. apply startOfWeek_facts. Qed.

Lemma addWeeks_integral (d : Date) (k : Z) :
  addWeeks d (inject_Z k) = d + (7 * k) * msPerDay.
Proof.
  unfold addWeeks. apply addDays_integral.
  rewrite inject_Z_mult. apply Qmult_comm.
Qed.

(** X5. Weekends repeat weekly, and every seven consecutive days hold
    exactly two weekend days. *)
Theorem isWeekend_weekly (d : Date) (k : Z) :
  isWeekend (addWeeks d (inject_Z k)) = isWeekend d
  /\ length (List.filter isWeekend
               (List.map (fun n => addDays d (inject_Z n)) [0; 1; 2; 3; 4; 5; 6]))
     = 2%nat.
Proof.
  split.
  - unfold isWeekend. rewrite addWeeks_integral, getDay_shift.
    replace (getDay d + 7 * k) with (getDay d + k * 7) by lia.
    rewrite Z.mod_add by lia.
    rewrite Z.mod_small by apply getDay_bounds. reflexivity.
  - cbn [List.map List.filter].
    rewrite !(addDays_integral d (inject_Z _) _) by reflexivity.
    unfold isWeekend. rewrite !getDay_shift.
    pose proof (getDay_bounds d) as Hb.
    assert (Hc : getDay d = 0 \/ getDay d = 1 \/ getDay d = 2 \/ getDay d = 3
                 \/ getDay d = 4 \/ getDay d = 5 \/ getDay d = 6) by lia.
    destruct Hc as [-> | [-> | [-> | [-> | [-> | [-> | ->]]]]]]; reflexivity.
Qed.

Lemma Math_ceil_diffInDays (a b : Date) :
  Math_ceil (diffInDays a b) = - ((a - b) / MS_PER_DAY).
Proof.
  unfold Math_ceil, Qceiling, Qfloor, diffInDays, MS_PER_DAY, Qdiv, Qmult, Qopp,
    inject_Z; simpl.
  rewrite Z.mul_1_r. do 2 f_equal. lia.
Qed.

(** The range from the start of the day of [a] to the end of the day of
    [b] covers a whole number of days, which is what [Math.ceil] of its
    length in days gives. *)
Lemma day_range_totalDays (a b : Date) :
  endOfDay b - startOfDay a
  = Math_ceil (diffInDays (startOfDay a) (endOfDay b)) * MS_PER_DAY - 1.
Proof.
  rewrite Math_ceil_diffInDays, endOfDay_eq, !startOfDay_eq.
  unfold MS_PER_DAY, msPerDay. change (24 * 60 * 60 * 1000) with 86400000.
  set (p := (a + tz) / 86400000). set (q := (b + tz) / 86400000).
  replace (p * 86400000 - tz - (q * 86400000 - tz + (86400000 - 1)))
    with (1 + (p - q - 1) * 86400000) by lia.
  rewrite Z.div_add by lia. rewrite (Z.div_small 1) by lia. lia.
Qed.

Lemma calculateDateRange_shape (now : Date) (tasks : list GanttTask)
    (padding : Q) (customRange : option (Date * Date)) :
  customRange <> None \/ tasks <> [] ->
  exists n : Z,
    totalDays (calculateDateRange now tasks padding customRange) = inject_Z n
    /\ range_end (calculateDateRange now tasks padding customRange)
       - range_start (calculateDateRange now tasks padding customRange)
       = n * MS_PER_DAY - 1
    /\ dayAligned (range_start (calculateDateRange now tasks padding customRange)).
Proof.
  intros H. unfold calculateDateRange.
  destruct customRange as [[cs ce] |].
  - eexists. split; [reflexivity |]. cbn [range_start range_end].
    split; [apply day_range_totalDays | apply startOfDay_idempotent].
  - destruct tasks as [| t0 rest]; [destruct H; congruence |].
    destruct (foldl rangeStep (start t0, end_ t0) (t0 :: rest)) as [lo hi].
    eexists. split; [reflexivity |]. cbn [range_start range_end].
    split; [apply day_range_totalDays | apply startOfDay_idempotent].
Qed.

(** X6. In a zone with a constant offset, where every day has
    [MS_PER_DAY] milliseconds: with a custom range or a task list that is
    not empty, the range goes from a local midnight to a last millisecond
    of a day, and [totalDays] is the whole number of days it covers. *)
Theorem calculateDateRange_totalDays (now : Date) (tasks : list GanttTask)
    (padding : Q) (customRange : option (Date * Date)) :
  customRange <> None \/ tasks <> [] ->
  exists n : Z,
    totalDays (calculateDateRange now tasks padding customRange) = inject_Z n
    /\ range_end (calculateDateRange now tasks padding customRange)
       - range_start (calculateDateRange now tasks padding customRange)
       = n * MS_PER_DAY - 1
    /\ dayAligned (range_start (calculateDateRange now tasks padding customRange)).
Proof. apply calculateDateRange_shape. Qed.

(** X7. Without tasks and without a custom range, the range is centred on
    the current day: for a padding of [k] whole days it starts [k] days
    before the start of today and ends [k] days after the end of today.
    It covers [2k + 1] days, while [totalDays] is [2k]. *)
Theorem calculateDateRange_no_tasks (now : Date) (padding : Q) (k : Z) :
  (padding == inject_Z k)%Q ->
  range_start (calculateDateRange now [] padding None)
  = startOfDay now - k * MS_PER_DAY
  /\ range_end (calculateDateRange now [] padding None)
     = endOfDay now + k * MS_PER_DAY
  /\ (totalDays (calculateDateRange now [] padding None) == inject_Z (2 * k))%Q
  /\ range_end (calculateDateRange now [] padding None)
     - range_start (calculateDateRange now [] padding None)
     = (2 * k + 1) * MS_PER_DAY - 1.
Proof.
  intros Hk. unfold calculateDateRange. cbn [range_start range_end totalDays].
  rewrite (addDays_integral _ (- padding) (- k))
    by (rewrite Hk, inject_Z_opp; reflexivity).
  rewrite (addDays_integral _ padding k) by exact Hk.
  rewrite !endOfDay_eq, !startOfDay_shift.
  unfold MS_PER_DAY, msPerDay. repeat split; try lia.
  rewrite Hk, inject_Z_mult. apply Qmult_comm.
Qed.

Lemma addDays_back (d : Date) (p : Q) : (0 <= p)%Q -> addDays d (- p) <= d.
Proof.
  intros Hp. rewrite addDays_eq.
  pose proof (DateFromDay_pos (Day (LocalTime d))) as Hg. fold (getDate d) in Hg.
  assert (ToIntegerOrInfinity (inject_Z (getDate d) + - p) <= getDate d);
    [| unfold msPerDay; nia].
  destruct (Qlt_le_dec (inject_Z (getDate d) + - p) 0) as [Hneg | Hpos].
  - pose proof (ToIntegerOrInfinity_nonpos _ (Qlt_le_weak _ _ Hneg)). lia.
  - rewrite ToIntegerOrInfinity_nonneg, Qfloor_add_Z by exact Hpos.
    assert (Qfloor (- p) <= 0); [| lia].
    change 0 with (Qfloor 0). apply Qfloor_resp_le. lra.
Qed.

Lemma addDays_forth (d : Date) (p : Q) : (0 <= p)%Q -> d <= addDays d p.
Proof.
  intros Hp. rewrite addDays_nonneg by exact Hp.
  assert (0 <= Qfloor p); [| unfold msPerDay; nia].
  change 0 with (Qfloor 0). apply Qfloor_resp_le. exact Hp.
Qed.

(** X8. With a padding that is not negative, the range derived from a task
    list starts at or before every start and every baseline start of the
    list, and ends at or after every end and every baseline end.  So a
    task that does not end before it starts lies in the range, and so
    does a baseline that has both dates in order.  Starts are not
    compared with the end of the range, nor ends with its start. *)
Theorem calculateDateRange_contains_tasks (now : Date)
    (tasks : list GanttTask) (padding : Q) (t : GanttTask) :
  (0 <= padding)%Q -> t ∈ tasks ->
  let r := calculateDateRange now tasks padding None in
  (range_start r <= start t /\ end_ t <= range_end r
   /\ (forall b, baselineStart t = Some b -> range_start r <= b)
   /\ (forall b, baselineEnd t = Some b -> b <= range_end r))
  /\ (start t <= end_ t ->
      range_start r <= start t <= range_end r
      /\ range_start r <= end_ t <= range_end r)
  /\ (forall bs be,
        baselineStart t = Some bs -> baselineEnd t = Some be -> bs <= be ->
        range_start r <= bs <= range_end r /\ range_start r <= be <= range_end r).
Proof.
  intros Hp Ht r.
  assert (Hone : range_start r <= start t /\ end_ t <= range_end r
                 /\ (forall b, baselineStart t = Some b -> range_start r <= b)
                 /\ (forall b, baselineEnd t = Some b -> b <= range_end r));
    [| destruct Hone as (H1 & H2 & H3 & H4);
       split; [repeat split; assumption |];
       split;
       [ intros Hle; lia
       | intros bs be Hbs Hbe Hle;
         specialize (H3 bs Hbs); specialize (H4 be Hbe); lia ] ].
  subst r. destruct tasks as [| t0 rest]; [inversion Ht |].
  unfold calculateDateRange. rewrite foldl_rangeStep.
  set (tasks := t0 :: rest) in *. cbn [range_start range_end].
  destruct (foldl_min_minimum (spanStarts tasks) (start t0)) as [_ Hmin].
  destruct (foldl_max_maximum (spanEnds tasks) (end_ t0)) as [_ Hmax].
  set (lo := foldl Z.min (start t0) (spanStarts tasks)) in *.
  set (hi := foldl Z.max (end_ t0) (spanEnds tasks)) in *.
  pose proof (addDays_back lo padding Hp) as Hlo.
  pose proof (addDays_forth hi padding Hp) as Hhi.
  pose proof (startOfDay_le (addDays lo (- padding))) as Hs.
  pose proof (startOfDay_le (addDays hi padding)) as He.
  rewrite endOfDay_eq.
  assert (Hin : forall f (d : Date),
             d ∈ f t -> d ∈ flat_map f tasks).
  { intros f d Hd. apply list_elem_of_In, in_flat_map. exists t.
    split; apply list_elem_of_In; assumption. }
  repeat split.
  - assert (lo <= start t); [| lia].
    apply Hmin. right. apply (Hin (fun t => start t :: option_list (baselineStart t))).
    left.
  - assert (end_ t <= hi); [| unfold msPerDay in *; lia].
    apply Hmax. right. apply (Hin (fun t => end_ t :: option_list (baselineEnd t))).
    left.
  - intros b Hb. assert (lo <= b); [| lia].
    apply Hmin. right. apply (Hin (fun t => start t :: option_list (baselineStart t))).
    rewrite Hb. right; left.
  - intros b Hb. assert (b <= hi); [| unfold msPerDay in *; lia].
    apply Hmax. right. apply (Hin (fun t => end_ t :: option_list (baselineEnd t))).
    rewrite Hb. right; left.
Qed.

(** *** The grid *)

(** A loop whose step adds a constant: the dates are the current one and
    its successors up to the end, and the rounds needed are one more than
    their number. *)
Lemma gridLoop_steps (step : Z) (next : Date -> Date) (end_ : Date) :
  0 < step -> (forall c, next c = c + step) ->
  forall (n fuel : nat) (cur : Date) (acc : list Date),
    (n < fuel)%nat -> n = Z.to_nat ((end_ - cur) / step + 1) ->
    gridLoop fuel next end_ cur acc
    = Some (acc ++ List.map (fun k => cur + Z.of_nat k * step) (seq 0 n)).
Proof.
  intros Hstep Hnext. induction n as [| n IH]; intros fuel cur acc Hfuel Hn;
    (destruct fuel as [| fuel]; [lia |]); cbn [gridLoop].
  - assert (end_ < cur).
    { destruct (Z.lt_ge_cases end_ cur) as [Hlt | Hge]; [exact Hlt |].
      assert (0 <= (end_ - cur) / step) by (apply Z.div_pos; lia). lia. }
    destruct (Z.leb_spec cur end_); [lia |]. simpl. rewrite app_nil_r. reflexivity.
  - assert (Hq : 0 <= (end_ - cur) / step) by lia.
    assert (cur <= end_).
    { destruct (Z.le_gt_cases cur end_) as [Hle | Hgt]; [exact Hle |].
      assert ((end_ - cur) / step < 0) by (apply Z.div_lt_upper_bound; lia). lia. }
    destruct (Z.leb_spec cur end_); [| lia].
    rewrite Hnext, (IH fuel (cur + step) (acc ++ [cur])); [| lia |].
    + rewrite <- app_assoc. cbn [app seq List.map]. do 3 f_equal; [lia |].
      rewrite <- seq_shift, List.map_map. apply List.map_ext. intros k. lia.
    + replace (end_ - (cur + step)) with (end_ - cur + (-1) * step) by lia.
      rewrite Z.div_add by lia. lia.
Qed.

Lemma gridLoop_dates_in_range (step : Z) (end_ cur : Date) (n : nat) (d : Date) :
  0 < step -> n = Z.to_nat ((end_ - cur) / step + 1) ->
  d ∈ List.map (fun k => cur + Z.of_nat k * step) (seq 0 n) ->
  cur <= d <= end_.
Proof.
  intros Hstep Hn Hd. apply list_elem_of_In, in_map_iff in Hd as (k & <- & Hk).
  apply in_seq in Hk.
  pose proof (Z.div_mod (end_ - cur) step ltac:(lia)).
  pose proof (Z.mod_pos_bound (end_ - cur) step Hstep). nia.
Qed.

(** X9. In a zone with a constant offset, where every day has
    [MS_PER_DAY] milliseconds: in the day view the grid is the start of
    the range and the same time on each following day, up to the end of
    the range: it returns after one round more than the number of dates,
    every date lies in the range, and the range that ends before it
    starts has an empty grid. *)
Theorem generateDateGrid_day (fuel : nat) (r : DateRange) (f : Z) :
  let n := Z.to_nat ((range_end r - range_start r) / MS_PER_DAY + 1) in
  (n < fuel)%nat ->
  generateDateGrid fuel r day f
  = Some (List.map (fun k => range_start r + Z.of_nat k * MS_PER_DAY) (seq 0 n))
  /\ (forall d,
        d ∈ List.map (fun k => range_start r + Z.of_nat k * MS_PER_DAY) (seq 0 n) ->
        range_start r <= d <= range_end r)
  /\ (range_end r < range_start r -> n = 0%nat).
Proof.
  intros n Hfuel. split; [| split].
  - unfold generateDateGrid.
    assert (Hnext : forall c, addDays c 1 = c + MS_PER_DAY)
      by (intros c; apply (addDays_integral c 1 1); reflexivity).
    rewrite (gridLoop_steps MS_PER_DAY (fun c => addDays c 1) _
               ltac:(reflexivity) Hnext n fuel _ [] Hfuel eq_refl).
    reflexivity.
  - intros d Hd. exact (gridLoop_dates_in_range MS_PER_DAY _ _ n d
                          ltac:(reflexivity) eq_refl Hd).
  - intros Hlt. subst n.
    assert ((range_end r - range_start r) / MS_PER_DAY < 0)
      by (apply Z.div_lt_upper_bound; [reflexivity | lia]).
    lia.
Qed.

(** X10. In the week view the grid starts at the start of the week of the
    start of the range, which can be up to six days before the range, and
    goes on in steps of seven days up to the end of the range. *)
Theorem generateDateGrid_week (fuel : nat) (r : DateRange) (f : Z) :
  f = 0 \/ f = 1 ->
  let first := startOfWeek (range_start r) f in
  let n := Z.to_nat ((range_end r - first) / (7 * MS_PER_DAY) + 1) in
  (n < fuel)%nat ->
  generateDateGrid fuel r week f
  = Some (List.map (fun k => first + Z.of_nat k * (7 * MS_PER_DAY)) (seq 0 n))
  /\ first <= range_start r < first + 7 * MS_PER_DAY
  /\ forall d,
       d ∈ List.map (fun k => first + Z.of_nat k * (7 * MS_PER_DAY)) (seq 0 n) ->
       getDay d = f /\ d <= range_end r.
Proof.
  intros Hf first n Hfuel.
  destruct (startOfWeek_facts (range_start r) f Hf) as (_ & Hrange & Hday & _).
  split; [| split; [exact Hrange |]].
  - unfold generateDateGrid.
    assert (Hnext : forall c, addWeeks c 1 = c + 7 * MS_PER_DAY)
      by (intros c; apply (addWeeks_integral c 1)).
    cbv zeta. fold first.
    rewrite (gridLoop_steps (7 * MS_PER_DAY) (fun c => addWeeks c 1) _
               ltac:(reflexivity) Hnext n fuel first [] Hfuel eq_refl).
    reflexivity.
  - intros d Hd. split.
    + apply list_elem_of_In, in_map_iff in Hd as (k & <- & _).
      replace (Z.of_nat k * (7 * MS_PER_DAY)) with ((7 * Z.of_nat k) * msPerDay)
        by (unfold MS_PER_DAY, msPerDay; lia).
      rewrite getDay_shift. fold first in Hday. rewrite Hday.
      replace (f + 7 * Z.of_nat k) with (f + Z.of_nat k * 7) by lia.
      rewrite Z.mod_add by lia. destruct Hf; subst f; reflexivity.
    + apply (gridLoop_dates_in_range (7 * MS_PER_DAY) _ first n d
               ltac:(reflexivity) eq_refl Hd).
Qed.

Lemma Math_ceil_sevenths (n : Z) : Math_ceil (inject_Z n / 7) = - ((- n) / 7).
Proof.
  unfold Math_ceil, Qceiling, Qfloor, Qdiv, Qmult, Qopp, inject_Z; simpl.
  rewrite Z.mul_1_r. reflexivity.
Qed.

(** X11. In a zone with a constant offset, where every day has
    [MS_PER_DAY] milliseconds: for a range derived from tasks or from a
    custom range that does
    not end before it starts, the grid of the day view has exactly
    [totalDays] columns, so that the columns, each [getColumnWidth] wide,
    fill the chart width exactly. *)
Theorem day_grid_fills_chart (now : Date) (tasks : list GanttTask)
    (padding : Q) (customRange : option (Date * Date)) (f : Z) :
  customRange <> None \/ tasks <> [] ->
  range_start (calculateDateRange now tasks padding customRange)
  <= range_end (calculateDateRange now tasks padding customRange) ->
  exists grid,
    generateDateGrid (S (length grid))
      (calculateDateRange now tasks padding customRange) day f = Some grid
    /\ (inject_Z (Z.of_nat (length grid))
        == totalDays (calculateDateRange now tasks padding customRange))%Q
    /\ (inject_Z (Z.of_nat (length grid)) * getColumnWidth day
        == calculateChartWidth (calculateDateRange now tasks padding customRange) day)%Q.
Proof.
  intros Hsrc Hle.
  destruct (calculateDateRange_shape now tasks padding customRange Hsrc)
    as (n & Htotal & Hlen & _).
  set (r := calculateDateRange now tasks padding customRange) in *.
  set (m := Z.to_nat ((range_end r - range_start r) / MS_PER_DAY + 1)).
  assert (Hm : Z.of_nat m = n).
  { subst m. rewrite Hlen.
    replace (n * MS_PER_DAY - 1) with (MS_PER_DAY - 1 + (n - 1) * MS_PER_DAY) by lia.
    rewrite Z.div_add by discriminate.
    rewrite (Z.div_small (MS_PER_DAY - 1)) by (unfold MS_PER_DAY; lia).
    unfold MS_PER_DAY in Hlen. lia. }
  exists (List.map (fun k => range_start r + Z.of_nat k * MS_PER_DAY) (seq 0 m)).
  rewrite length_map, length_seq.
  split; [| split].
  - unfold generateDateGrid.
    assert (Hnext : forall c, addDays c 1 = c + MS_PER_DAY)
      by (intros c; apply (addDays_integral c 1 1); reflexivity).
    apply (gridLoop_steps MS_PER_DAY (fun c => addDays c 1) _
             ltac:(reflexivity) Hnext m (S m) _ [] ltac:(lia) eq_refl).
  - rewrite Hm, Htotal. reflexivity.
  - unfold calculateChartWidth. rewrite Hm, Htotal. reflexivity.
Qed.

(** X12. In a zone with a constant offset, where every day has
    [MS_PER_DAY] milliseconds: for such a range the grid of the week view
    has as many columns
    as the chart is wide, or one more: the chart is [ceil(totalDays / 7)]
    columns wide, while the grid starts at the start of a week and needs a
    column for every week the range touches. *)
Theorem week_grid_columns (now : Date) (tasks : list GanttTask)
    (padding : Q) (customRange : option (Date * Date)) (f : Z) :
  customRange <> None \/ tasks <> [] -> f = 0 \/ f = 1 ->
  range_start (calculateDateRange now tasks padding customRange)
  <= range_end (calculateDateRange now tasks padding customRange) ->
  exists grid,
    generateDateGrid (S (length grid))
      (calculateDateRange now tasks padding customRange) week f = Some grid
    /\ (calculateChartWidth (calculateDateRange now tasks padding customRange) week
        <= inject_Z (Z.of_nat (length grid)) * getColumnWidth week)%Q
    /\ (inject_Z (Z.of_nat (length grid)) * getColumnWidth week
        <= calculateChartWidth (calculateDateRange now tasks padding customRange) week
           + getColumnWidth week)%Q.
Proof.
  intros Hsrc Hf Hle.
  destruct (calculateDateRange_shape now tasks padding customRange Hsrc)
    as (n & Htotal & Hlen & Hal).
  set (r := calculateDateRange now tasks padding customRange) in *.
  set (first := startOfWeek (range_start r) f).
  set (m := Z.to_nat ((range_end r - first) / (7 * MS_PER_DAY) + 1)).
  destruct (startOfWeek_facts (range_start r) f Hf) as (_ & Hrange & _ & _).
  fold first in Hrange.
  assert (Hfirst : exists diff, first = range_start r - diff * MS_PER_DAY).
  { eexists. unfold first. rewrite startOfWeek_eq, Hal. reflexivity. }
  destruct Hfirst as [diff Hdiff].
  assert (Hm : - ((- n) / 7) <= Z.of_nat m <= - ((- n) / 7) + 1).
  { subst m. unfold MS_PER_DAY in *.
    change (24 * 60 * 60 * 1000) with 86400000 in *.
    pose proof (Z.div_mod (range_end r - first) (7 * 86400000) ltac:(lia)).
    pose proof (Z.mod_pos_bound (range_end r - first) (7 * 86400000) ltac:(lia)).
    pose proof (Z.div_mod (- n) 7 ltac:(lia)).
    pose proof (Z.mod_pos_bound (- n) 7 ltac:(lia)).
    lia. }
  exists (List.map (fun k => first + Z.of_nat k * (7 * MS_PER_DAY)) (seq 0 m)).
  rewrite length_map, length_seq. split.
  - unfold generateDateGrid. cbv zeta. fold first.
    assert (Hnext : forall c, addWeeks c 1 = c + 7 * MS_PER_DAY)
      by (intros c; apply (addWeeks_integral c 1)).
    apply (gridLoop_steps (7 * MS_PER_DAY) (fun c => addWeeks c 1) _
             ltac:(reflexivity) Hnext m (S m) first [] ltac:(lia) eq_refl).
  - unfold calculateChartWidth, getColumnWidth. rewrite Htotal, Math_ceil_sevenths.
    change 120%Q with (inject_Z 120).
    rewrite <- !inject_Z_mult, <- inject_Z_plus, <- !Zle_Qle. lia.
Qed.

(** ** utils/position.ts *)

Lemma dateToX_scale (d : Date) (r : DateRange) (w : Q) :
  range_start r < range_end r ->
  (dateToX d r w
   == inject_Z (d - range_start r) * (w / inject_Z (range_end r - range_start r)))%Q.
Proof.
  intros Hr. unfold dateToX. field.
  change 0%Q with (inject_Z 0). rewrite inject_Z_injective. lia.
Qed.

Lemma pixelsPerMs_pos (r : DateRange) (w : Q) :
  range_start r < range_end r -> (0 < w)%Q ->
  (0 < w / inject_Z (range_end r - range_start r))%Q.
Proof.
  intros Hr Hw. apply Qlt_shift_div_l.
  - change 0%Q with (inject_Z 0). rewrite <- Zlt_Qlt. lia.
  - rewrite Qmult_0_l. exact Hw.
Qed.


Lemma dateToX_lt (d1 d2 : Date) (r : DateRange) (w : Q) :
  range_start r < range_end r -> (0 < w)%Q -> d1 < d2 ->
  (dateToX d1 r w < dateToX d2 r w)%Q.
Proof.
  intros Hr Hw Hd. rewrite !dateToX_scale by exact Hr.
  apply Qmult_lt_compat_r; [apply pixelsPerMs_pos; assumption |].
  rewrite <- Zlt_Qlt. lia.
Qed.

(** X13. For a range with [start < end] and a width [w > 0], [dateToX] is
    the linear scale that puts the start of the range at 0 and its end at
    [w]: it is strictly increasing, and the distance in pixels between two
    dates depends only on the time between them. *)
Theorem dateToX_linear (r : DateRange) (w : Q) :
  range_start r < range_end r -> (0 < w)%Q ->
  (dateToX (range_start r) r w == 0)%Q
  /\ (dateToX (range_end r) r w == w)%Q
  /\ (forall d1 d2, d1 < d2 -> (dateToX d1 r w < dateToX d2 r w)%Q)
  /\ (forall d k : Z,
        (dateToX (d + k)%Z r w - dateToX d r w
         == dateToX (range_start r + k)%Z r w)%Q).
Proof.
  intros Hr Hw.
  assert (Ht : ~ (inject_Z (range_end r - range_start r) == 0)%Q).
  { change 0%Q with (inject_Z 0). rewrite inject_Z_injective. lia. }
  split; [| split; [| split]].
  - rewrite dateToX_scale by exact Hr. rewrite Z.sub_diag. apply Qmult_0_l.
  - unfold dateToX. field. exact Ht.
  - intros d1 d2 Hd. apply dateToX_lt; assumption.
  - intros d k. rewrite !dateToX_scale by exact Hr.
    replace (d + k - range_start r) with ((d - range_start r) + k) by lia.
    replace (range_start r + k - range_start r) with k by lia.
    rewrite inject_Z_plus. ring.
Qed.



(** X16. For a row height of at least 160/11 (about 14.6) pixels, the two
    bars of a row stay inside the band of the row: the task bar starts at
    or below the top of the row, the baseline bar starts exactly 2 pixels
    below the bottom of the task bar, and it ends at or above the bottom of
    the row.  Both bars have a positive height, of at most 20 and 8
    pixels. *)
Theorem getBarDimensions_layout (rowIndex rowHeight : Q) :
  (160 # 11 <= rowHeight)%Q ->
  let dims := getBarDimensions rowIndex rowHeight in
  (getRowY rowIndex rowHeight <= bar_y (taskBar dims))%Q
  /\ (bar_y (baselineBar dims)
      == bar_y (taskBar dims) + bar_height (taskBar dims) + 2)%Q
  /\ (bar_y (baselineBar dims) + bar_height (baselineBar dims)
      <= getRowY (rowIndex + 1) rowHeight)%Q
  /\ (0 < bar_height (taskBar dims) <= 20)%Q
  /\ (0 < bar_height (baselineBar dims) <= 8)%Q.
Proof.
  intros Hrow. cbv zeta.
  unfold getBarDimensions, getBaselineBarY, getTaskBarY, getRowY, Math_min.
  cbn [taskBar baselineBar bar_y bar_height].
  set (h := Qmin (rowHeight * (45 # 100)) 20).
  set (b := Qmin (rowHeight * (2 # 10)) 8).
  set (top := (rowIndex * rowHeight)%Q).
  assert (Hh : (h <= rowHeight * (45 # 100))%Q /\ (h <= 20)%Q /\ (0 < h)%Q).
  { subst h. split; [apply Q.le_min_l |]. split; [apply Q.le_min_r |].
    apply Q.min_glb_lt; lra. }
  assert (Hb : (b <= rowHeight * (2 # 10))%Q /\ (b <= 8)%Q /\ (0 < b)%Q).
  { subst b. split; [apply Q.le_min_l |]. split; [apply Q.le_min_r |].
    apply Q.min_glb_lt; lra. }
  destruct Hh as (Hh1 & Hh2 & Hh3), Hb as (Hb1 & Hb2 & Hb3).
  assert (Hnext : ((rowIndex + 1) * rowHeight == top + rowHeight)%Q)
    by (unfold top; ring).
  assert (Hmid : ((rowHeight - h) / 2 == rowHeight * (1 # 2) - h * (1 # 2))%Q)
    by field.
  rewrite Hnext, Hmid.
  repeat split; try assumption; try lra.
Qed.

(** With resizing allowed, a bar of at most 16 pixels has no zone for
    moving: at every position on the bar the cursor is the one for
    resizing.  With resizing switched off the cursor never is. *)
Theorem getCursorStyle_narrow_bar (px : Q) (t : ComputedTask) :
  getCursorStyle px t false = pointer
  /\ ((x t <= px <= x t + width t)%Q -> (width t <= 16)%Q ->
      getCursorStyle px t true = ew_resize).
Proof.
  split; [reflexivity |].
  intros [Hl Hr] Hw. unfold getCursorStyle, isOnLeftEdge, isOnRightEdge. cbv zeta.
  cbn [negb].
  assert (Hle : forall a b, (a <= b)%Q -> Qle_bool a b = true)
    by (intros a b H; apply Qle_bool_iff, H).
  rewrite (Hle _ _ Hl), (Hle _ _ Hr). cbn [andb].
  destruct (Qlt_le_dec (x t + 8) px) as [Hfar | Hnear].
  - rewrite (Hle (x t + width t - 8)%Q px) by lra.
    rewrite orb_true_r. reflexivity.
  - rewrite (Hle _ _ Hnear). reflexivity.
Qed.

(** ** utils/position.ts: more on the flattener and the compiler *)

(** Two runs of the traversal on the same list, with two sets of collapsed
    identities: [Rv] relates the visibility the two runs pass down. *)
Section TwoRuns.

Variable tasks : list GanttTask.
Variables c c' : gset string.
Variable Rv : bool -> bool -> Prop.
Hypothesis Rv_step :
  forall b b' k, Rv b b' ->
    Rv (b && negb (Set_has c k)) (b' && negb (Set_has c' k)).

Lemma mapM_related {A : Type} (f f' : A -> option (list FlatEntry)) (l : list A)
    (rs : list (list FlatEntry)) :
  (forall a r, a ∈ l -> f a = Some r ->
     exists r', f' a = Some r' /\ Forall2 (sameEntry Rv) r r') ->
  mapM f l = Some rs ->
  exists rs', mapM f' l = Some rs' /\ Forall2 (sameEntry Rv) (concat rs) (concat rs').
Proof.
  intros Hf Hm. apply mapM_Some in Hm.
  induction Hm as [| a r l rs Ha _ IH].
  - exists []. split; [reflexivity | constructor].
  - destruct (Hf a r ltac:(left) Ha) as (r' & Hr' & HR).
    destruct IH as (rs' & Hrs' & HRs).
    { intros a0 r0 Hin. apply Hf. right; exact Hin. }
    exists (r' :: rs'). split.
    + apply mapM_Some. constructor; [exact Hr' | apply mapM_Some, Hrs'].
    + simpl. apply Forall2_app; assumption.
Qed.

Lemma addTask_related (fuel : nat) :
  forall t lvl pv pv' out,
    Rv pv pv' ->
    addTask tasks c fuel [] t lvl pv = Some out ->
    exists out',
      addTask tasks c' fuel [] t lvl pv' = Some out' /\ Forall2 (sameEntry Rv) out out'.
Proof.
  induction fuel as [| fuel IH]; intros t lvl pv pv' out HR Hout; [discriminate |].
  apply addTask_inv in Hout as (fuel' & rs & [= <-] & Hm & ->).
  destruct (mapM_related
              (fun child => addTask tasks c fuel [] child (lvl + 1)%nat
                              (pv && negb (Set_has c (id t))))
              (fun child => addTask tasks c' fuel [] child (lvl + 1)%nat
                              (pv' && negb (Set_has c' (id t))))
              (List.filter (isChildOf t) tasks) rs) as (rs' & Hm' & HRs);
    [| exact Hm |].
  { intros ch r _ Hr. cbv beta in Hr |- *.
    eapply IH; [apply Rv_step, HR | exact Hr]. }
  exists (mkFlatEntry t lvl pv' :: concat rs'). split.
  - rewrite addTask_unfold, Hm'. reflexivity.
  - constructor; [repeat split; exact HR | exact HRs].
Qed.

Lemma flattenTasks_related (fuel : nat) (out : list FlatEntry) :
  Rv true true ->
  flattenTasks fuel tasks c = Some out ->
  exists out',
    flattenTasks fuel tasks c' = Some out' /\ Forall2 (sameEntry Rv) out out'.
Proof.
  intros HR Hout. rewrite flattenTasks_unfold in Hout.
  destruct (mapM _ _) as [rs |] eqn:Hm; simpl in Hout; [| discriminate].
  injection Hout as <-.
  destruct (mapM_related
              (fun t => addTask tasks c fuel [] t 0%nat true)
              (fun t => addTask tasks c' fuel [] t 0%nat true)
              (List.filter (isRootTask tasks) tasks) rs)
    as (rs' & Hm' & HRs); [| exact Hm |].
  { intros t r _ Hr. cbv beta in Hr |- *.
    eapply addTask_related; [exact HR | exact Hr]. }
  exists (concat rs'). split; [| exact HRs].
  rewrite flattenTasks_unfold, Hm'. reflexivity.
Qed.

End TwoRuns.

(** X17. Which tasks are collapsed changes neither the order nor the
    levels of the flattened list, nor whether the flattener returns: with
    another set of collapsed identities the output has the same tasks at
    the same levels in the same order. *)
Theorem flattenTasks_order_independent (tasks : list GanttTask)
    (c c' : gset string) (fuel : nat) (out : list FlatEntry) :
  flattenTasks fuel tasks c = Some out ->
  exists out',
    flattenTasks fuel tasks c' = Some out'
    /\ (fun e => (flat_task e, flat_level e)) <$> out'
       = (fun e => (flat_task e, flat_level e)) <$> out.
Proof.
  intros Hout.
  assert (Hstep : forall b b' k, True ->
             (fun _ _ : bool => True) (b && negb (Set_has c k))
               (b' && negb (Set_has c' k))) by (intros; exact I).
  destruct (flattenTasks_related tasks c c' (fun _ _ => True) Hstep fuel out I Hout)
    as (out' & Hout' & HR).
  exists out'. split; [exact Hout' |]. clear Hout Hout'.
  induction HR as [| e e' l l' (Ht & Hl & _) _ IH]; [reflexivity |].
  rewrite !fmap_cons, IH, Ht, Hl. reflexivity.
Qed.

(** X18. Collapsing more never shows more: when every identity collapsed
    in the first run is collapsed in the second, an entry visible in the
    second run is visible in the first, entry by entry, and the second run
    has at most as many visible rows. *)
Theorem flattenTasks_collapse_monotone (tasks : list GanttTask)
    (c c' : gset string) (fuel : nat) (out : list FlatEntry) :
  c ⊆ c' ->
  flattenTasks fuel tasks c = Some out ->
  exists out',
    flattenTasks fuel tasks c' = Some out'
    /\ Forall2 (fun e e' =>
                  flat_task e = flat_task e'
                  /\ (flat_isVisible e' = true -> flat_isVisible e = true))
         out out'
    /\ (length (List.filter flat_isVisible out')
        <= length (List.filter flat_isVisible out))%nat.
Proof.
  intros Hsub Hout.
  destruct (flattenTasks_related tasks c c' (fun b b' => b' = true -> b = true))
    with (fuel := fuel) (out := out) as (out' & Hout' & HR);
    [| auto | exact Hout |].
  { intros b b' k Hb H. apply andb_true_iff in H as [H1 H2].
    rewrite (Hb H1). simpl. unfold Set_has in *.
    apply negb_true_iff, bool_decide_eq_false in H2.
    apply negb_true_iff, bool_decide_eq_false. set_solver. }
  exists out'. split; [exact Hout' |]. split.
  - eapply Forall2_impl; [exact HR |]. intros e e' (Ht & _ & Hv). auto.
  - clear Hout Hout'.
    induction HR as [| e e' l l' (_ & _ & Hv) _ IH]; [reflexivity |].
    cbn [List.filter]. destruct (flat_isVisible e') eqn:E'.
    + rewrite (Hv eq_refl). simpl. lia.
    + destruct (flat_isVisible e); simpl; lia.
Qed.

Lemma addTask_all_visible (tasks : list GanttTask) (fuel : nat) :
  forall t lvl out,
    addTask tasks ∅ fuel [] t lvl true = Some out ->
    Forall (fun e => flat_isVisible e = true) out.
Proof.
  induction fuel as [| fuel IH]; intros t lvl out Hout; [discriminate |].
  apply addTask_inv in Hout as (fuel' & rs & [= <-] & Hm & ->).
  constructor; [reflexivity |]. apply Forall_forall. intros e He.
  apply (mapM_concat_elem _ _ _ _ Hm) in He as (ch & r & _ & Hr & He).
  assert (Hv : true && negb (Set_has ∅ (id t)) = true).
  { unfold Set_has. rewrite bool_decide_eq_false_2 by set_solver. reflexivity. }
  rewrite Hv in Hr. pose proof (IH _ _ _ Hr) as Hall.
  rewrite Forall_forall in Hall. exact (Hall e He).
Qed.

Lemma computeRows_all_visible (r : DateRange) (w : Q) (c : gset string)
    (flat : list FlatEntry) :
  Forall (fun e => flat_isVisible e = true) flat ->
  forall k i ct,
    computeRows r w c flat k !! i = Some ct ->
    isVisible ct = true /\ rowIndex ct = k + Z.of_nat i.
Proof.
  induction 1 as [| e flat He _ IH]; intros k i ct Hi; [discriminate |].
  cbn [computeRows] in Hi. cbv zeta in Hi. rewrite He in Hi.
  destruct i as [| i].
  - injection Hi as <-. simpl. split; [reflexivity | lia].
  - rewrite lookup_cons in Hi. destruct (IH _ _ _ Hi) as [Hv Hr].
    split; [exact Hv | lia].
Qed.

(** X19. With nothing collapsed, every entry of the compiler's output is
    visible and not collapsed, and its row index is its position in the
    output. *)
Theorem nothing_collapsed_all_rows (fuel : nat) (tasks : list GanttTask)
    (r : DateRange) (w : Q) (out : list ComputedTask) :
  computeTaskPositions fuel tasks r w ∅ = Some out ->
  forall i ct, out !! i = Some ct ->
    isVisible ct = true /\ isCollapsed ct = false /\ rowIndex ct = Z.of_nat i.
Proof.
  intros Hout i ct Hi.
  apply computeTaskPositions_inv in Hout as (flat & Hflat & ->).
  assert (Hall : Forall (fun e => flat_isVisible e = true) flat).
  { rewrite flattenTasks_unfold in Hflat.
    destruct (mapM _ _) as [rs |] eqn:Hm; simpl in Hflat; [| discriminate].
    injection Hflat as <-. apply Forall_forall. intros e He.
    apply (mapM_concat_elem _ _ _ _ Hm) in He as (t & r0 & _ & Hr & He).
    pose proof (addTask_all_visible _ _ _ _ _ Hr) as Hall.
    rewrite Forall_forall in Hall. exact (Hall e He). }
  destruct (computeRows_all_visible r w ∅ flat Hall 0 i ct Hi) as [Hv Hr].
  split; [exact Hv |]. split; [| lia].
  destruct (Forall2_lookup_r _ _ _ _ _ (computeRows_entries r w ∅ flat 0) Hi)
    as (e & _ & _ & _ & _ & Hc & _).
  rewrite Hc. unfold Set_has. apply bool_decide_eq_false_2. set_solver.
Qed.

(** *** Every task once *)

Section EveryTaskOnce.

Variable tasks : list GanttTask.
Variable collapsedIds : gset string.
Hypothesis unique_ids : NoDup (id <$> tasks).
Hypothesis named : forall u, u ∈ tasks -> id u <> "".
Hypothesis no_cycle : acyclic tasks.

Lemma ancestor_trans (a b u : GanttTask) :
  ancestor tasks a b -> ancestor tasks b u -> ancestor tasks a u.
Proof.
  intros Hab. induction 1 as [b u Hp | b p u _ IH Hp].
  - eapply ancestor_step; [exact Hab | exact Hp].
  - eapply ancestor_step; [apply IH, Hab | exact Hp].
Qed.

(** The ancestors of a task form a chain. *)
Lemma ancestor_chain (a b u : GanttTask) :
  ancestor tasks a u -> ancestor tasks b u ->
  a = b \/ ancestor tasks a b \/ ancestor tasks b a.
Proof.
  intros Ha. revert b. induction Ha as [a u Hp | a p u Ha IH Hp]; intros b Hb;
    apply (ancestor_of_child tasks _ u b unique_ids Hp) in Hb as [-> | Hb].
  - left; reflexivity.
  - right; right; exact Hb.
  - right; left; exact Ha.
  - apply IH, Hb.
Qed.

Lemma under_disjoint (a b u : GanttTask) :
  a <> b -> ~ ancestor tasks a b -> ~ ancestor tasks b a ->
  under tasks a u -> under tasks b u -> False.
Proof.
  intros Hne Hab Hba [-> | Ha] [Hb | Hb]; try congruence; try tauto.
  destruct (ancestor_chain a b u Ha Hb) as [E | [E | E]]; tauto.
Qed.

Lemma children_incomparable (t a b : GanttTask) :
  parentOf tasks t a -> parentOf tasks t b -> ~ ancestor tasks a b.
Proof.
  intros Ha Hb Hab.
  apply (ancestor_of_child tasks _ b a unique_ids Hb) in Hab as [-> | Hat].
  - apply (no_cycle t). apply ancestor_parent, Ha.
  - apply (no_cycle a). eapply ancestor_step; [exact Hat | exact Ha].
Qed.

Lemma root_not_below (a r : GanttTask) :
  isRootTask tasks r = true -> ~ ancestor tasks a r.
Proof.
  intros Hroot Ha.
  inversion Ha as [a' r' Hp | a' p r' _ Hp]; subst;
    exact (root_has_no_parent tasks r named Hroot _ Hp).
Qed.

Lemma subtrees_NoDup (f : GanttTask -> option (list FlatEntry))
    (chs : list GanttTask) (rs : list (list FlatEntry)) :
  NoDup chs -> mapM f chs = Some rs ->
  (forall ch r, ch ∈ chs -> f ch = Some r ->
     NoDup (flat_task <$> r) /\ forall e, e ∈ r -> under tasks ch (flat_task e)) ->
  (forall a b u, a ∈ chs -> b ∈ chs -> a <> b ->
     under tasks a u -> under tasks b u -> False) ->
  NoDup (flat_task <$> concat rs).
Proof.
  intros Hnd Hm. revert Hnd. apply mapM_Some in Hm.
  induction Hm as [| a r l rs Ha Hm IH]; intros Hnd Hsub Hdis; [constructor |].
  apply NoDup_cons in Hnd as [Hnotin Hnd].
  simpl. rewrite fmap_app. apply NoDup_app.
  destruct (Hsub a r ltac:(left) Ha) as [Hr Hunder].
  split; [exact Hr |]. split.
  - intros u Hu Hu'.
    apply list_elem_of_fmap in Hu as (e & -> & He).
    apply list_elem_of_fmap in Hu' as (e' & Ee & He').
    apply (mapM_concat_elem f l rs e' (proj2 (mapM_Some _ _ _) Hm)) in He'
      as (b & rb & Hb & Hfb & He').
    apply (Hdis a b (flat_task e)); [left | right; exact Hb | | apply Hunder, He |].
    + intros ->. contradiction.
    + rewrite Ee. apply (proj2 (Hsub b rb ltac:(right; exact Hb) Hfb)), He'.
  - apply IH; [exact Hnd | |].
    + intros ch r0 Hch. apply Hsub. right; exact Hch.
    + intros a0 b0 u Ha0 Hb0. apply Hdis; right; assumption.
Qed.

Lemma addTask_under (fuel : nat) :
  forall t lvl pv out,
    t ∈ tasks ->
    addTask tasks collapsedIds fuel [] t lvl pv = Some out ->
    forall e, e ∈ out -> under tasks t (flat_task e).
Proof.
  induction fuel as [| fuel IH]; intros t lvl pv out Ht Hout e He; [discriminate |].
  apply addTask_inv in Hout as (fuel' & rs & [= <-] & Hm & ->).
  apply elem_of_cons in He as [-> | He]; [left; reflexivity |].
  apply (mapM_concat_elem _ _ _ _ Hm) in He as (ch & r & Hch & Hr & He).
  apply elem_of_filter_bool in Hch as [Hch Hc]. apply isChildOf_true in Hc.
  assert (Hp : parentOf tasks t ch) by (repeat split; assumption).
  right. destruct (IH _ _ _ _ Hch Hr e He) as [-> | Hanc].
  - apply ancestor_parent, Hp.
  - exact (ancestor_trans _ _ _ (ancestor_parent _ _ _ Hp) Hanc).
Qed.

Lemma NoDup_filter_bool {A : Type} (f : A -> bool) (l : list A) :
  NoDup l -> NoDup (List.filter f l).
Proof.
  induction 1 as [| a l Ha _ IH]; simpl; [constructor |].
  destruct (f a); [| exact IH]. apply NoDup_cons. split; [| exact IH].
  intros Hin. apply elem_of_filter_bool in Hin as [Hin _]. contradiction.
Qed.

Lemma tasks_NoDup : NoDup tasks.
Proof. exact (NoDup_fmap_1 id tasks unique_ids). Qed.

Lemma addTask_NoDup (fuel : nat) :
  forall t lvl pv out,
    t ∈ tasks ->
    addTask tasks collapsedIds fuel [] t lvl pv = Some out ->
    NoDup (flat_task <$> out).
Proof.
  induction fuel as [| fuel IH]; intros t lvl pv out Ht Hout; [discriminate |].
  pose proof (addTask_under (S fuel) t lvl pv out Ht Hout) as Hunder.
  apply addTask_inv in Hout as (fuel' & rs & [= <-] & Hm & ->).
  assert (Hchild : forall ch, ch ∈ List.filter (isChildOf t) tasks ->
                     ch ∈ tasks /\ parentOf tasks t ch).
  { intros ch Hch. apply elem_of_filter_bool in Hch as [Hch Hc].
    apply isChildOf_true in Hc. repeat split; assumption. }
  rewrite fmap_cons. apply NoDup_cons. split.
  - intros Hin. apply list_elem_of_fmap in Hin as (e & Ee & He).
    apply (mapM_concat_elem _ _ _ _ Hm) in He as (ch & r & Hch & Hr & He).
    destruct (Hchild ch Hch) as [Hcht Hp].
    apply (no_cycle t). simpl in Ee. rewrite Ee at 2.
    destruct (addTask_under fuel _ _ _ _ Hcht Hr e He) as [-> | Hanc].
    + apply ancestor_parent, Hp.
    + exact (ancestor_trans _ _ _ (ancestor_parent _ _ _ Hp) Hanc).
  - apply (subtrees_NoDup _ _ _ (NoDup_filter_bool _ _ tasks_NoDup) Hm).
    + intros ch r Hch Hr. destruct (Hchild ch Hch) as [Hcht _].
      split; [exact (IH _ _ _ _ Hcht Hr) | exact (addTask_under fuel _ _ _ _ Hcht Hr)].
    + intros a b u Ha Hb Hne.
      destruct (Hchild a Ha) as [_ Hpa], (Hchild b Hb) as [_ Hpb].
      apply under_disjoint; [exact Hne | |];
        eapply children_incomparable; eassumption.
Qed.

Lemma flattenTasks_NoDup (fuel : nat) (out : list FlatEntry) :
  flattenTasks fuel tasks collapsedIds = Some out -> NoDup (flat_task <$> out).
Proof.
  rewrite flattenTasks_unfold.
  destruct (mapM _ _) as [rs |] eqn:Hm; simpl; [| discriminate].
  intros [= <-].
  apply (subtrees_NoDup _ _ _ (NoDup_filter_bool _ _ tasks_NoDup) Hm).
  - intros t r Ht Hr. apply elem_of_filter_bool in Ht as [Ht _].
    split; [exact (addTask_NoDup fuel _ _ _ _ Ht Hr)
           | exact (addTask_under fuel _ _ _ _ Ht Hr)].
  - intros a b u Ha Hb Hne.
    apply elem_of_filter_bool in Ha as [_ Ha].
    apply elem_of_filter_bool in Hb as [_ Hb].
    apply under_disjoint; [exact Hne | |]; apply root_not_below; assumption.
Qed.

End EveryTaskOnce.

(** X20. For a task list with unique, non-empty identities and acyclic
    parent references, the flattener neither drops nor repeats a task: the
    tasks of its output are a permutation of the list. *)
Theorem flattenTasks_permutation (tasks : list GanttTask)
    (collapsedIds : gset string) :
  NoDup (id <$> tasks) -> (forall u, u ∈ tasks -> id u <> "") ->
  acyclic tasks ->
  exists out,
    flattenTasks (length tasks) tasks collapsedIds = Some out
    /\ flat_task <$> out ≡ₚ tasks
    /\ length out = length tasks.
Proof.
  intros Hnd Hid Hacyc.
  destruct (flattenTasks_terminates tasks collapsedIds Hacyc) as [out Hout].
  exists out. split; [exact Hout |].
  assert (Hperm : flat_task <$> out ≡ₚ tasks).
  { apply NoDup_Permutation.
    - exact (flattenTasks_NoDup tasks collapsedIds Hnd Hid Hacyc _ out Hout).
    - exact (tasks_NoDup tasks Hnd).
    - intros t. split.
      + intros Ht. apply list_elem_of_fmap in Ht as ([t' lvl pv] & -> & He).
        apply (flattenTasks_visited tasks collapsedIds _ out Hout) in He.
        exact (visited_in_tasks _ _ _ _ _ He).
      + intros Ht.
        destruct (every_task_visited tasks collapsedIds Hacyc t Ht) as (lvl & pv & Hv).
        apply (flattenTasks_visited tasks collapsedIds _ out Hout) in Hv.
        apply list_elem_of_fmap. exists (mkFlatEntry t lvl pv). split; [reflexivity | exact Hv]. }
  split; [exact Hperm |].
  rewrite <- (length_fmap flat_task out). apply Permutation_length, Hperm.
Qed.

(** ** hooks/useDrag.ts and components/Gantt.tsx: the whole gesture *)

Lemma documentEvents_idle (opts : UseDragOptions) (evs : list DocumentEvent) :
  documentEvents opts idle evs = (idle, []).
Proof. induction evs as [| ev evs IH]; simpl; [| rewrite IH]; reflexivity. Qed.

(** While the gesture goes on, the refs hold the dates of the last preview,
    or the ones they held before when there was none. *)
Lemma documentEvents_track_preview (opts : UseDragOptions) (st : DragState)
    (evs : list DocumentEvent) :
  forallb (fun ev => negb (endsGesture ev)) evs = true ->
  forall h a b,
    isDragging h = true -> dragState h = Some st ->
    previewStartRef h = Some a -> previewEndRef h = Some b ->
    exists h' previews,
      documentEvents opts h evs = (h', previews)
      /\ isDragging h' = true /\ dragState h' = Some st
      /\ previewStartRef h' = Some (fst (lastPreview (a, b) previews))
      /\ previewEndRef h' = Some (snd (lastPreview (a, b) previews))
      /\ Forall (alignedPreviewOf (drag_task st)) previews.
Proof.
  induction evs as [| ev evs IH]; intros Hev h a b Hd Hs Ha Hb.
  - exists h, []. repeat split; auto.
  - simpl in Hev. apply andb_prop in Hev as [Hev1 Hev2].
    assert (Hstep : exists h1 out1 a1 b1,
               documentEvent opts h ev = (h1, out1)
               /\ isDragging h1 = true /\ dragState h1 = Some st
               /\ previewStartRef h1 = Some a1 /\ previewEndRef h1 = Some b1
               /\ (a1, b1) = lastPreview (a, b) out1
               /\ Forall (alignedPreviewOf (drag_task st)) out1).
    { unfold documentEvent. rewrite Hd. destruct ev as [cx | | key]; simpl in Hev1.
      - unfold handleMouseMove. rewrite Hs.
        destruct (candidateDates opts st cx) as [[s e] |].
        + eexists _, _, _, _. split; [reflexivity |]. simpl.
          repeat split; auto. constructor; [| constructor].
          eexists _, _. split; [reflexivity |].
          split; apply startOfDay_idempotent.
        + exists h, [], a, b. repeat split; auto.
      - discriminate.
      - unfold handleKeyDown. destruct (String.eqb key "Escape"); [discriminate |].
        exists h, [], a, b. repeat split; auto. }
    destruct Hstep as (h1 & out1 & a1 & b1 & E1 & Hd1 & Hs1 & Ha1 & Hb1 & El & Hp1).
    destruct (IH Hev2 h1 a1 b1 Hd1 Hs1 Ha1 Hb1)
      as (h2 & out2 & E2 & Hd2 & Hs2 & Ha2 & Hb2 & Hp2).
    exists h2, (out1 ++ out2). simpl. rewrite E1, E2.
    unfold lastPreview in *. rewrite foldl_app, <- El.
    repeat split; auto. apply Forall_app; auto.
Qed.

Lemma lastPreview_original_or_aligned (t : ComputedTask) (d0 : Date * Date)
    (previews : list Effect) :
  Forall (alignedPreviewOf t) previews ->
  forall d,
    d = d0 \/ (dayAligned (fst d) /\ dayAligned (snd d)) ->
    lastPreview d previews = d0
    \/ (dayAligned (fst (lastPreview d previews))
        /\ dayAligned (snd (lastPreview d previews))).
Proof.
  induction 1 as [| e l (s & e' & -> & Hs & He) _ IH]; intros d Hd; [exact Hd |].
  cbn [lastPreview foldl]. apply IH. right. split; assumption.
Qed.

Lemma events_split_at_end (evs : list DocumentEvent) :
  forallb (fun ev => negb (endsGesture ev)) evs = true
  \/ exists pre ev post,
       evs = pre ++ ev :: post
       /\ forallb (fun ev => negb (endsGesture ev)) pre = true
       /\ endsGesture ev = true.
Proof.
  induction evs as [| ev evs IH]; [left; reflexivity |].
  destruct (endsGesture ev) eqn:E.
  - right. exists [], ev, evs. auto.
  - destruct IH as [IH | (pre & ev' & post & -> & Hpre & Hev)].
    + left. simpl. rewrite E, IH. reflexivity.
    + right. exists (ev :: pre), ev', post. simpl. rewrite E, Hpre. auto.
Qed.

(** What a gesture reports, from the pointer-down that started it to the
    event that ends it; the events after that are ignored. *)
Lemma gesture_outcome (opts : UseDragOptions) (h h1 : Hook) (t : ComputedTask)
    (clientX : Q) (m : DragMode) (pre post : list DocumentEvent)
    (ev : DocumentEvent) :
  handleMouseDown opts h t clientX (Some m)
  = (h1, [preventDefault; stopPropagation; onDragStart t]) ->
  forallb (fun ev => negb (endsGesture ev)) pre = true ->
  endsGesture ev = true ->
  exists previews,
    snd (documentEvents opts h1 pre) = previews
    /\ Forall (alignedPreviewOf t) previews
    /\ documentEvents opts h1 (pre ++ ev :: post)
       = (idle,
          previews
          ++ [match ev with
              | mouseup =>
                  let '(s, e) := lastPreview (start (task t), end_ (task t)) previews in
                  onDragEnd t s e ((s =? start (task t)) && (e =? end_ (task t)))
                    (isResizeMode (Some m))
              | _ =>
                  onDragEnd t (start (task t)) (end_ (task t)) true
                    (isResizeMode (Some m))
              end]).
Proof.
  intros Hdown Hpre Hev. unfold handleMouseDown in Hdown.
  destruct (isDisabled (task t)); [discriminate |].
  destruct (match m with move => negb (allowDrag opts) | _ => false end);
    [discriminate |].
  destruct (match m with
            | resize_left | resize_right => negb (allowResize opts)
            | move => false
            end); [discriminate |].
  injection Hdown as Hh.
  set (st := mkDragState t (Some m) clientX (x t) (width t)
               (start (task t)) (end_ (task t))).
  destruct (documentEvents_track_preview opts st pre Hpre h1
              (start (task t)) (end_ (task t)))
    as (h2 & previews & E & Hd & Hs & Ha & Hb & Hp);
    try (rewrite <- Hh; reflexivity).
  exists previews. rewrite E. split; [reflexivity |]. split; [exact Hp |].
  rewrite documentEvents_app, E. cbn [documentEvents].
  unfold documentEvent. rewrite Hd.
  destruct ev as [cx | | key]; simpl in Hev; [discriminate | |].
  - unfold handleMouseUp. rewrite Hs, Ha, Hb. cbv zeta.
    rewrite documentEvents_idle.
    destruct (lastPreview (start (task t), end_ (task t)) previews) as [s e].
    cbn [fst snd default originalStart originalEnd drag_task mode st app].
    rewrite negb_orb, !negb_involutive. reflexivity.
  - unfold handleKeyDown. rewrite Hev, Hs. rewrite documentEvents_idle.
    reflexivity.
Qed.

(** X21. The pointer-up commits the last preview: after a pointer-down that
    started a session and events that do not end it, the pointer-up
    reports the dates of the last preview, or the task's own dates when
    there was no preview, and [cancelled] exactly when they are the task's
    own dates.  The hook is idle afterwards. *)
Theorem mouseup_commits_last_preview (opts : UseDragOptions) (h h1 : Hook)
    (t : ComputedTask) (clientX : Q) (m : DragMode) (evs : list DocumentEvent) :
  handleMouseDown opts h t clientX (Some m)
  = (h1, [preventDefault; stopPropagation; onDragStart t]) ->
  forallb (fun ev => negb (endsGesture ev)) evs = true ->
  let previews := snd (documentEvents opts h1 evs) in
  let s := fst (lastPreview (start (task t), end_ (task t)) previews) in
  let e := snd (lastPreview (start (task t), end_ (task t)) previews) in
  documentEvents opts h1 (evs ++ [mouseup])
  = (idle,
     previews
     ++ [onDragEnd t s e ((s =? start (task t)) && (e =? end_ (task t)))
           (isResizeMode (Some m))]).
Proof.
  intros Hdown Hev previews s e.
  destruct (gesture_outcome opts h h1 t clientX m evs [] mouseup Hdown Hev eq_refl)
    as (previews' & Ep & _ & E).
  fold previews in Ep. subst previews'. rewrite E. subst s e.
  destruct (lastPreview (start (task t), end_ (task t)) previews). reflexivity.
Qed.

(** X22. A gesture reports its end once: whatever follows the pointer-down
    that started a session, the effects up to the first pointer-up or
    Escape are previews, that event adds one [onDragEnd] and leaves the
    hook idle, and the events after it add nothing. *)
Theorem gesture_ends_once (opts : UseDragOptions) (h h1 : Hook)
    (t : ComputedTask) (clientX : Q) (m : DragMode)
    (pre post : list DocumentEvent) (ev : DocumentEvent) :
  handleMouseDown opts h t clientX (Some m)
  = (h1, [preventDefault; stopPropagation; onDragStart t]) ->
  forallb (fun ev => negb (endsGesture ev)) pre = true ->
  endsGesture ev = true ->
  documentEvents opts h1 (pre ++ ev :: post) = documentEvents opts h1 (pre ++ [ev])
  /\ exists previews s e cancelled,
       documentEvents opts h1 (pre ++ ev :: post)
       = (idle, previews ++ [onDragEnd t s e cancelled (isResizeMode (Some m))])
       /\ Forall (isPreviewOf t) previews.
Proof.
  intros Hdown Hpre Hev.
  destruct (gesture_outcome opts h h1 t clientX m pre post ev Hdown Hpre Hev)
    as (previews & Ep & Hp & E).
  destruct (gesture_outcome opts h h1 t clientX m pre [] ev Hdown Hpre Hev)
    as (previews' & Ep' & _ & E').
  split; [rewrite E, E'; subst previews previews'; reflexivity |].
  exists previews. rewrite E.
  assert (Hpv : Forall (isPreviewOf t) previews).
  { eapply Forall_impl; [exact Hp |]. intros e0 (s & e & -> & _). eexists _, _; reflexivity. }
  destruct ev as [cx | | key]; [discriminate | |].
  - destruct (lastPreview (start (task t), end_ (task t)) previews) as [s e].
    eexists _, _, _. split; [reflexivity | exact Hpv].
  - eexists _, _, _. split; [reflexivity | exact Hpv].
Qed.

(** X23. What a gesture can do to the host of the chart, for a range
    with [start < end] and a chart width above 0 (so that every preview
    is a valid date): after a pointer-down that started a session,
    whatever events follow, the host gets at most one date change; its
    two dates are local midnights and differ from the task's own dates;
    and a gesture ended by Escape changes no date. *)
Theorem host_date_changes (opts : UseDragOptions) (h h1 : Hook)
    (t : ComputedTask) (clientX : Q) (m : DragMode) (evs : list DocumentEvent) :
  range_start (dateRange opts) < range_end (dateRange opts) ->
  (0 < chartWidth opts)%Q ->
  handleMouseDown opts h t clientX (Some m)
  = (h1, [preventDefault; stopPropagation; onDragStart t]) ->
  let changes := Gantt_hostEvents (snd (documentEvents opts h1 evs)) in
  (changes = []
   \/ exists s e,
        changes = [onTaskDateChange t s e (isResizeMode (Some m))]
        /\ dayAligned s /\ dayAligned e
        /\ (s <> start (task t) \/ e <> end_ (task t)))
  /\ forall pre post,
       evs = pre ++ keydown "Escape" :: post ->
       forallb (fun ev => negb (endsGesture ev)) pre = true ->
       changes = [].
Proof.
  intros _ _ Hdown changes.
  assert (Hprev : forall previews,
             Forall (alignedPreviewOf t) previews -> Gantt_hostEvents previews = []).
  { induction 1 as [| e0 l (s & e & -> & _) _ IH]; [reflexivity | exact IH]. }
  assert (Hfin : forall previews e0,
             Forall (alignedPreviewOf t) previews ->
             Gantt_hostEvents (previews ++ [e0]) = Gantt_onDragEnd e0).
  { intros previews e0 Hp. unfold Gantt_hostEvents in *.
    rewrite flat_map_app, (Hprev previews Hp). simpl. apply app_nil_r. }
  split.
  - destruct (events_split_at_end evs) as [Hall | (pre & ev & post & -> & Hpre & Hev)].
    + left. unfold handleMouseDown in Hdown.
      destruct (isDisabled (task t)); [discriminate |].
      destruct (match m with move => negb (allowDrag opts) | _ => false end);
        [discriminate |].
      destruct (match m with
                | resize_left | resize_right => negb (allowResize opts)
                | move => false
                end); [discriminate |].
      injection Hdown as Hh.
      destruct (documentEvents_track_preview opts
                  (mkDragState t (Some m) clientX (x t) (width t)
                     (start (task t)) (end_ (task t)))
                  evs Hall h1 (start (task t)) (end_ (task t)))
        as (h2 & previews & E & _ & _ & _ & _ & Hp);
        try (rewrite <- Hh; reflexivity).
      subst changes. rewrite E. exact (Hprev previews Hp).
    + destruct (gesture_outcome opts h h1 t clientX m pre post ev Hdown Hpre Hev)
        as (previews & _ & Hp & E).
      subst changes. rewrite E. cbn [snd]. rewrite (Hfin _ _ Hp).
      destruct ev as [cx | | key]; [discriminate | | left; reflexivity].
      destruct (lastPreview_original_or_aligned t (start (task t), end_ (task t))
                  previews Hp _ (or_introl eq_refl)) as [El | [Hs He]].
      * rewrite El. left. cbn [Gantt_onDragEnd]. rewrite !Z.eqb_refl. reflexivity.
      * destruct (lastPreview (start (task t), end_ (task t)) previews) as [s e].
        cbn [Gantt_onDragEnd fst snd] in *.
        destruct (Z.eqb_spec s (start (task t))) as [Es | Es];
          destruct (Z.eqb_spec e (end_ (task t))) as [Ee | Ee]; cbn [andb negb];
          [left; reflexivity | right | right | right];
          exists s, e; repeat split; auto.
  - intros pre post -> Hpre.
    destruct (gesture_outcome opts h h1 t clientX m pre post (keydown "Escape")
                Hdown Hpre eq_refl) as (previews & _ & Hp & E).
    subst changes. rewrite E. cbn [snd]. rewrite (Hfin _ _ Hp). reflexivity.
Qed.

(** ** hooks/useDrag.ts: the ghost bar *)


(** ** components/GanttDependencies.tsx *)

Lemma Qltb_lt (a b : Q) : Qltb a b = true <-> (a < b)%Q.
Proof.
  unfold Qltb. rewrite negb_true_iff. split.
  - intros H. apply Qnot_le_lt. intros Hle. apply Qle_bool_iff in Hle. congruence.
  - intros Hlt. destruct (Qle_bool b a) eqn:E; [| reflexivity].
    apply Qle_bool_iff in E. exfalso. exact (Qlt_not_le _ _ Hlt E).
Qed.

(** X25. The route of an arrow: the path starts at the first point it is
    given and ends at the second; it is one straight segment only when the
    two heights differ by less than 5 and the target is more than 12 to
    the right, and otherwise every segment of it is horizontal or
    vertical. *)
Theorem generateArrowPath_route (fromX fromY toX toY : Q) (ty : DependencyType)
    (rowHeight : Q) :
  let path := generateArrowPath fromX fromY toX toY ty rowHeight in
  head path = Some (fromX, fromY)
  /\ last path = Some (toX, toY)
  /\ ((path = [(fromX, fromY); (toX, toY)]
       /\ (Qabs (fromY - toY) < 5)%Q /\ (fromX + 12 < toX)%Q)
      \/ rectilinear path).
Proof.
  cbv zeta. unfold generateArrowPath. cbv zeta.
  destruct (Qltb (Math_abs (fromY - toY)) 5) eqn:E1;
    destruct (Qltb (fromX + 12) toX) eqn:E2; cbn [andb].
  1: { split; [reflexivity |]. split; [reflexivity |]. left.
       split; [reflexivity |]. split; apply Qltb_lt; assumption. }
  all: destruct ty; try rewrite E2; try destruct (Qltb fromX (toX - 12));
    (split; [reflexivity |]); (split; [reflexivity |]); right;
    cbn [rectilinear]; unfold axisParallel; cbn [fst snd];
    repeat split; solve [left; reflexivity | right; reflexivity].
Qed.

(** The middle of the task bar of a row is 4 pixels above the middle of
    the row, whatever the height of the bar. *)
Lemma taskBar_middle (rowIndex rowHeight : Q) :
  let dims := getBarDimensions rowIndex rowHeight in
  (bar_y (taskBar dims) + bar_height (taskBar dims) / 2
   == rowIndex * rowHeight + rowHeight / 2 - 4)%Q.
Proof.
  cbv zeta. unfold getBarDimensions, getTaskBarY. cbn [taskBar bar_y bar_height].
  generalize (Math_min (rowHeight * (45 # 100)) 20). intros b. field.
Qed.

(** X26. Where an arrow goes around: when the path of a dependency has six
    points, it leaves and arrives horizontally, and its long horizontal
    run is on the far side of the successor's row: on the lower border of
    that row when the predecessor is in the same row or above, and 8
    pixels above its upper border when the predecessor is below. *)
Theorem dependency_detour_row (fromTask toTask : ComputedTask)
    (ty : DependencyType) (rowHeight : Q) :
  (0 < rowHeight)%Q ->
  length (calculateDependencyPath fromTask toTask ty rowHeight) = 6%nat ->
  let cp := connectionPoints fromTask toTask ty rowHeight in
  exists x1 x2 routeY,
    calculateDependencyPath fromTask toTask ty rowHeight
    = [fst cp; (x1, snd (fst cp)); (x1, routeY); (x2, routeY);
       (x2, snd (snd cp)); snd cp]
    /\ (routeY
        == if rowIndex fromTask <=? rowIndex toTask
           then (inject_Z (rowIndex toTask) + 1) * rowHeight
           else inject_Z (rowIndex toTask) * rowHeight - 8)%Q.
Proof.
  intros Hrow Hlen cp.
  pose proof (taskBar_middle (inject_Z (rowIndex fromTask)) rowHeight) as Hf.
  pose proof (taskBar_middle (inject_Z (rowIndex toTask)) rowHeight) as Ht.
  cbv zeta in Hf, Ht.
  assert (Hroute : forall fromY toY : Q,
             (fromY == inject_Z (rowIndex fromTask) * rowHeight + rowHeight / 2 - 4)%Q ->
             (toY == inject_Z (rowIndex toTask) * rowHeight + rowHeight / 2 - 4)%Q ->
             ((if Qle_bool fromY toY
               then Math_max fromY toY + (rowHeight / 2 + 4)
               else Math_min fromY toY - (rowHeight / 2 + 4))
              == if rowIndex fromTask <=? rowIndex toTask
                 then (inject_Z (rowIndex toTask) + 1) * rowHeight
                 else inject_Z (rowIndex toTask) * rowHeight - 8)%Q).
  { intros fromY toY Ef Et.
    assert (Hcmp : (fromY <= toY)%Q <-> rowIndex fromTask <= rowIndex toTask).
    { rewrite Ef, Et, Zle_Qle.
      rewrite <- (Qmult_le_r (inject_Z (rowIndex fromTask))
                    (inject_Z (rowIndex toTask)) rowHeight Hrow).
      split; intros; lra. }
    unfold Math_max, Math_min.
    destruct (Qle_bool fromY toY) eqn:E.
    - apply Qle_bool_iff in E. pose proof (proj1 Hcmp E) as Hz.
      apply Z.leb_le in Hz. rewrite Hz, (Q.max_r _ _ E), Et. field.
    - assert (Hn : ~ (fromY <= toY)%Q)
        by (intros Hle; apply Qle_bool_iff in Hle; congruence).
      assert (Hz : (rowIndex fromTask <=? rowIndex toTask) = false)
        by (apply Z.leb_gt; apply Z.nle_gt; intros Hz; apply Hn, Hcmp, Hz).
      rewrite Hz, Q.min_r, Et; [field |]. apply Qlt_le_weak, Qnot_le_lt, Hn. }
  subst cp. revert Hlen.
  unfold calculateDependencyPath, connectionPoints. cbv zeta.
  set (fromY := (bar_y (taskBar (getBarDimensions (inject_Z (rowIndex fromTask)) rowHeight))
                 + bar_height (taskBar (getBarDimensions (inject_Z (rowIndex fromTask))
                                          rowHeight)) / 2)%Q) in *.
  set (toY := (bar_y (taskBar (getBarDimensions (inject_Z (rowIndex toTask)) rowHeight))
               + bar_height (taskBar (getBarDimensions (inject_Z (rowIndex toTask))
                                        rowHeight)) / 2)%Q) in *.
  specialize (Hroute fromY toY Hf Ht).
  destruct ty; cbv beta iota; unfold generateArrowPath; cbv zeta;
    repeat match goal with
           | |- context [if ?c && ?d then _ else _] =>
               destruct c; destruct d; cbn [andb]
           | |- context [if Qltb ?a ?b then _ else _] => destruct (Qltb a b)
           end;
    cbn [length]; intros Hlen; try discriminate Hlen;
    eexists _, _, _; (split; [reflexivity | exact Hroute]).
Qed.

Lemma Map_of_computed_lookup (tasks : list ComputedTask) (k : string)
    (t : ComputedTask) :
  Map_of_computed tasks !! k = Some t -> t ∈ tasks /\ id (task t) = k.
Proof.
  unfold Map_of_computed.
  assert (G : forall m0 : gmap string ComputedTask,
             foldl (fun m u => <[id (task u) := u]> m) m0 tasks !! k = Some t ->
             (t ∈ tasks /\ id (task t) = k) \/ m0 !! k = Some t).
  { induction tasks as [| u l IH]; intros m0 H; [right; exact H |].
    cbn [foldl] in H. destruct (IH _ H) as [[Hin Hk] | Hm].
    - left. split; [right; exact Hin | exact Hk].
    - destruct (decide (id (task u) = k)) as [Ek | Ek].
      + rewrite Ek, lookup_insert_eq in Hm. injection Hm as ->.
        left. split; [left | exact Ek].
      + rewrite lookup_insert_ne in Hm by exact Ek. right. exact Hm. }
  intros H. destruct (G ∅ H) as [Hok | Hemp]; [exact Hok |].
  rewrite lookup_empty in Hemp. discriminate.
Qed.

(** X27. Which arrows are drawn: every arrow is the arrow of one of the
    dependencies, between two rows of the chart that have the two
    identities of the dependency and are both visible; so no arrow goes
    to a row that is hidden or to a task that is not in the chart, and
    there are at most as many arrows as dependencies. *)
Theorem arrows_between_visible_rows (tasks : list ComputedTask)
    (dependencies : list GanttDependency) (rowHeight : Q) (a : Arrow) :
  a ∈ arrows tasks dependencies rowHeight ->
  (length (arrows tasks dependencies rowHeight) <= length dependencies)%nat
  /\ exists dep fromTask toTask,
       dep ∈ dependencies
       /\ fromTask ∈ tasks /\ id (task fromTask) = fromId dep
       /\ toTask ∈ tasks /\ id (task toTask) = toId dep
       /\ isVisible fromTask = true /\ isVisible toTask = true
       /\ a = mkArrow (fromId dep ++ "-" ++ toId dep)
                (calculateDependencyPath fromTask toTask (dep_type dep) rowHeight)
                (dep_type dep).
Proof.
  intros Ha. split.
  - clear Ha. unfold arrows. cbv zeta.
    generalize (arrowOf (Map_of_computed tasks) rowHeight).
    intros f. induction dependencies as [| d l IH]; [reflexivity |].
    simpl. change (list_omap GanttDependency Arrow f l) with (omap f l). destruct (f d); simpl; lia.
  - unfold arrows in Ha. cbv zeta in Ha.
    apply list_elem_of_omap in Ha as (dep & Hdep & Harrow).
    unfold arrowOf in Harrow.
    destruct (Map_of_computed tasks !! fromId dep) as [fromTask |] eqn:Ef;
      [| discriminate].
    destruct (Map_of_computed tasks !! toId dep) as [toTask |] eqn:Et;
      [| discriminate].
    destruct (isVisible fromTask) eqn:Vf; [| discriminate].
    destruct (isVisible toTask) eqn:Vt; [| discriminate].
    cbn [negb orb] in Harrow. injection Harrow as <-.
    apply Map_of_computed_lookup in Ef as [Hf1 Hf2], Et as [Ht1 Ht2].
    exists dep, fromTask, toTask. repeat split; assumption.
Qed.

(** ** components/GanttTooltip.tsx *)

(** X28. The tooltip stays in the container: the position is never less
    than 8 pixels from the left and from the top; when the container is
    at least 16 pixels wider than the tooltip, the tooltip also ends 8
    pixels or more before the right border, and otherwise it is exactly 8
    pixels from the left; and the same holds top to bottom. *)
Theorem tooltipPosition_inside (mouseX mouseY tooltipWidth tooltipHeight
    containerWidth containerHeight : Q) :
  let pos := tooltipPosition mouseX mouseY tooltipWidth tooltipHeight
               containerWidth containerHeight in
  ((8 <= fst pos)%Q /\ (8 <= snd pos)%Q)
  /\ ((tooltipWidth + 16 <= containerWidth)%Q ->
      (fst pos + tooltipWidth <= containerWidth - 8)%Q)
  /\ ((tooltipHeight + 16 <= containerHeight)%Q ->
      (snd pos + tooltipHeight <= containerHeight - 8)%Q)
  /\ ((containerWidth <= tooltipWidth + 16)%Q -> (fst pos == 8)%Q)
  /\ ((containerHeight <= tooltipHeight + 16)%Q -> (snd pos == 8)%Q).
Proof.
  cbv zeta. unfold tooltipPosition. cbv zeta. cbn [fst snd].
  unfold Math_max, Math_min.
  generalize (if Qltb containerWidth (mouseX + 12 + tooltipWidth)
              then (mouseX - tooltipWidth - 12)%Q else (mouseX + 12)%Q).
  generalize (if Qltb containerHeight (mouseY + 12 + tooltipHeight)
              then (mouseY - tooltipHeight - 12)%Q else (mouseY + 12)%Q).
  intros y0 x0.
  assert (Hclamp : forall v bound : Q,
             (8 <= Qmax 8 (Qmin v bound))%Q
             /\ ((8 <= bound)%Q -> (Qmax 8 (Qmin v bound) <= bound)%Q)
             /\ ((bound <= 8)%Q -> (Qmax 8 (Qmin v bound) == 8)%Q)).
  { intros v bound. split; [apply Q.le_max_l |]. split.
    - intros Hb. apply Q.max_lub; [exact Hb | apply Q.le_min_r].
    - intros Hb. apply Q.max_l. apply Qle_trans with bound; [apply Q.le_min_r | exact Hb]. }
  destruct (Hclamp x0 (containerWidth - tooltipWidth - 8)%Q) as (Hx1 & Hx2 & Hx3).
  destruct (Hclamp y0 (containerHeight - tooltipHeight - 8)%Q) as (Hy1 & Hy2 & Hy3).
  split; [split; assumption |].
  split; [intros H; specialize (Hx2 ltac:(lra)); lra |].
  split; [intros H; specialize (Hy2 ltac:(lra)); lra |].
  split; intros H; [apply Hx3 | apply Hy3]; lra.
Qed.

(** ** components/Gantt.tsx: the group toggle *)

(** X29. The group toggle flips one identity: after the toggle the task is
    collapsed exactly when it was not before, every other identity is
    as it was, and a second toggle gives the first set back.  The flag
    the host gets with [onGroupToggle] is true exactly when the task is
    collapsed after the toggle: it tells whether the group was expanded
    before it. *)
Theorem handleGroupToggle_flips (collapsedIds : gset string) (taskId : string) :
  let next := fst (handleGroupToggle collapsedIds taskId) in
  (taskId ∈ next <-> taskId ∉ collapsedIds)
  /\ (forall other, other <> taskId -> other ∈ next <-> other ∈ collapsedIds)
  /\ fst (handleGroupToggle next taskId) = collapsedIds
  /\ exists isExpanded,
       snd (handleGroupToggle collapsedIds taskId) = [onGroupToggle taskId isExpanded]
       /\ (isExpanded = true <-> taskId ∈ next).
Proof.
  cbv zeta. unfold handleGroupToggle, Set_has. cbn [fst snd].
  destruct (decide (taskId ∈ collapsedIds)) as [Hin | Hout].
  - rewrite (bool_decide_eq_true_2 _ Hin).
    assert (Hno : taskId ∉ collapsedIds ∖ {[taskId]}).
    { rewrite elem_of_difference, elem_of_singleton. intros [_ Hne]. apply Hne. reflexivity. }
    rewrite (bool_decide_eq_false_2 _ Hno).
    split; [split; intros H; contradiction |]. split; [| split].
    + intros other Hne. rewrite elem_of_difference, elem_of_singleton.
      split; [intros [H _]; exact H | intros H; split; assumption].
    + apply set_eq. intros k.
      rewrite elem_of_union, elem_of_difference, elem_of_singleton.
      destruct (decide (k = taskId)) as [-> | Hne]; intuition.
    + eexists. split; [reflexivity |]. cbn [negb].
      split; [discriminate | intros H; contradiction].
  - rewrite (bool_decide_eq_false_2 _ Hout).
    assert (Hyes : taskId ∈ collapsedIds ∪ {[taskId]}).
    { rewrite elem_of_union, elem_of_singleton. right. reflexivity. }
    rewrite (bool_decide_eq_true_2 _ Hyes).
    split; [split; intros _; assumption |]. split; [| split].
    + intros other Hne. rewrite elem_of_union, elem_of_singleton.
      split; [intros [H | H]; [exact H | contradiction] | intros H; left; exact H].
    + apply set_eq. intros k.
      rewrite elem_of_difference, elem_of_union, elem_of_singleton.
      destruct (decide (k = taskId)) as [-> | Hne]; intuition.
    + eexists. split; [reflexivity |]. cbn [negb].
      split; [intros _; exact Hyes | reflexivity].
Qed.

(** ** utils/position.ts: the levels of the hierarchy *)

(** X30. The level of an entry is its depth in the hierarchy: with unique,
    non-empty identities, the entry of a root has level 0, and the entry
    of a task that has a parent in the list is one level below an entry
    of that parent. *)
Theorem flattenTasks_levels (tasks : list GanttTask) (collapsedIds : gset string)
    (fuel : nat) (out : list FlatEntry) (e : FlatEntry) :
  NoDup (id <$> tasks) -> (forall u, u ∈ tasks -> id u <> "") ->
  flattenTasks fuel tasks collapsedIds = Some out ->
  e ∈ out ->
  (isRootTask tasks (flat_task e) = true -> flat_level e = 0%nat)
  /\ (forall p, parentOf tasks p (flat_task e) ->
        exists ep, ep ∈ out /\ flat_task ep = p
                   /\ flat_level e = (flat_level ep + 1)%nat).
Proof.
  intros Hnd Hid Hout He. destruct e as [t lvl pv]. cbn [flat_task flat_level].
  apply (flattenTasks_visited tasks collapsedIds fuel out Hout) in He.
  inversion He as [t' Hin Hroot | q lvl' pv' t' Hv Hin Hc]; subst.
  - split; [reflexivity |]. intros p Hp. exfalso.
    exact (root_has_no_parent tasks t Hid Hroot p Hp).
  - assert (Hq : parentOf tasks q t).
    { repeat split; [exact (visited_in_tasks tasks collapsedIds _ _ _ Hv) | exact Hin |].
      apply isChildOf_true, Hc. }
    split.
    + intros Hroot. exfalso. exact (root_has_no_parent tasks t Hid Hroot q Hq).
    + intros p Hp. assert (p = q) as ->.
      { destruct Hp as (Hp1 & _ & Hp3), Hq as (Hq1 & _ & Hq3).
        apply (task_of_id tasks p q Hnd Hp1 Hq1). congruence. }
      exists (mkFlatEntry q lvl' pv'). split; [| split; reflexivity].
      apply (flattenTasks_visited tasks collapsedIds fuel out Hout). exact Hv.
Qed.

End Host.

(** * The theorems at concrete inputs *)

Example getDate_jan16 : getDate utc (jan2024 16) = 16.
Proof. reflexivity. Qed.

Example getDate_feb29 : getDate utc (jan2024 60) = 29.
Proof. reflexivity. Qed.

Example getDate_dec31_2023 : getDate utc (jan2024 0) = 31.
Proof. reflexivity. Qed.

Example getDate_epoch : getDate utc 0 = 1.
Proof. reflexivity. Qed.

Example getDate_1969 : getDate utc (-1) = 31.
Proof. reflexivity. Qed.

Example addDays_across_month : addDays utc (jan2024 25 + noon) 10 = jan2024 35 + noon.
Proof. reflexivity. Qed.

Example endOfDay_jan31 : endOfDay utc (jan2024 31 + noon) = jan2024 32 - 1.
Proof. reflexivity. Qed.

(** ** The coordinate engine *)

Lemma xToDate_dateToX_roundtrip_witness :
  xToDate (dateToX (jan2024 16) january 310) january 310 = jan2024 16.
Proof.
  apply (proj1 (xToDate_dateToX_roundtrip (jan2024 16) january 310
                  ltac:(reflexivity) ltac:(reflexivity)
                  ltac:(split; discriminate))).
Defined.

(** C1 as stated fails on the numbers of the runtime.  In the range of
    January 1970, drawn 300 pixels wide, the position of January 12 is
    [109.99999999999999] ([0x1.b7fffffffffffp+6]); on the way back that is a fraction of a
    millisecond before January 12, and [new Date] truncates: the date
    comes back one millisecond early, on January 11.  And the two
    functions are not inverses the other way round, on exact numbers
    either: in a range of one second drawn 3000 pixels wide, pixel 1 is a
    third of a millisecond and comes back as pixel 0. *)
Lemma xToDate_dateToX_binary64_counterexample :
  (range_start january1970 < range_end january1970
   /\ range_start january1970 <= jan1970 12 <= range_end january1970)
  /\ dateToX64 (Some (jan1970 12)) january1970 300 = 0x1.b7fffffffffffp+6%float
  /\ xToDate64 (dateToX64 (Some (jan1970 12)) january1970 300) january1970 300
     = Some (jan1970 12 - 1)
  /\ ~ (dateToX (xToDate 1 oneSecond 3000) oneSecond 3000 == 1)%Q.
Proof.
  split; [split; [reflexivity | split; discriminate] |].
  split; [vm_compute; reflexivity |].
  split; [vm_compute; reflexivity |].
  vm_compute. discriminate.
Qed.

(** Further from the epoch the sum is rounded to the whole millisecond
    and the date comes back: the same day in January 2024. *)
Example xToDate64_dateToX64_2024 :
  xToDate64 (dateToX64 (Some (jan2024 12)) january 300) january 300
  = Some (jan2024 12).
Proof. vm_compute. reflexivity. Qed.

(** Without a width, and without a length of the range, the code divides
    by zero: the date is invalid, and the width of a bar is [NaN]. *)
Example xToDate64_no_width : xToDate64 110 january 0 = None.
Proof. vm_compute. reflexivity. Qed.

Example calculateBarWidth64_empty_range :
  PrimFloat.is_nan
    (calculateBarWidth64 (Some (jan2024 10)) (Some (jan2024 12)) emptyRange 300 4)
  = true.
Proof. vm_compute. reflexivity. Qed.


Example snapToGrid_117 : (snapToGrid utc 117 january 300 week == 110)%Q.
Proof. reflexivity. Qed.


(** Pixel 110 itself, the position of January 12 on exact numbers, snaps
    to the day before. *)
Example snapToGrid64_110 : snapToGrid64 utc 110 january1970 300 week = 100%float.
Proof. vm_compute. reflexivity. Qed.

(** ** The derived date range: Scenario B *)

Lemma calculateDateRange_spans_baselines_witness :
  [rescheduled] <> []
  /\ range_start (calculateDateRange utc 0 [rescheduled] 7 None)
     = jan2024 1 - 7 * MS_PER_DAY
  /\ range_end (calculateDateRange utc 0 [rescheduled] 7 None)
     = jan2024 20 + 7 * MS_PER_DAY + (MS_PER_DAY - 1).
Proof.
  assert (Hne : [rescheduled] <> []) by discriminate.
  split; [exact Hne |].
  destruct (calculateDateRange_spans_baselines utc 0 [rescheduled] 7 Hne)
    as (lo & hi & [Hlo Hmin] & [Hhi Hmax] & Hk & _).
  destruct (Hk 7 ltac:(reflexivity)) as [-> ->].
  assert (lo = jan2024 1) as ->.
  { pose proof (Hmin (jan2024 1) ltac:(right; left)) as Hle.
    apply elem_of_cons in Hlo as [-> | Hlo]; [exfalso; apply Hle; reflexivity |].
    apply list_elem_of_singleton in Hlo. exact Hlo. }
  assert (hi = jan2024 20) as ->.
  { pose proof (Hmax (jan2024 20) ltac:(left)) as Hle.
    apply elem_of_cons in Hhi as [-> | Hhi]; [reflexivity |].
    apply list_elem_of_singleton in Hhi. subst hi. exfalso; apply Hle; reflexivity. }
  split; reflexivity.
Defined.

(** C5 as stated fails for a padding that is not a whole number of days.
    The task starts on January 10 and ends on January 12, both at 18:00,
    and the padding is half a day.  Half a day before the start is
    January 10 at 6:00, and half a day after the end is January 13 at
    6:00; the range of the code starts on January 9 and ends with January
    12, a day before each: [setDate] truncates 9.5 to 9 and 12.5 to 12.
    Taking the start and the end of the day first and moving by half a
    day then does not give the range of the code either. *)
Lemma calculateDateRange_fractional_padding_counterexample :
  range_start (calculateDateRange utc 0 [eveningTask] (1 # 2) None) = jan2024 9
  /\ startOfDay utc (start eveningTask - MS_PER_DAY / 2) = jan2024 10
  /\ startOfDay utc (start eveningTask) - MS_PER_DAY / 2 = jan2024 9 + noon
  /\ range_end (calculateDateRange utc 0 [eveningTask] (1 # 2) None)
     = jan2024 13 - 1
  /\ endOfDay utc (end_ eveningTask + MS_PER_DAY / 2) = jan2024 14 - 1
  /\ endOfDay utc (end_ eveningTask) + MS_PER_DAY / 2 = jan2024 13 + noon - 1.
Proof. repeat split; vm_compute; reflexivity. Qed.

(** ** The flattener and the compiler: Scenario C *)

Ltac task_cases H :=
  repeat (apply elem_of_cons in H as [-> | H]); [.. | inversion H].

Lemma scenarioC_acyclic : acyclic scenarioC.
Proof.
  apply (acyclic_by_rank _ (fun t => if String.eqb (id t) "A" then 0%nat
                                     else if String.eqb (id t) "B" then 1%nat
                                     else 2%nat)).
  intros p t (Hp & Ht & E).
  task_cases Hp; task_cases Ht; try discriminate E; vm_compute; lia.
Qed.

Lemma scenarioC_identities :
  NoDup (id <$> scenarioC) /\ forall u, u ∈ scenarioC -> id u <> "".
Proof.
  split.
  - apply (bool_decide_unpack _). vm_compute. exact I.
  - intros u Hu. task_cases Hu; discriminate.
Qed.

Example scenarioC_flattened :
  flattenTasks 3 scenarioC {["A"]} = Some scenarioC_flat.
Proof. vm_compute. reflexivity. Qed.

Example scenarioC_rows : rowIndex <$> scenarioC_computed = [0; -1; -1].
Proof. vm_compute. reflexivity. Qed.

Example scenarioC_expanded_rows :
  (fun out : list ComputedTask => rowIndex <$> out)
  <$> computeTaskPositions 3 scenarioC january 300 ∅
  = Some [0; 1; 2].
Proof. vm_compute. reflexivity. Qed.

Lemma flattenTasks_visibility_witness :
  exists out,
    flattenTasks 3 scenarioC {["A"]} = Some out
    /\ forall e, e ∈ out -> flat_task e = taskC -> flat_isVisible e = false.
Proof.
  destruct (flattenTasks_visibility scenarioC {["A"]}
              (proj1 scenarioC_identities) (proj2 scenarioC_identities)
              scenarioC_acyclic)
    as (out & Hout & _ & Hvis & _).
  exists out. split; [exact Hout |].
  intros e He Et. destruct (Hvis e He) as [_ Hiff].
  destruct (flat_isVisible e); [| reflexivity].
  exfalso. apply (proj1 Hiff eq_refl taskA); [| apply elem_of_singleton; reflexivity].
  rewrite Et. apply (ancestor_step _ taskA taskB taskC).
  - apply ancestor_parent. repeat split; [left | right; left].
  - repeat split; [right; left | right; right; left].
Defined.

Lemma baseline_uses_same_transform_witness :
  acyclic scenarioC
  /\ computeTaskPositions 3 scenarioC january 300 {["A"]} = Some scenarioC_computed
  /\ forall ct, ct ∈ scenarioC_computed -> task ct = taskB ->
       baselineX ct = Some (dateToX (jan2024 1) january 300)
       /\ baselineWidth ct
          = Some (calculateBarWidth (jan2024 1) (jan2024 9) january 300 4).
Proof.
  split; [exact scenarioC_acyclic |].
  assert (Hout : computeTaskPositions 3 scenarioC january 300 {["A"]}
                 = Some scenarioC_computed) by (vm_compute; reflexivity).
  split; [exact Hout |].
  intros ct Hct Et.
  destruct (proj2 (baseline_uses_same_transform scenarioC january 300 {["A"]})
              3%nat scenarioC_computed Hout ct Hct)
    as (_ & _ & _ & _ & _ & Hb).
  apply Hb; rewrite Et; reflexivity.
Defined.

Lemma rowIndex_counts_visible_witness :
  acyclic scenarioC
  /\ computeTaskPositions 3 scenarioC january 300 {["A"]} = Some scenarioC_computed
  /\ (forall i ct, scenarioC_computed !! i = Some ct ->
        (isVisible ct = false -> rowIndex ct = -1)
        /\ (isVisible ct = true ->
            rowIndex ct
            = Z.of_nat (length (List.filter isVisible (take i scenarioC_computed)))))
  /\ rowIndex <$> List.filter isVisible scenarioC_computed
     = Z.of_nat <$> seq 0 (length (List.filter isVisible scenarioC_computed)).
Proof.
  split; [exact scenarioC_acyclic |].
  assert (Hout : computeTaskPositions 3 scenarioC january 300 {["A"]}
                 = Some scenarioC_computed) by (vm_compute; reflexivity).
  split; [exact Hout |].
  exact (proj2 (proj2 (rowIndex_counts_visible scenarioC january 300 {["A"]})
                  3%nat scenarioC_computed Hout)).
Defined.

(** C3.  The flattener breaks the claim for a group whose identity is
    the empty string.  [childOfUnnamed] names the group [unnamed] as its
    parent, and the group is collapsed.  The test for roots reads the
    empty [parentId] as no parent ([!t.parentId]), the scan for children
    reads it as a reference ([t.parentId === task.id]): the child is
    listed twice, once hidden below its parent and once as a visible root
    at level 0, although its only ancestor is collapsed. *)
Theorem flattenTasks_lists_child_of_unnamed_twice :
  acyclic [unnamed; childOfUnnamed]
  /\ flattenTasks 2 [unnamed; childOfUnnamed] {[""]}
     = Some [mkFlatEntry unnamed 0 true;
             mkFlatEntry childOfUnnamed 1 false;
             mkFlatEntry childOfUnnamed 0 true]
  /\ ancestor [unnamed; childOfUnnamed] unnamed childOfUnnamed
  /\ id unnamed ∈ ({[""]} : gset string)
  /\ NoDup (id <$> [unnamed; childOfUnnamed]).
Proof.
  split; [| split; [| split; [| split]]]; [| | | | apply (bool_decide_unpack _); vm_compute; exact I].
  - apply (acyclic_by_rank _ (fun t => String.length (id t))).
    intros p t (Hp & Ht & E).
    task_cases Hp; task_cases Ht; try discriminate E; vm_compute; lia.
  - vm_compute. reflexivity.
  - apply ancestor_parent. repeat split; [left | right; left].
  - apply elem_of_singleton. reflexivity.
Qed.

(** ** The drag controller *)



(** C6: the minimum of one day is not kept by a resize-left of a task that
    ends within a day.  The task ends on January 12 at noon; its left edge
    is dragged from January 10 to January 12.  The candidate start,
    January 12 at midnight, is before the end, so it is not clamped; the
    end is then normalized to the same midnight.  The preview and the
    commit ([cancelled = false]) both have start = end. *)
Theorem resize_left_reports_empty_range :
  documentEvents utc dragOptions (grabbed endsAtNoon 90 resize_left)
    [mousemove 110; mouseup]
  = (idle,
     [onDragMove (positioned endsAtNoon) (jan2024 12) (jan2024 12);
      onDragEnd (positioned endsAtNoon) (jan2024 12) (jan2024 12) false true]).
Proof. vm_compute. reflexivity. Qed.

Lemma escape_reports_original_dates_witness :
  exists previews,
    documentEvents utc dragOptions (grabbed dayAndAHalf 95 move)
      ([mousemove 115; keydown "a"; mousemove 140] ++ [keydown "Escape"])
    = (idle,
       previews ++ [onDragEnd (positioned dayAndAHalf) (jan2024 10)
                      (jan2024 11 + noon) true false])
    /\ Forall (isPreviewOf (positioned dayAndAHalf)) previews.
Proof.
  exact (escape_reports_original_dates utc dragOptions idle
           (grabbed dayAndAHalf 95 move) (positioned dayAndAHalf) 95 move
           [mousemove 115; keydown "a"; mousemove 140] eq_refl eq_refl).
Defined.

Lemma pointer_down_rejected_witness :
  handleDragStart dragOptions idle (positioned taskA) 95 move = (idle, [])
  /\ handleTaskDragStart dragOptions idle (positioned taskA) 95 move = (idle, []).
Proof. apply pointer_down_rejected. right; right; right. reflexivity. Defined.

(** The hook alone does not look at the type of the task: the check for
    groups is the one of [handleTaskDragStart]. *)
Example handleMouseDown_on_group :
  snd (handleMouseDown dragOptions idle (positioned taskA) 95 (Some move))
  = [preventDefault; stopPropagation; onDragStart (positioned taskA)].
Proof. reflexivity. Qed.

(** A pointer-down directly followed by a pointer-up reports a cancelled
    gesture with the dates unchanged. *)
Example click_is_cancelled :
  documentEvents utc dragOptions (grabbed dayAndAHalf 95 move) [mouseup]
  = (idle,
     [onDragEnd (positioned dayAndAHalf) (start dayAndAHalf) (end_ dayAndAHalf)
        true false]).
Proof. reflexivity. Qed.

(** On other pixels the way back loses the fraction of a millisecond: in a
    range of one second drawn 3000 pixels wide, pixel 1 is a third of a
    millisecond. *)
Example xToDate_truncates :
  (dateToX (xToDate 1 oneSecond 3000) oneSecond 3000 == 0)%Q.
Proof. reflexivity. Qed.

(** ** Dates and the range *)

Lemma startOfDay_endOfDay_bracket_witness :
  startOfDay utc (jan2024 16 + 1) = startOfDay utc (jan2024 16 + noon)
  /\ endOfDay utc (jan2024 16 + 1) = endOfDay utc (jan2024 16 + noon).
Proof.
  apply (proj2 (proj2 (startOfDay_endOfDay_bracket utc (jan2024 16 + noon)))
           (jan2024 16 + 1)%Z).
  split; vm_compute; discriminate.
Defined.

(** Half a day back from the 25th at noon is the 24th at noon. *)
Lemma addDays_rounds_down_witness :
  addDays utc (jan2024 25 + noon) (- (1 # 2))
  = jan2024 25 + noon + Qfloor (- (1 # 2)) * MS_PER_DAY.
Proof.
  apply (addDays_rounds_down utc (jan2024 25 + noon) (- (1 # 2))).
  vm_compute. discriminate.
Defined.

Lemma addDays_diffInDays_witness :
  addDays utc (jan2024 10) (diffInDays (jan2024 10) (jan2024 11 + noon))
  <= jan2024 11 + noon
  < addDays utc (jan2024 10) (diffInDays (jan2024 10) (jan2024 11 + noon))
    + MS_PER_DAY
  /\ (addDays utc (jan2024 10) (diffInDays (jan2024 10) (jan2024 11 + noon))
      = jan2024 11 + noon
      <-> (jan2024 11 + noon - jan2024 10) mod MS_PER_DAY = 0).
Proof.
  apply (addDays_diffInDays utc (jan2024 10) (jan2024 11 + noon)).
  vm_compute. discriminate.
Defined.

(** January 17, 2024 is a Wednesday; the Monday before is January 15. *)
Lemma startOfWeek_spec_witness :
  dayAligned utc (startOfWeek utc (jan2024 17 + noon) 1)
  /\ startOfWeek utc (jan2024 17 + noon) 1 <= jan2024 17 + noon
     < startOfWeek utc (jan2024 17 + noon) 1 + 7 * MS_PER_DAY
  /\ getDay utc (startOfWeek utc (jan2024 17 + noon) 1) = 1
  /\ startOfWeek utc (startOfWeek utc (jan2024 17 + noon) 1) 1
     = startOfWeek utc (jan2024 17 + noon) 1.
Proof.
  apply (startOfWeek_spec utc (jan2024 17 + noon) 1). right. reflexivity.
Defined.

Example startOfWeek_jan17 : startOfWeek utc (jan2024 17 + noon) 1 = jan2024 15.
Proof. reflexivity. Qed.

Lemma calculateDateRange_totalDays_witness :
  exists n : Z,
    totalDays (calculateDateRange utc 0%Z [rescheduled] 7 None) = inject_Z n
    /\ range_end (calculateDateRange utc 0%Z [rescheduled] 7 None)
       - range_start (calculateDateRange utc 0%Z [rescheduled] 7 None)
       = n * MS_PER_DAY - 1
    /\ dayAligned utc (range_start (calculateDateRange utc 0%Z [rescheduled] 7 None)).
Proof.
  apply (calculateDateRange_totalDays utc 0 [rescheduled] 7 None).
  right. discriminate.
Defined.

Lemma calculateDateRange_no_tasks_witness :
  range_start (calculateDateRange utc (jan2024 16 + noon) [] 7 None)
  = startOfDay utc (jan2024 16 + noon) - 7 * MS_PER_DAY
  /\ range_end (calculateDateRange utc (jan2024 16 + noon) [] 7 None)
     = endOfDay utc (jan2024 16 + noon) + 7 * MS_PER_DAY
  /\ (totalDays (calculateDateRange utc (jan2024 16 + noon)%Z [] 7 None)
      == inject_Z (2 * 7))%Q
  /\ range_end (calculateDateRange utc (jan2024 16 + noon) [] 7 None)
     - range_start (calculateDateRange utc (jan2024 16 + noon) [] 7 None)
     = (2 * 7 + 1) * MS_PER_DAY - 1.
Proof.
  apply (calculateDateRange_no_tasks utc (jan2024 16 + noon) 7 7). reflexivity.
Defined.

Lemma calculateDateRange_contains_tasks_witness :
  let r := calculateDateRange utc 0 scenarioC 7 None in
  (range_start r <= start taskB /\ end_ taskB <= range_end r
   /\ (forall b, baselineStart taskB = Some b -> range_start r <= b)
   /\ (forall b, baselineEnd taskB = Some b -> b <= range_end r))
  /\ (start taskB <= end_ taskB ->
      range_start r <= start taskB <= range_end r
      /\ range_start r <= end_ taskB <= range_end r)
  /\ (forall bs be,
        baselineStart taskB = Some bs -> baselineEnd taskB = Some be -> bs <= be ->
        range_start r <= bs <= range_end r /\ range_start r <= be <= range_end r).
Proof.
  apply (calculateDateRange_contains_tasks utc 0 scenarioC 7 taskB).
  - vm_compute. discriminate.
  - right. left.
Defined.

(** A baseline end without a baseline start can lie before the range, and
    the start of a task that ends before it starts can lie after it. *)
Example baselineEnd_before_range :
  baselineEnd earlyBaselineEnd = Some (jan2024 1)
  /\ jan2024 1
     < range_start (calculateDateRange utc 0 [earlyBaselineEnd] 7 None).
Proof. split; reflexivity. Qed.

Example inverted_start_after_range :
  range_end (calculateDateRange utc 0 [inverted] 7 None) < start inverted.
Proof. reflexivity. Qed.

(** ** The grid *)

Lemma generateDateGrid_day_witness :
  length <$> generateDateGrid utc 40 january day 1 = Some 31%nat.
Proof.
  rewrite (proj1 (generateDateGrid_day utc 40 january 1 ltac:(vm_compute; lia))).
  reflexivity.
Defined.

(** January 1, 2024 is a Monday: with weeks that start on Sunday the grid
    starts on December 31. *)
Lemma generateDateGrid_week_witness :
  generateDateGrid utc 10 january week 0
  = Some [jan2024 0; jan2024 7; jan2024 14; jan2024 21; jan2024 28].
Proof.
  rewrite (proj1 (generateDateGrid_week utc 10 january 0 (or_introl eq_refl)
                    ltac:(vm_compute; lia))).
  reflexivity.
Defined.

Lemma day_grid_fills_chart_witness :
  exists grid,
    generateDateGrid utc (S (length grid))
      (calculateDateRange utc 0%Z [rescheduled] 7 None) day 1 = Some grid
    /\ (inject_Z (Z.of_nat (length grid))
        == totalDays (calculateDateRange utc 0%Z [rescheduled] 7 None))%Q
    /\ (inject_Z (Z.of_nat (length grid)) * getColumnWidth day
        == calculateChartWidth (calculateDateRange utc 0%Z [rescheduled] 7 None) day)%Q.
Proof.
  apply (day_grid_fills_chart utc 0 [rescheduled] 7 None 1).
  - right. discriminate.
  - vm_compute. discriminate.
Defined.

Lemma week_grid_columns_witness :
  exists grid,
    generateDateGrid utc (S (length grid))
      (calculateDateRange utc 0%Z [rescheduled] 7 None) week 1 = Some grid
    /\ (calculateChartWidth (calculateDateRange utc 0%Z [rescheduled] 7 None) week
        <= inject_Z (Z.of_nat (length grid)) * getColumnWidth week)%Q
    /\ (inject_Z (Z.of_nat (length grid)) * getColumnWidth week
        <= calculateChartWidth (calculateDateRange utc 0%Z [rescheduled] 7 None) week
           + getColumnWidth week)%Q.
Proof.
  apply (week_grid_columns utc 0 [rescheduled] 7 None 1).
  - right. discriminate.
  - right. reflexivity.
  - vm_compute. discriminate.
Defined.

(** The range of [rescheduled], December 25 to January 27, is 34 days: 5
    columns of a week in the chart width, and 5 weeks in the grid. *)
Example week_grid_rescheduled :
  length <$> generateDateGrid utc 10 (calculateDateRange utc 0%Z [rescheduled] 7 None)
               week 1 = Some 5%nat
  /\ (calculateChartWidth (calculateDateRange utc 0%Z [rescheduled] 7 None) week
      == 5 * 120)%Q.
Proof. split; vm_compute; reflexivity. Qed.

(** ** The scale *)

Lemma dateToX_linear_witness :
  (dateToX (range_start january) january 300 == 0)%Q
  /\ (dateToX (range_end january) january 300 == 300)%Q
  /\ (forall d1 d2, d1 < d2 -> (dateToX d1 january 300 < dateToX d2 january 300)%Q)
  /\ (forall d k : Z,
        (dateToX (d + k)%Z january 300 - dateToX d january 300
         == dateToX (range_start january + k)%Z january 300)%Q).
Proof. apply (dateToX_linear january 300); reflexivity. Defined.



Lemma getBarDimensions_layout_witness :
  let dims := getBarDimensions 2 40 in
  (getRowY 2 40 <= bar_y (taskBar dims))%Q
  /\ (bar_y (baselineBar dims)
      == bar_y (taskBar dims) + bar_height (taskBar dims) + 2)%Q
  /\ (bar_y (baselineBar dims) + bar_height (baselineBar dims)
      <= getRowY (2 + 1) 40)%Q
  /\ (0 < bar_height (taskBar dims) <= 20)%Q
  /\ (0 < bar_height (baselineBar dims) <= 8)%Q.
Proof. apply (getBarDimensions_layout 2 40). vm_compute. discriminate. Defined.

(** ** The flattener and the compiler, again on Scenario C *)

Lemma flattenTasks_order_independent_witness :
  exists out',
    flattenTasks 3 scenarioC ∅ = Some out'
    /\ (fun e => (flat_task e, flat_level e)) <$> out'
       = (fun e => (flat_task e, flat_level e)) <$> scenarioC_flat.
Proof.
  apply (flattenTasks_order_independent scenarioC {["A"]} ∅ 3 scenarioC_flat).
  vm_compute. reflexivity.
Defined.

Lemma flattenTasks_collapse_monotone_witness :
  exists out',
    flattenTasks 3 scenarioC {["A"]} = Some out'
    /\ Forall2 (fun e e' =>
                  flat_task e = flat_task e'
                  /\ (flat_isVisible e' = true -> flat_isVisible e = true))
         [mkFlatEntry taskA 0 true; mkFlatEntry taskB 1 true; mkFlatEntry taskC 2 true]
         out'
    /\ (length (List.filter flat_isVisible out')
        <= length (List.filter flat_isVisible
                     [mkFlatEntry taskA 0 true; mkFlatEntry taskB 1 true;
                      mkFlatEntry taskC 2 true]))%nat.
Proof.
  apply (flattenTasks_collapse_monotone scenarioC ∅ {["A"]} 3).
  - apply empty_subseteq.
  - vm_compute. reflexivity.
Defined.

Lemma nothing_collapsed_all_rows_witness :
  exists ct,
    scenarioC_expanded !! 2%nat = Some ct
    /\ task ct = taskC
    /\ isVisible ct = true /\ isCollapsed ct = false /\ rowIndex ct = 2.
Proof.
  eexists. split; [reflexivity |]. split; [reflexivity |].
  apply (nothing_collapsed_all_rows 3 scenarioC january 300 scenarioC_expanded
           ltac:(vm_compute; reflexivity) 2%nat).
  reflexivity.
Defined.

Lemma flattenTasks_permutation_witness :
  exists out,
    flattenTasks (length scenarioC) scenarioC {["A"]} = Some out
    /\ flat_task <$> out ≡ₚ scenarioC
    /\ length out = length scenarioC.
Proof.
  apply (flattenTasks_permutation scenarioC {["A"]}).
  - exact (proj1 scenarioC_identities).
  - exact (proj2 scenarioC_identities).
  - exact scenarioC_acyclic.
Defined.

Lemma flattenTasks_levels_witness :
  (isRootTask scenarioC taskC = true -> 2%nat = 0%nat)
  /\ (forall p, parentOf scenarioC p taskC ->
        exists ep, ep ∈ scenarioC_flat /\ flat_task ep = p
                   /\ 2%nat = (flat_level ep + 1)%nat).
Proof.
  apply (flattenTasks_levels scenarioC {["A"]} 3 scenarioC_flat
           (mkFlatEntry taskC 2 false)).
  - exact (proj1 scenarioC_identities).
  - exact (proj2 scenarioC_identities).
  - vm_compute. reflexivity.
  - right. right. left.
Defined.

(** ** The whole gesture *)

Lemma mouseup_commits_last_preview_witness :
  documentEvents utc dragOptions (grabbed dayAndAHalf 95 move)
    ([mousemove 115; keydown "a"] ++ [mouseup])
  = (idle,
     [onDragMove (positioned dayAndAHalf) (jan2024 12) (jan2024 13);
      onDragEnd (positioned dayAndAHalf) (jan2024 12) (jan2024 13) false false]).
Proof.
  rewrite (mouseup_commits_last_preview utc dragOptions idle
             (grabbed dayAndAHalf 95 move) (positioned dayAndAHalf) 95 move
             [mousemove 115; keydown "a"] eq_refl eq_refl).
  vm_compute. reflexivity.
Defined.

Lemma gesture_ends_once_witness :
  documentEvents utc dragOptions (grabbed dayAndAHalf 95 move)
    ([mousemove 115] ++ mouseup :: [mousemove 140; keydown "Escape"; mouseup])
  = documentEvents utc dragOptions (grabbed dayAndAHalf 95 move)
      ([mousemove 115] ++ [mouseup])
  /\ exists previews s e cancelled,
       documentEvents utc dragOptions (grabbed dayAndAHalf 95 move)
         ([mousemove 115] ++ mouseup :: [mousemove 140; keydown "Escape"; mouseup])
       = (idle,
          previews ++ [onDragEnd (positioned dayAndAHalf) s e cancelled
                         (isResizeMode (Some move))])
       /\ Forall (isPreviewOf (positioned dayAndAHalf)) previews.
Proof.
  exact (gesture_ends_once utc dragOptions idle (grabbed dayAndAHalf 95 move)
           (positioned dayAndAHalf) 95 move [mousemove 115]
           [mousemove 140; keydown "Escape"; mouseup] mouseup
           eq_refl eq_refl eq_refl).
Defined.

(** A gesture ended by Escape changes no date, whatever comes after. *)
Lemma host_date_changes_witness :
  Gantt_hostEvents
    (snd (documentEvents utc dragOptions (grabbed dayAndAHalf 95 move)
            ([mousemove 115] ++ keydown "Escape" :: [mouseup])))
  = [].
Proof.
  apply (proj2 (host_date_changes utc dragOptions idle (grabbed dayAndAHalf 95 move)
                  (positioned dayAndAHalf) 95 move
                  ([mousemove 115] ++ keydown "Escape" :: [mouseup])
                  eq_refl eq_refl eq_refl)
           [mousemove 115] [mouseup]);
    reflexivity.
Defined.

(** The same gesture ended by the pointer-up changes the dates. *)
Example host_date_change_committed :
  Gantt_hostEvents
    (snd (documentEvents utc dragOptions (grabbed dayAndAHalf 95 move)
            [mousemove 115; mouseup]))
  = [onTaskDateChange (positioned dayAndAHalf) (jan2024 12) (jan2024 13) false].
Proof. vm_compute. reflexivity. Qed.


(** The ghost bar of the resize that ends on the day it starts has no
    width. *)
Example drag_preview_empty :
  (fun wd : Q => Qeq_bool wd 0)
  <$> getDragPreviewWidth dragOptions
        (fst (handleMouseMove utc dragOptions (grabbed endsAtNoon 90 resize_left) 110))
  = Some true.
Proof. vm_compute. reflexivity. Qed.

(** ** The arrows *)

(** C in row 2 ends after B in row 1 starts: the arrow from C to B goes
    around, 8 pixels above row 1. *)
Lemma dependency_detour_row_witness :
  let cp := connectionPoints (inRow taskC 2) (inRow taskB 1) finish_to_start 40 in
  exists x1 x2 routeY,
    calculateDependencyPath (inRow taskC 2) (inRow taskB 1) finish_to_start 40
    = [fst cp; (x1, snd (fst cp)); (x1, routeY); (x2, routeY);
       (x2, snd (snd cp)); snd cp]
    /\ (routeY
        == if rowIndex (inRow taskC 2) <=? rowIndex (inRow taskB 1)
           then (inject_Z (rowIndex (inRow taskB 1)) + 1) * 40
           else inject_Z (rowIndex (inRow taskB 1)) * 40 - 8)%Q.
Proof.
  apply (dependency_detour_row (inRow taskC 2) (inRow taskB 1) finish_to_start 40);
    reflexivity.
Defined.

Lemma arrows_between_visible_rows_witness :
  let a := mkArrow "B-C"
             (calculateDependencyPath (inRow taskB 1) (inRow taskC 2)
                finish_to_start 40)
             finish_to_start in
  let tasks := [inRow taskB 1; inRow taskC 2] in
  let dependencies := [cAfterB; danglingDependency] in
  (length (arrows tasks dependencies 40) <= length dependencies)%nat
  /\ exists dep fromTask toTask,
       dep ∈ dependencies
       /\ fromTask ∈ tasks /\ id (task fromTask) = fromId dep
       /\ toTask ∈ tasks /\ id (task toTask) = toId dep
       /\ isVisible fromTask = true /\ isVisible toTask = true
       /\ a = mkArrow (fromId dep ++ "-" ++ toId dep)
                (calculateDependencyPath fromTask toTask (dep_type dep) 40)
                (dep_type dep).
Proof.
  apply (arrows_between_visible_rows [inRow taskB 1; inRow taskC 2]
           [cAfterB; danglingDependency] 40).
  vm_compute. left.
Defined.

(** The dependency on a task that is not in the chart has no arrow. *)
Example dangling_dependency_dropped :
  arrow_id <$> arrows [inRow taskB 1; inRow taskC 2] [cAfterB; danglingDependency] 40
  = ["B-C"].
Proof. vm_compute. reflexivity. Qed.

(** ** The tooltip *)

(** Near the right border the tooltip goes to the left of the pointer. *)
Lemma tooltipPosition_inside_witness :
  (fst (tooltipPosition 290 50 100 40 300 200) + 100 <= 300 - 8)%Q.
Proof.
  apply (proj1 (proj2 (tooltipPosition_inside 290 50 100 40 300 200))).
  vm_compute. discriminate.
Defined.
